(** * ADGM Corporate Agent: classification, red-flag scan and completeness

    A shallow embedding of the decision logic of [app_simple.py]
    ([SimpleDocumentParser._identify_document_type],
    [SimpleValidator.validate_document],
    [SimpleComplianceChecker.generate_compliance_report]) and of the
    identical classifier of [document_parser.py].

    Conventions of the embedding.
    - A Python [str] is a Rocq [string] holding its UTF-8 encoding: an ASCII
      character is one byte, any other character a sequence of two to four
      bytes of code 128 or more.  A text occurs in another one as a [str]
      exactly when its encoding occurs in the other's encoding.
    - [str.lower] maps [A-Z] to [a-z], U+0130 to [i] followed by U+0307, and
      U+212A (the Kelvin sign) to [k]: these are the characters whose lower
      case has a character of ASCII.  The other characters are kept; where
      Python lowers one of them, it lowers it to characters outside ASCII,
      which does not change where an ASCII text occurs.
      Under [(?i)] a letter of a pattern also matches the characters outside
      ASCII that Python's [re] takes for a case of it: U+0130 and U+0131 for
      [i], U+017F for [s], U+212A for [k].
    - [str.strip] and [str.split] read a text character by character, with
      the white space of Unicode; [len] counts characters.  [str.title] and
      [str.replace] are embedded for ASCII text, the document types and the
      topic names that the source applies them to.
    - A [dict] literal iterated with [.items()] is an association list in
      the literal's order (insertion order).
    - The [set] of observed document types is a [gset string]; where the
      source lists it ([list(doc_types)]) the order is that of [elements],
      and no statement below depends on that order.
    - [completion_pct] is an IEEE-754 binary64 number, computed with the
      kernel's primitive floats exactly as the source computes it.

    The second part of the file embeds the code around these functions:
    [parse_document], the batch loop of [process_documents], the icon and
    the document names of [_generate_status_message], the question
    answering of [SimpleRAGSystem] and [answer_question], and
    [ADGMRAGSystem] of [rag_system.py].  Files, [python-docx] and the clock
    are outside the embedding: a file is given by what [python-docx] reads
    from it. *)

From Stdlib Require Import ZArith QArith Ascii String List Bool Lia.
From Stdlib Require Import Uint63 PrimFloat SpecFloat FloatOps.
From stdpp Require Import base decidable list gmap strings.

Local Open Scope string_scope.
Local Open Scope list_scope.

(** ** Python strings *)

Module PyStr.

(** A character of ASCII. *)
Definition is_ascii_char (c : ascii) : bool := (nat_of_ascii c <? 128)%nat.

(** [s.isascii()] *)
Fixpoint is_ascii (s : string) : bool :=
  match s with
  | EmptyString => true
  | String c s' => is_ascii_char c && is_ascii s'
  end.

(** [c.lower()] for one ASCII character. *)
Definition lower_ascii (c : ascii) : ascii :=
  let n := nat_of_ascii c in
  if (65 <=? n)%nat && (n <=? 90)%nat then ascii_of_nat (n + 32) else c.

(** [s.lower()].  U+0130 is the bytes 196 176 and its lower case, [i] and
    U+0307, the bytes 105 204 135; U+212A is the bytes 226 132 170. *)
Fixpoint lower (s : string) : string :=
  match s with
  | EmptyString => EmptyString
  | String c s1 =>
      match s1 with
      | EmptyString => String (lower_ascii c) EmptyString
      | String c1 s2 =>
          if Ascii.eqb c "196" && Ascii.eqb c1 "176"
          then String "i" (String "204" (String "135" (lower s2)))
          else
            match s2 with
            | EmptyString => String (lower_ascii c) (lower s1)
            | String c2 s3 =>
                if Ascii.eqb c "226" && Ascii.eqb c1 "132" && Ascii.eqb c2 "170"
                then String "k" (lower s3)
                else String (lower_ascii c) (lower s1)
            end
      end
  end.

(** [t.startswith(p)] *)
Fixpoint startswith (p t : string) : bool :=
  match p, t with
  | EmptyString, _ => true
  | String _ _, EmptyString => false
  | String a p', String b t' => if Ascii.eqb a b then startswith p' t' else false
  end.

(** [p in t] for two strings: [p] occurs in [t] at some offset. *)
Fixpoint contains (p t : string) : bool :=
  startswith p t ||
  match t with
  | EmptyString => false
  | String _ t' => contains p t'
  end.

(** The specification of [in]: [t] splits around an occurrence of [p]. *)
Definition occurs (p t : string) : Prop :=
  exists pre post : string, t = pre +:+ p +:+ post.

(** [kw] occurs in [text] when case is ignored; every keyword of the
    catalogs is already lower-case, so only the text is folded. *)
Definition occurs_ci (kw text : string) : Prop := occurs kw (lower text).

End PyStr.

(** ** The fragment of Python's [re] used by the red-flag catalog

    The catalog's patterns are built from literal text, [.*], [_+], negative
    lookahead [(?!...)] and the inline flag [(?i)].  [search] decides whether
    a match exists at some offset, which is what [re.search] is tested for
    in the source. *)

Module PyRe.

Inductive atom : Type :=
| Chr (c : ascii)       (* one literal character *)
| Dot.                  (* [.]: any character but a newline *)

Inductive regex : Type :=
| Lit (s : string)              (* a run of literal characters *)
| Star (a : atom)               (* [a*] *)
| Plus (a : atom)               (* [a+] *)
| Seq (r1 r2 : regex)           (* [r1 r2] *)
| NegLookahead (r : regex).     (* [(?!r)] *)

(** A compiled pattern: the source text of the pattern, whether it starts
    with [(?i)], and its syntax tree. *)
Record pattern : Type := Pattern {
  source : string;
  ignorecase : bool;
  body : regex
}.

Definition newline : ascii := "010"%char.

(** The character [a] of a pattern against the byte [b] of the text; under
    [(?i)] the two letters of ASCII that differ by case are equal. *)
Definition chr_eq (ic : bool) (a b : ascii) : bool :=
  if ic then Ascii.eqb (PyStr.lower_ascii a) (PyStr.lower_ascii b)
  else Ascii.eqb a b.

(** One step of a repetition.  [.] takes any character but a newline, byte
    by byte: no byte of a character outside ASCII is a newline.  The only
    character that the catalog repeats is [_], which has one case. *)
Definition atom_ok (ic : bool) (a : atom) (c : ascii) : bool :=
  match a with
  | Chr x => chr_eq ic x c
  | Dot => negb (Ascii.eqb c newline)
  end.

(** [t] without its prefix [p], when [p] is a prefix of [t]. *)
Fixpoint strip_prefix (p t : string) : option string :=
  match p, t with
  | EmptyString, _ => Some t
  | String _ _, EmptyString => None
  | String a p', String b t' => if Ascii.eqb a b then strip_prefix p' t' else None
  end.

(** The characters outside ASCII that the letter [a] of a pattern matches
    under [(?i)]: U+0130 (bytes 196 176) and U+0131 (196 177) for [i],
    U+017F (197 191) for [s], U+212A (226 132 170) for [k]. *)
Definition wide_forms (a : ascii) : list string :=
  let l := PyStr.lower_ascii a in
  if Ascii.eqb l "i"
  then [String "196" (String "176" ""); String "196" (String "177" "")]
  else if Ascii.eqb l "s" then [String "197" (String "191" "")]
  else if Ascii.eqb l "k" then [String "226" (String "132" (String "170" ""))]
  else [].

(** The rest of [t] after a character of [wide_forms a] at its front. *)
Definition wide_rest (a : ascii) (t : string) : option string :=
  fold_right
    (fun w r => match strip_prefix w t with Some t' => Some t' | None => r end)
    None (wide_forms a).

(** Match the literal [p] at the front of [t]; the rest of [t] on success. *)
Fixpoint lit_match (ic : bool) (p t : string) : option string :=
  match p, t with
  | EmptyString, _ => Some t
  | String _ _, EmptyString => None
  | String a p', String b t' =>
      if chr_eq ic a b then lit_match ic p' t'
      else if ic then
        match wide_rest a t with
        | Some r => lit_match ic p' r
        | None => None
        end
      else None
  end.

(** [a*] then the continuation [k], longest repetition first. *)
Fixpoint star_match (ok : ascii -> bool) (k : string -> bool) (t : string) : bool :=
  match t with
  | String c t' => (ok c && star_match ok k t') || k t
  | EmptyString => k t
  end.

(** Backtracking match of [r] at the front of [t], then [k] on the rest. *)
Fixpoint match_at (ic : bool) (r : regex) (t : string) (k : string -> bool) : bool :=
  match r with
  | Lit s =>
      match lit_match ic s t with
      | Some t' => k t'
      | None => false
      end
  | Star a => star_match (atom_ok ic a) k t
  | Plus a =>
      match t with
      | String c t' => atom_ok ic a c && star_match (atom_ok ic a) k t'
      | EmptyString => false
      end
  | Seq r1 r2 => match_at ic r1 t (fun t' => match_at ic r2 t' k)
  | NegLookahead r' => negb (match_at ic r' t (fun _ => true)) && k t
  end.

Fixpoint search_from (ic : bool) (r : regex) (t : string) : bool :=
  match_at ic r t (fun _ => true) ||
  match t with
  | EmptyString => false
  | String _ t' => search_from ic r t'
  end.

(** [bool(re.search(pattern, t))] *)
Definition search (p : pattern) (t : string) : bool :=
  search_from (ignorecase p) (body p) t.

End PyRe.

(** ** Document records *)

(** The keys of a parsed document that the analysis reads.  Each is read
    with [dict.get] and a default, so each may be absent. *)
Record doc_info : Type := DocInfo {
  file_name : option string;
  text_content : option string;
  document_type : option string
}.

(** ** Document classifier ([_identify_document_type]) *)

Module Classifier.

(** The [patterns] dict, in its declared order. *)
Definition patterns : list (string * list string) :=
  [ ("articles_of_association",
      ["articles of association"; "company regulations"; "share capital";
       "director powers"]);
    ("board_resolution",
      ["board resolution"; "resolved that"; "directors resolve";
       "board of directors"]);
    ("ubo_declaration",
      ["ultimate beneficial owner"; "ubo declaration";
       "beneficial ownership"; "25%"]);
    ("employment_contract",
      ["employment contract"; "terms of employment"; "employee"; "employer";
       "salary"]);
    ("incorporation_form",
      ["incorporation"; "application for registration";
       "company registration"]) ].

(** [sum(1 for keyword in keywords if keyword in text_lower)] *)
Definition score (keywords : list string) (text_lower : string) : Z :=
  fold_right Z.add 0%Z
    (map (fun _ => 1%Z)
         (List.filter (fun keyword => PyStr.contains keyword text_lower) keywords)).

(** One turn of the scoring loop: [scores[doc_type] = score] when
    [score > 0].  The keys of [patterns] are distinct, so the assignment
    adds a new last entry. *)
Definition score_step (text_lower : string) (scores : list (string * Z))
    (entry : string * list string) : list (string * Z) :=
  let '(doc_type, keywords) := entry in
  let score := score keywords text_lower in
  if (score >? 0)%Z then scores ++ [(doc_type, score)] else scores.

Definition build_scores (text_lower : string) : list (string * Z) :=
  fold_left (score_step text_lower) patterns [].

(** [scores.get(k)]; [None] is never met for a key of [scores]. *)
Definition scores_get (scores : list (string * Z)) (k : string) : Z :=
  match List.find (fun e => String.eqb (fst e) k) scores with
  | Some e => snd e
  | None => 0%Z
  end.

(** The loop of the builtin [max(iterable, key=...)]: the running maximum is
    replaced only by a strictly greater key. *)
Fixpoint py_max_from {A : Type} (key : A -> Z) (best : A) (l : list A) : A :=
  match l with
  | [] => best
  | x :: l' => py_max_from key (if (key x >? key best)%Z then x else best) l'
  end.

Definition _identify_document_type (text_content : string) : string :=
  let text_lower := PyStr.lower text_content in
  let scores := build_scores text_lower in
  match map fst scores with
  | [] => "unknown"
  | k :: ks => py_max_from (scores_get scores) k ks
  end.

(** [parse_document], once the paragraphs of the file have been joined into
    [text_content]: the record carries the classifier's answer. *)
Definition parse_document (file_name text_content : string) : doc_info :=
  {| file_name := Some file_name;
     text_content := Some text_content;
     document_type := Some (_identify_document_type text_content) |}.

End Classifier.

(** ** Red-flag scanner ([SimpleValidator]) *)

Module Validator.

Import PyRe.

(** One entry of [red_flag_patterns]. *)
Record rule : Type := Rule {
  patterns : list pattern;
  severity : string;
  message : string
}.

(** One emitted red flag (keys ['type'], ['severity'], ['message'],
    ['suggestion']). *)
Record red_flag : Type := RedFlag {
  rf_type : string;
  rf_severity : string;
  rf_message : string;
  rf_suggestion : string
}.

(** The result of [validate_document]. *)
Record validation : Type := Validation {
  v_document_name : string;
  v_document_type : string;
  red_flags : list red_flag;
  v_overall_status : string
}.

Definition any_then (s : string) : regex := Seq (Star Dot) (Lit s).

(** [self.red_flag_patterns], in its declared order. *)
Definition red_flag_patterns : list (string * rule) :=
  [ ("jurisdiction_issues",
      {| patterns :=
           [ Pattern "uae federal court" false (Lit "uae federal court");
             Pattern "dubai court" false (Lit "dubai court");
             Pattern "abu dhabi court(?!.*global market)" false
               (Seq (Lit "abu dhabi court")
                    (NegLookahead (any_then "global market")));
             Pattern "federal law" false (Lit "federal law");
             Pattern "emirates law" false (Lit "emirates law") ];
         severity := "high";
         message := "Incorrect jurisdiction - should reference ADGM Courts" |});
    ("missing_adgm_reference",
      {| patterns :=
           [ Pattern "(?i)governing law(?!.*adgm)(?!.*abu dhabi global market)"
               true
               (Seq (Lit "governing law")
                    (Seq (NegLookahead (any_then "adgm"))
                         (NegLookahead (any_then "abu dhabi global market")))) ];
         severity := "high";
         message := "Missing ADGM governing law reference" |});
    ("incomplete_signatures",
      {| patterns :=
           [ Pattern "signature.*blank" false
               (Seq (Lit "signature") (any_then "blank"));
             Pattern "\[signature\]" false (Lit "[signature]");
             Pattern "sign here" false (Lit "sign here");
             Pattern "_+.*signature" false
               (Seq (Plus (Chr "_")) (any_then "signature")) ];
         severity := "medium";
         message := "Incomplete signature sections found" |}) ].

(** The flag appended for a matching pattern of the rule [flag_type]. *)
Definition rule_flag (flag_type : string) (config : rule) : red_flag :=
  {| rf_type := flag_type;
     rf_severity := severity config;
     rf_message := message config;
     rf_suggestion := "Review and correct this issue" |}.

(** The flag of the check that follows the table. *)
Definition adgm_reference_flag : red_flag :=
  {| rf_type := "missing_adgm_reference";
     rf_severity := "high";
     rf_message := "Document does not reference ADGM or Abu Dhabi Global Market";
     rf_suggestion := "Add proper ADGM governing law clause" |}.

(** The inner loop: one [red_flags.append] per matching pattern. *)
Definition scan_patterns (text_lower : string) (flag_type : string)
    (config : rule) (red_flags : list red_flag) : list red_flag :=
  fold_left
    (fun acc pattern =>
       if search pattern text_lower
       then acc ++ [rule_flag flag_type config]
       else acc)
    (patterns config) red_flags.

(** The outer loop over [self.red_flag_patterns.items()]. *)
Definition scan_rules (text_lower : string) (table : list (string * rule))
    : list red_flag :=
  fold_left
    (fun acc entry => scan_patterns text_lower (fst entry) (snd entry) acc)
    table [].

(** ['adgm' not in text_lower and 'abu dhabi global market' not in text_lower] *)
Definition lacks_adgm_reference (text_lower : string) : bool :=
  negb (PyStr.contains "adgm" text_lower)
  && negb (PyStr.contains "abu dhabi global market" text_lower).

(** The red flags of a text: the table's flags, then the reference check. *)
Definition scan (text_content : string) : list red_flag :=
  let text_lower := PyStr.lower text_content in
  let red_flags := scan_rules text_lower red_flag_patterns in
  if lacks_adgm_reference text_lower
  then red_flags ++ [adgm_reference_flag]
  else red_flags.

Definition is_nonempty {A : Type} (l : list A) : bool :=
  match l with [] => false | _ :: _ => true end.

Definition validate_document (doc : doc_info) : validation :=
  let text_content := default "" (text_content doc) in
  let red_flags := scan text_content in
  {| v_document_name := default "Unknown" (file_name doc);
     v_document_type := default "unknown" (document_type doc);
     red_flags := red_flags;
     v_overall_status :=
       if is_nonempty red_flags then "requires_attention" else "compliant" |}.

End Validator.

(** ** Completeness and status ([SimpleComplianceChecker]) *)

Module Compliance.

Import Validator.

Record process : Type := Process {
  name : string;
  required_docs : list string
}.

(** [self.process_requirements] *)
Definition process_requirements : list (string * process) :=
  [ ("company_incorporation",
      {| name := "Company Incorporation";
         required_docs :=
           [ "articles_of_association"; "board_resolution";
             "incorporation_form"; "ubo_declaration";
             "register_members_directors" ] |}) ].

(** [self.process_requirements[key]['required_docs']]; the key read by the
    source is in the table. *)
Definition required_docs_of (key : string) : list string :=
  match List.find (fun e => String.eqb (fst e) key) process_requirements with
  | Some e => required_docs (snd e)
  | None => []
  end.

Record completeness_block : Type := Completeness {
  documents_uploaded : Z;
  required_documents : Z;
  present_documents : list string;
  missing_documents : list string;
  completion_percentage : float
}.

Record issues_block : Type := Issues {
  total_red_flags : Z;
  high_severity : Z
}.

Record compliance_report : Type := Report {
  process_type : string;
  process_name : string;
  overall_status : string;
  completeness : completeness_block;
  issues_summary : issues_block;
  recommendations : list string
}.

(** [len(l)] *)
Definition len {A : Type} (l : list A) : Z := Z.of_nat (length l).

(** [a / b] on two small non-negative integers, as a binary64 number. *)
Definition truediv (a b : Z) : float :=
  PrimFloat.div (PrimFloat.of_uint63 (Uint63.of_Z a))
                (PrimFloat.of_uint63 (Uint63.of_Z b)).

(** The set comprehension over the documents, then [discard('unknown')]. *)
Definition observed_types (documents : list doc_info) : gset string :=
  list_to_set (map (fun doc => default "unknown" (document_type doc)) documents)
  ∖ {["unknown"]}.

Definition signal_types : list string :=
  ["articles_of_association"; "board_resolution"; "ubo_declaration"].

(** "Identify process": process type, process name and required documents. *)
Definition select_process (doc_types : gset string)
    : string * string * list string :=
  if existsb (fun dtype => existsb (String.eqb dtype) signal_types)
             (elements doc_types)
  then ("company_incorporation", "Company Incorporation",
        required_docs_of "company_incorporation")
  else ("general_review", "General Document Review", []).

(** "Check completeness": present, missing and completion percentage. *)
Definition check_completeness (required_docs : list string)
    (doc_types : gset string) : list string * list string * float :=
  if is_nonempty required_docs then
    let present_docs :=
      List.filter (fun doc => bool_decide (doc ∈ doc_types)) required_docs in
    let missing_docs :=
      List.filter (fun doc => negb (bool_decide (doc ∈ doc_types))) required_docs in
    (present_docs, missing_docs,
     PrimFloat.mul (truediv (len present_docs) (len required_docs)) 100%float)
  else (elements doc_types, [], 100%float).

(** "Count issues" *)
Definition count_red_flags (validations : list validation) : Z :=
  fold_right Z.add 0%Z (map (fun v => len (red_flags v)) validations).

Definition count_high (validations : list validation) : Z :=
  fold_right Z.add 0%Z
    (map (fun _ => 1%Z)
       (List.filter (fun rf => String.eqb (rf_severity rf) "high")
          (concat (map red_flags validations)))).

(** "Determine status" *)
Definition determine_status (completion_pct : float) (high_issues : Z)
    (missing_docs : list string) : string :=
  if PrimFloat.ltb completion_pct 60%float then "incomplete"
  else if (high_issues >? 2)%Z then "major_issues"
  else if (high_issues >? 0)%Z || is_nonempty missing_docs
       then "requires_attention"
  else "ready_for_submission".

Definition generate_compliance_report (documents : list doc_info)
    (validations : list validation) : compliance_report :=
  let doc_types := observed_types documents in
  let '(process_type, process_name, required_docs) := select_process doc_types in
  let '(present_docs, missing_docs, completion_pct) :=
    check_completeness required_docs doc_types in
  let total_red_flags := count_red_flags validations in
  let high_issues := count_high validations in
  let status := determine_status completion_pct high_issues missing_docs in
  {| process_type := process_type;
     process_name := process_name;
     overall_status := status;
     completeness :=
       {| documents_uploaded := len documents;
          required_documents := len required_docs;
          present_documents := present_docs;
          missing_documents := missing_docs;
          completion_percentage := completion_pct |};
     issues_summary :=
       {| total_red_flags := total_red_flags; high_severity := high_issues |};
     recommendations :=
       [ "Review flagged issues and make necessary corrections";
         "Ensure all required documents are provided";
         "Verify ADGM compliance before submission" ] |}.

(** The front of the missing list shown by [_generate_status_message]:
    [missing[:3]]. *)
Definition shown_missing (report : compliance_report) : list string :=
  take 3 (missing_documents (completeness report)).

(** The exact rational value of a finite binary64 number. *)
Definition float_value (f : float) : option Q :=
  match Prim2SF f with
  | S754_zero _ => Some 0%Q
  | S754_finite s m e =>
      Some ((if s then -1 else 1) * inject_Z (Z.pos m) * Qpower 2 e)%Q
  | _ => None
  end.

End Compliance.

(** ** The specification's wording, and the vocabulary of the statements *)

Module Spec.

Import Validator.

(** "count of its configured keyword strings that occur as case-insensitive
    substrings of the input text" *)
Inductive keyword_count (text : string) : list string -> Z -> Prop :=
| count_nil : keyword_count text [] 0%Z
| count_hit kw kws n :
    PyStr.occurs_ci kw text ->
    keyword_count text kws n ->
    keyword_count text (kw :: kws) (n + 1)%Z
| count_miss kw kws n :
    ~ PyStr.occurs_ci kw text ->
    keyword_count text kws n ->
    keyword_count text (kw :: kws) n.

(** "for each rule, for each of its patterns, if the pattern matches
    anywhere in the text, emit one RedFlag for that rule" *)
Definition rule_flags (text_lower : string) (entry : string * rule)
    : list red_flag :=
  map (fun _ => rule_flag (fst entry) (snd entry))
      (List.filter (fun p => PyRe.search p text_lower) (patterns (snd entry))).

(** The expected output sequence: rules in catalog order, patterns in rule
    order, the regulator-reference flag last. *)
Definition expected_flags (text : string) : list red_flag :=
  let text_lower := PyStr.lower text in
  flat_map (rule_flags text_lower) red_flag_patterns
  ++ (if lacks_adgm_reference text_lower then [adgm_reference_flag] else []).

(** [l] lists its elements in the order in which [R] declares them. *)
Definition in_order_of (l R : list string) : Prop :=
  forall (i j : nat) (a b : string),
    (i < j)%nat -> l !! i = Some a -> l !! j = Some b ->
    exists i' j' : nat, (i' < j')%nat /\ R !! i' = Some a /\ R !! j' = Some b.

(** One catalog entry with its score on the lowered text [t]. *)
Definition scored (t : string) (entry : string * list string) : string * Z :=
  (fst entry, Classifier.score (snd entry) t).

(** The pattern of the table's own [missing_adgm_reference] rule, and the
    flag that rule emits. *)
Definition governing_law_pattern : PyRe.pattern :=
  PyRe.Pattern "(?i)governing law(?!.*adgm)(?!.*abu dhabi global market)" true
    (PyRe.Seq (PyRe.Lit "governing law")
       (PyRe.Seq (PyRe.NegLookahead (any_then "adgm"))
          (PyRe.NegLookahead (any_then "abu dhabi global market")))).

Definition governing_law_flag : red_flag :=
  {| rf_type := "missing_adgm_reference";
     rf_severity := "high";
     rf_message := "Missing ADGM governing law reference";
     rf_suggestion := "Review and correct this issue" |}.

(** The flag of the [jurisdiction_issues] rule. *)
Definition jurisdiction_flag : red_flag :=
  {| rf_type := "jurisdiction_issues";
     rf_severity := "high";
     rf_message := "Incorrect jurisdiction - should reference ADGM Courts";
     rf_suggestion := "Review and correct this issue" |}.

(** The binary64 number [f] is finite and its value is the rational [q]. *)
Definition is_exactly (f : float) (q : Q) : Prop :=
  exists q' : Q, Compliance.float_value f = Some q' /\ (q' == q)%Q.

(** The four statuses of a compliance report. *)
Definition statuses : list string :=
  ["incomplete"; "major_issues"; "requires_attention"; "ready_for_submission"].

(** The required documents of the company-incorporation profile. *)
Definition incorporation_docs : list string :=
  [ "articles_of_association"; "board_resolution"; "incorporation_form";
    "ubo_declaration"; "register_members_directors" ].

(** Some signal type of the company-incorporation process was observed. *)
Definition has_signal (obs : gset string) : bool :=
  bool_decide ("articles_of_association" ∈ obs)
  || bool_decide ("board_resolution" ∈ obs)
  || bool_decide ("ubo_declaration" ∈ obs).

(** The percentage computed for [k] present documents out of five. *)
Definition pct5 (k : nat) : float :=
  PrimFloat.mul (Compliance.truediv (Z.of_nat k) 5) 100%float.

End Spec.

(** ** More of Python's [str], [os.path] *)

Module PyText.

(** [c.isspace()] for an ASCII character: tab to carriage return, the four
    separators 28 to 31, and the space. *)
Definition is_space (c : ascii) : bool :=
  let n := nat_of_ascii c in
  ((9 <=? n)%nat && (n <=? 13)%nat) || ((28 <=? n)%nat && (n <=? 32)%nat).

Definition is_upper (c : ascii) : bool :=
  let n := nat_of_ascii c in (65 <=? n)%nat && (n <=? 90)%nat.

Definition is_lower (c : ascii) : bool :=
  let n := nat_of_ascii c in (97 <=? n)%nat && (n <=? 122)%nat.

(** [c.upper()] for one ASCII character. *)
Definition upper_ascii (c : ascii) : ascii :=
  if is_lower c then ascii_of_nat (nat_of_ascii c - 32) else c.

Definition is_empty (s : string) : bool :=
  match s with EmptyString => true | String _ _ => false end.

(** A byte that continues a character outside ASCII: codes 128 to 191. *)
Definition is_continuation (c : ascii) : bool :=
  let n := nat_of_ascii c in (128 <=? n)%nat && (n <=? 191)%nat.

Definition starts_with_continuation (s : string) : bool :=
  match s with
  | EmptyString => false
  | String c _ => is_continuation c
  end.

(** The characters of a text: a byte of ASCII is a character; a byte
    outside ASCII is a character together with the continuation bytes that
    follow it. *)
Fixpoint chars (s : string) : list string :=
  match s with
  | EmptyString => []
  | String c s' =>
      match chars s' with
      | [] => [String c ""]
      | g :: gs =>
          if negb (PyStr.is_ascii_char c) && starts_with_continuation s'
          then String c g :: gs
          else String c "" :: g :: gs
      end
  end.

(** [len(s)] *)
Definition char_count (s : string) : nat := length (chars s).

(** The white space outside ASCII, in UTF-8: U+0085, U+00A0, U+1680,
    U+2000 to U+200A, U+2028, U+2029, U+202F, U+205F and U+3000. *)
Definition wide_spaces : list string :=
  map (fun codes => string_of_list_ascii (map ascii_of_nat codes))
    [ [194; 133]; [194; 160]; [225; 154; 128];
      [226; 128; 128]; [226; 128; 129]; [226; 128; 130]; [226; 128; 131];
      [226; 128; 132]; [226; 128; 133]; [226; 128; 134]; [226; 128; 135];
      [226; 128; 136]; [226; 128; 137]; [226; 128; 138];
      [226; 128; 168]; [226; 128; 169]; [226; 128; 175];
      [226; 129; 159]; [227; 128; 128] ]%nat.

(** [g.isspace()] for one character. *)
Definition is_space_char (g : string) : bool :=
  match g with
  | String c EmptyString => is_space c
  | _ => existsb (String.eqb g) wide_spaces
  end.

Definition join_chars (l : list string) : string :=
  fold_right String.append "" l.

(** The characters left when the white space at the front is dropped. *)
Fixpoint lstrip_chars (l : list string) : list string :=
  match l with
  | [] => []
  | g :: l' => if is_space_char g then lstrip_chars l' else l
  end.

(** [s.lstrip()], [s.rstrip()], [s.strip()] *)
Definition lstrip (s : string) : string := join_chars (lstrip_chars (chars s)).

Definition rstrip (s : string) : string :=
  join_chars (rev (lstrip_chars (rev (chars s)))).

Definition strip (s : string) : string :=
  join_chars (rev (lstrip_chars (rev (lstrip_chars (chars s))))).

(** [s.split()]: the maximal runs of characters that are not white space.
    [cur] is the run being read. *)
Fixpoint split_go (l : list string) (cur : string) : list string :=
  match l with
  | [] => if is_empty cur then [] else [cur]
  | g :: l' =>
      if is_space_char g
      then (if is_empty cur then split_go l' "" else cur :: split_go l' "")
      else split_go l' (cur +:+ g)
  end.

Definition split (s : string) : list string := split_go (chars s) "".

(** [sep.join(l)] *)
Fixpoint join (sep : string) (l : list string) : string :=
  match l with
  | [] => ""
  | x :: l' =>
      match l' with
      | [] => x
      | _ :: _ => x +:+ sep +:+ join sep l'
      end
  end.

(** [s.replace(old, new)] for two one-character strings. *)
Fixpoint replace_char (old new : ascii) (s : string) : string :=
  match s with
  | EmptyString => EmptyString
  | String c s' =>
      String (if Ascii.eqb c old then new else c) (replace_char old new s')
  end.

(** [s.title()]: a letter is upper-cased after a character that is not a
    letter, and lower-cased after a letter. *)
Fixpoint title_go (previous_is_cased : bool) (s : string) : string :=
  match s with
  | EmptyString => EmptyString
  | String c s' =>
      if is_upper c || is_lower c
      then String (if previous_is_cased then PyStr.lower_ascii c
                   else upper_ascii c)
                  (title_go true s')
      else String c (title_go false s')
  end.

Definition title (s : string) : string := title_go false s.

(** [os.path.basename(p)] with [/] as separator: what follows the last
    separator.  [cur] is the component being read. *)
Fixpoint basename_go (p cur : string) : string :=
  match p with
  | EmptyString => cur
  | String c p' =>
      if Ascii.eqb c "/" then basename_go p' "" else basename_go p' (cur +:+ String c "")
  end.

Definition basename (p : string) : string := basename_go p "".

Definition newline_string : string := String PyRe.newline "".

End PyText.

(** ** The document parser ([parse_document]) *)

Module Parser.

(** What [python-docx] gives for a file it can open: the text of each
    paragraph, and the number of tables. *)
Record docx : Type := Docx {
  paragraphs : list string;
  tables : nat
}.

(** The dictionary built by [parse_document].  [info] holds the keys that
    the validator and the compliance checker read. *)
Record parsed_document : Type := Parsed {
  file_path : string;
  info : doc_info;
  word_count : Z;
  paragraph_count : Z;
  table_count : Z
}.

(** The paragraphs kept in [full_text]: those with [para.text.strip()]
    not empty. *)
Definition full_text (doc : docx) : list string :=
  List.filter (fun text => negb (PyText.is_empty (PyText.strip text)))
              (paragraphs doc).

(** [parse_document(file_path)]; [opened] is [None] when [Document(file_path)]
    raises, and the function then raises in its turn. *)
Definition parse_document (file_path : string) (opened : option docx)
    : option parsed_document :=
  match opened with
  | None => None
  | Some doc =>
      let text_content := PyText.join PyText.newline_string (full_text doc) in
      Some {| file_path := file_path;
              info := Classifier.parse_document (PyText.basename file_path)
                        text_content;
              word_count := Compliance.len (PyText.split text_content);
              paragraph_count := Compliance.len (full_text doc);
              table_count := Z.of_nat (tables doc) |}
  end.

End Parser.

(** ** The agent ([ADGMCorporateAgent]) *)

Module Agent.

(** An uploaded file: its name, and what [python-docx] reads from it. *)
Record upload : Type := Upload {
  name : string;
  content : option Parser.docx
}.

(** [analysis_results], without its time stamp. *)
Record analysis_results : Type := Results {
  documents_processed : Z;
  compliance_report : Compliance.compliance_report;
  document_analyses : list Validator.validation
}.

(** One turn of the loop over the files: a file that cannot be parsed is
    logged and skipped ([continue]). *)
Definition process_file
    (state : list Parser.parsed_document * list Validator.validation)
    (file : upload)
    : list Parser.parsed_document * list Validator.validation :=
  match Parser.parse_document (name file) (content file) with
  | Some parsed =>
      (fst state ++ [parsed],
       snd state ++ [Validator.validate_document (Parser.info parsed)])
  | None => state
  end.

Definition no_files_message : string :=
  "❌ No files uploaded. Please upload DOCX documents.".

(** [process_documents], up to the analysis results that the report files
    and the status message are made from. *)
Definition process_documents (files : list upload)
    : string + analysis_results :=
  match files with
  | [] => inl no_files_message
  | _ :: _ =>
      let '(uploaded_documents, document_analyses) :=
        fold_left process_file files ([], []) in
      inr {| documents_processed := Compliance.len uploaded_documents;
             compliance_report :=
               Compliance.generate_compliance_report
                 (map Parser.info uploaded_documents) document_analyses;
             document_analyses := document_analyses |}
  end.

(** [status_icons] and [status_icons.get(status, ...)] *)
Definition status_icons : list (string * string) :=
  [ ("ready_for_submission", "✅");
    ("requires_attention", "⚠️");
    ("major_issues", "❌");
    ("incomplete", "📋");
    ("completed", "📄") ].

Definition status_icon (status : string) : string :=
  match List.find (fun e => String.eqb (fst e) status) status_icons with
  | Some e => snd e
  | None => "📄"
  end.

(** [doc.replace('_', ' ').title()] *)
Definition display_name (doc : string) : string :=
  PyText.title (PyText.replace_char "_" " " doc).

(** The lines of the missing documents in the status message:
    one per document of [missing[:3]], joined by [chr(10)]. *)
Definition missing_lines (missing : list string) : string :=
  PyText.join PyText.newline_string
    (map (fun doc => "   • " +:+ display_name doc) (take 3 missing)).

End Agent.

(** ** Vocabulary of the further properties *)

Module Terms.

(** Every character of [s] is white space. *)
Definition all_space (s : string) : bool :=
  forallb PyText.is_space_char (PyText.chars s).

(** The text up to its first newline. *)
Fixpoint first_line (s : string) : string :=
  match s with
  | EmptyString => EmptyString
  | String c s' =>
      if Ascii.eqb c PyRe.newline then EmptyString else String c (first_line s')
  end.

(** No character of [s] is a newline. *)
Fixpoint one_line (s : string) : bool :=
  match s with
  | EmptyString => true
  | String c s' => negb (Ascii.eqb c PyRe.newline) && one_line s'
  end.

(** Every character of [s] is a character of ASCII other than an
    upper-case letter. *)
Fixpoint lowered (s : string) : bool :=
  match s with
  | EmptyString => true
  | String c s' =>
      PyStr.is_ascii_char c && Ascii.eqb (PyStr.lower_ascii c) c && lowered s'
  end.

(** [marker] occurs in [t], followed on the same line by text that
    satisfies [rest_ok]. *)
Definition occurs_before (marker t : string) (rest_ok : string -> Prop) : Prop :=
  exists pre rest : string,
    t = pre +:+ marker +:+ rest /\ rest_ok (first_line rest).

(** The flag of the [incomplete_signatures] rule. *)
Definition signature_flag : Validator.red_flag :=
  {| Validator.rf_type := "incomplete_signatures";
     Validator.rf_severity := "medium";
     Validator.rf_message := "Incomplete signature sections found";
     Validator.rf_suggestion := "Review and correct this issue" |}.

(** The flags that a scan can emit. *)
Definition possible_flags : list Validator.red_flag :=
  [ Spec.jurisdiction_flag; Spec.governing_law_flag; signature_flag;
    Validator.adgm_reference_flag ].

(** The number of flags of category [category] in [flags]. *)
Definition count_category (category : string)
    (flags : list Validator.red_flag) : nat :=
  length (List.filter (fun f => String.eqb (Validator.rf_type f) category) flags).

(** The values that a completion percentage can take. *)
Definition percentages : list float :=
  [20%float; 40%float; 60%float; 80%float; 100%float].

(** The files of a batch that could be parsed, in upload order. *)
Definition parsed_files (files : list Agent.upload)
    : list Parser.parsed_document :=
  omap (fun file => Parser.parse_document (Agent.name file) (Agent.content file))
       files.

(** The analysis of a parsed document. *)
Definition validation_of (parsed : Parser.parsed_document)
    : Validator.validation :=
  Validator.validate_document (Parser.info parsed).

(** The sum of a list of integers. *)
Definition sum_Z (l : list Z) : Z := fold_right Z.add 0%Z l.

(** An identifier made of lower-case letters and underscores. *)
Fixpoint is_identifier (s : string) : bool :=
  match s with
  | EmptyString => true
  | String c s' =>
      (PyText.is_lower c || Ascii.eqb c "_") && is_identifier s'
  end.

End Terms.

(** ** Lower-case patterns *)

Module Lowered.

Definition atom_lowered (a : PyRe.atom) : Prop :=
  match a with
  | PyRe.Chr c => PyStr.lower_ascii c = c
  | PyRe.Dot => True
  end.

(** Every literal character of the pattern is a character of ASCII other
    than an upper-case letter. *)
Fixpoint regex_lowered (r : PyRe.regex) : Prop :=
  match r with
  | PyRe.Lit s => Terms.lowered s = true
  | PyRe.Star a => atom_lowered a
  | PyRe.Plus a => atom_lowered a
  | PyRe.Seq r1 r2 => regex_lowered r1 /\ regex_lowered r2
  | PyRe.NegLookahead r' => regex_lowered r'
  end.

End Lowered.

(** ** The question answering of [app_simple.py] ([SimpleRAGSystem]) *)

Module SimpleRAG.

(** The double quote character, as a string. *)
Definition dq : string := String (ascii_of_nat 34) "".

(** [self.knowledge], in its declared order. *)
Definition knowledge_incorporation : string :=
  "ADGM company incorporation requires:
            1. Articles of Association - company structure and governance
            2. Board Resolution - shareholders' decisions  
            3. Incorporation Application Form - official registration
            4. UBO Declaration - beneficial owners with 25%+ ownership
            5. Register of Members and Directors - company officers listing
            
            All documents must reference ADGM jurisdiction and law.".

Definition knowledge_jurisdiction : string :=
  "ADGM documents must specify ADGM jurisdiction:
            
            ✅ CORRECT: " +:+ dq +:+ "Governed by ADGM law and subject to ADGM Courts" +:+ dq +:+ "
            ❌ INCORRECT: References to UAE Federal Courts or Dubai Courts
            
            ADGM has separate legal framework from UAE federal law.".

Definition knowledge_ubo : string :=
  "UBO declarations must include:
            - Individuals with 25%+ ownership or control
            - Complete personal details and addresses
            - Passport copies for all nationalities
            - Signed accuracy confirmations".

Definition knowledge_employment : string :=
  "ADGM employment contracts must include:
            - Job title, duties, reporting structure
            - Salary, benefits, payment terms
            - Working hours (max 48 hours/week)  
            - Annual leave (min 30 days)
            - Probation period (max 6 months)
            - ADGM-compliant termination procedures".

Definition knowledge : list (string * string) :=
  [ ("incorporation", knowledge_incorporation);
    ("jurisdiction", knowledge_jurisdiction);
    ("ubo", knowledge_ubo);
    ("employment", knowledge_employment) ].

Definition default_prefix : string :=
  "I understand you're asking about: " +:+ dq.

Definition default_suffix : string :=
  dq +:+ "

Here are key ADGM requirements:

🏛️ **Jurisdiction**: Documents must reference ADGM Courts and ADGM law
📋 **Incorporation**: Requires Articles, Board Resolution, UBO Declaration, and other documents  
👥 **UBO**: Declare individuals with 25%+ ownership
💼 **Employment**: Use ADGM-compliant contract terms

For specific guidance, please consult ADGM official resources or legal professionals.".

Definition note : string :=
  "
💡 **Note**: This is guidance only. Consult legal professionals for official advice.".

Definition nl : string := PyText.newline_string.

(** [self.knowledge[key]]; every key read by the source is in the table. *)
Definition knowledge_get (key : string) : string :=
  match List.find (fun e => String.eqb (fst e) key) knowledge with
  | Some e => snd e
  | None => ""
  end.

(** [any(word in query_lower for word in words)] *)
Definition any_in (words : list string) (query_lower : string) : bool :=
  existsb (fun word => PyStr.contains word query_lower) words.

(** The part appended for a topic by the first loop. *)
Definition topic_section (topic content : string) : string :=
  "**" +:+ PyText.title topic +:+ " Information:**" +:+ nl +:+ nl
  +:+ content +:+ nl +:+ nl.

(** "Find relevant knowledge": the loop over [self.knowledge.items()]. *)
Definition topic_parts (query_lower : string) : list string :=
  fold_left
    (fun response_parts entry =>
       if any_in (PyText.split (fst entry)) query_lower
       then response_parts ++ [topic_section (fst entry) (snd entry)]
       else response_parts)
    knowledge [].

(** One of the four checks "for specific keywords": the guard looks for the
    key itself among the parts. *)
Definition keyword_check (words : list string) (key : string)
    (query_lower : string) (response_parts : list string) : list string :=
  if any_in words query_lower
  then (if negb (existsb (String.eqb key) response_parts)
        then response_parts ++ [knowledge_get key]
        else response_parts)
  else response_parts.

Definition incorporation_words : list string :=
  ["incorporation"; "incorporate"; "company"].
Definition jurisdiction_words : list string := ["jurisdiction"; "court"; "law"].
Definition ubo_words : list string := ["ubo"; "beneficial"; "owner"].
Definition employment_words : list string :=
  ["employment"; "contract"; "employee"].

Definition response_parts (query : string) : list string :=
  let query_lower := PyStr.lower query in
  let parts := topic_parts query_lower in
  let parts := keyword_check incorporation_words "incorporation" query_lower parts in
  let parts := keyword_check jurisdiction_words "jurisdiction" query_lower parts in
  let parts := keyword_check ubo_words "ubo" query_lower parts in
  keyword_check employment_words "employment" query_lower parts.

Definition default_response (query : string) : string :=
  default_prefix +:+ query +:+ default_suffix.

Definition generate_response (query context : string) : string :=
  let parts := response_parts query in
  if Validator.is_nonempty parts
  then "Based on ADGM regulations:" +:+ nl +:+ nl +:+ PyText.join nl parts
       +:+ note
  else default_response query.

Definition empty_question_message : string :=
  "Please enter a question about ADGM requirements.".

(** [ADGMCorporateAgent.answer_question] *)
Definition answer_question (question context : string) : string :=
  if PyText.is_empty (PyText.strip question)
  then empty_question_message
  else generate_response question context.

(** The words that make the system answer from its knowledge. *)
Definition trigger_words : list string :=
  incorporation_words ++ jurisdiction_words ++ ubo_words ++ employment_words.

End SimpleRAG.

(** ** The question answering of [rag_system.py] ([ADGMRAGSystem]) *)

Module RAG.

Definition dq : string := String (ascii_of_nat 34) "".

Record entry : Type := Entry {
  id : string;
  title : string;
  content : string;
  category : string
}.

Definition content_adgm_001 : string :=
  "ADGM company incorporation requires these mandatory documents:
                1. Articles of Association - defining company structure and governance
                2. Board Resolution - incorporating shareholders' decisions
                3. Incorporation Application Form - official registration application
                4. UBO Declaration Form - declaring beneficial owners with 25%+ ownership
                5. Register of Members and Directors - listing company officers
                
                Per ADGM Companies Regulations 2020, all companies must have properly 
                structured Articles of Association with consecutive paragraph numbering.".

Definition content_adgm_002 : string :=
  "ADGM documents must specify ADGM jurisdiction and governing law:
                
                ✅ CORRECT: " +:+ dq +:+ "This agreement shall be governed by ADGM law and subject 
                to the exclusive jurisdiction of ADGM Courts." +:+ dq +:+ "
                
                ❌ INCORRECT: References to UAE Federal Courts, Dubai Courts, or 
                Abu Dhabi Courts (outside ADGM context) are non-compliant.
                
                ADGM has its own legal framework separate from UAE federal law.".

Definition content_adgm_003 : string :=
  "Ultimate Beneficial Owner (UBO) declarations must include:
                
                - Any individual owning 25% or more of company shares
                - Natural persons with ultimate control over the entity
                - Complete personal details and current address
                - Passport copies for all current and previous nationalities
                - Signed declaration confirming accuracy of information
                
                Failure to properly declare UBOs violates ADGM beneficial ownership regulations.".

Definition content_adgm_004 : string :=
  "ADGM employment contracts must include:
                
                - Clear job title, duties, and reporting structure
                - Salary, benefits, and payment terms
                - Working hours (maximum 48 hours per week)
                - Annual leave entitlement (minimum 30 days)
                - Probationary period (maximum 6 months)
                - Termination procedures compliant with ADGM Employment Regulations
                - Confidentiality and non-compete clauses where appropriate
                
                Use ADGM Standard Employment Contract Template 2024.".

Definition content_adgm_005 : string :=
  "ADGM Board Resolutions must follow proper format:
                
                1. Company name and registration details
                2. Date and location of meeting/resolution
                3. Directors present or consenting
                4. Clear resolution language: " +:+ dq +:+ "IT IS HEREBY RESOLVED THAT..." +:+ dq +:+ "
                5. Specific actions authorized with full details
                6. Proper signatures of authorizing directors
                7. Corporate seal if applicable
                
                Template resolutions available on ADGM Registration Authority website.".

(** [self.knowledge_base] *)
Definition knowledge_base : list entry :=
  [ Entry "adgm_001" "Company Incorporation Requirements" content_adgm_001 "incorporation";
    Entry "adgm_002" "Jurisdiction and Governing Law" content_adgm_002 "jurisdiction";
    Entry "adgm_003" "UBO Declaration Requirements" content_adgm_003 "ubo";
    Entry "adgm_004" "Employment Contract Standards" content_adgm_004 "employment";
    Entry "adgm_005" "Board Resolution Format" content_adgm_005 "resolutions" ].

Definition default_prefix : string :=
  "I understand you're asking about: " +:+ dq.

Definition default_suffix : string :=
  dq +:+ "

While I don't have specific information matching your query, here are some general ADGM guidance points:

🏛️ **ADGM Jurisdiction**: Always ensure documents reference ADGM Courts and ADGM law, not UAE Federal Courts.

📋 **Company Incorporation**: Requires Articles of Association, Board Resolution, UBO Declaration, Incorporation Form, and Register of Members/Directors.

👥 **UBO Requirements**: Declare any individual with 25%+ ownership or control.

💼 **Employment**: Use ADGM Standard Employment Contract templates.

⚖️ **Legal Compliance**: All documents must comply with ADGM-specific regulations and templates.

For detailed guidance on your specific question, please consult ADGM official resources or qualified legal professionals.".

Definition nl : string := PyText.newline_string.

(** The words of the query that are looked for: those of more than three
    characters. *)
Definition keywords (query_lower : string) : list string :=
  List.filter (fun keyword => (3 <? PyText.char_count keyword)%nat)
              (PyText.split query_lower).

(** The condition under which an entry is relevant to the query. *)
Definition is_relevant (query_lower : string) (e : entry) : bool :=
  let content_lower := PyStr.lower (content e) in
  let title_lower := PyStr.lower (title e) in
  existsb (fun keyword => PyStr.contains keyword content_lower
                          || PyStr.contains keyword title_lower)
          (keywords query_lower).

Definition relevant_entries (query : string) : list entry :=
  List.filter (is_relevant (PyStr.lower query)) knowledge_base.

Definition _default_response (query : string) : string :=
  default_prefix +:+ query +:+ default_suffix.

(** What the loop over [relevant_entries[:2]] adds to the response for one
    entry. *)
Definition add_entry (response : string) (e : entry) : string :=
  ((response +:+ ("**" +:+ title e +:+ "**" +:+ nl +:+ nl))
   +:+ (content e +:+ nl +:+ nl))
  +:+ ("---" +:+ nl +:+ nl).

Definition generate_response (query context : string) : string :=
  let relevant_entries := relevant_entries query in
  if negb (Validator.is_nonempty relevant_entries)
  then _default_response query
  else
    let response :=
      "Based on ADGM regulations, here's what you need to know:" +:+ nl +:+ nl in
    let response := fold_left add_entry (take 2 relevant_entries) response in
    (response +:+ "💡 **Note**: This guidance is based on ADGM regulations. ")
    +:+ "Always consult qualified legal professionals for official advice.".

Definition type_keywords : list (string * list string) :=
  [ ("articles_of_association", ["incorporation"; "company"]);
    ("board_resolution", ["resolutions"; "board"]);
    ("ubo_declaration", ["ubo"; "beneficial"]);
    ("employment_contract", ["employment"; "contract"]) ].

(** [type_keywords.get(document_type, [])] *)
Definition type_keywords_get (document_type : string) : list string :=
  match List.find (fun e => String.eqb (fst e) document_type) type_keywords with
  | Some e => snd e
  | None => []
  end.

Definition get_relevant_knowledge (document_type : string) : list entry :=
  let keywords := type_keywords_get document_type in
  List.filter
    (fun e => existsb (fun keyword => PyStr.contains keyword (PyStr.lower (content e)))
                      keywords)
    knowledge_base.

End RAG.

(** * Properties *)

Import PyStr Classifier Validator Compliance Spec.

(** ** Strings *)

Lemma startswith_spec (p t : string) :
  startswith p t = true <-> exists post : string, t = p +:+ post.
Proof.
  revert t; induction p as [|a p IH]; intros t; simpl.
  - split; [intros _; exists t; reflexivity | reflexivity].
  - destruct t as [|b t].
    + split; [discriminate | intros [post H]; discriminate].
    + destruct (Ascii.eqb_spec a b) as [->|Hne].
      * rewrite IH. split; intros [post H]; exists post.
        -- now rewrite H.
        -- now injection H.
      * split; [discriminate | intros [post H]; injection H; congruence].
Qed.

Lemma contains_spec (p t : string) : contains p t = true <-> occurs p t.
Proof.
  unfold occurs. split.
  - induction t as [|c t IH]; simpl; rewrite orb_true_iff.
    + intros [H|H]; [|discriminate].
      apply startswith_spec in H as [post H]. exists "", post. exact H.
    + intros [H|H].
      * apply startswith_spec in H as [post H]. exists "", post. exact H.
      * destruct (IH H) as (pre & post & ->). exists (String c pre), post.
        reflexivity.
  - intros (pre & post & ->). induction pre as [|c pre IH].
    + assert (H : startswith p (p +:+ post) = true)
        by (apply startswith_spec; eauto).
      simpl. destruct (p +:+ post); simpl; simpl in H; rewrite H; reflexivity.
    + simpl. simpl in IH. rewrite IH. apply orb_true_r.
Qed.

Lemma contains_false (p t : string) : contains p t = false <-> ~ occurs p t.
Proof.
  rewrite <- contains_spec. destruct (contains p t); split; congruence.
Qed.

Lemma append_nil_l (s : string) : "" +:+ s = s.
Proof. reflexivity. Qed.

Lemma append_cons (c : ascii) (a b : string) :
  String c a +:+ b = String c (a +:+ b).
Proof. reflexivity. Qed.

Lemma append_assoc (a b c : string) : (a +:+ b) +:+ c = a +:+ (b +:+ c).
Proof.
  induction a as [|x a IH]; [reflexivity|].
  rewrite !append_cons. now rewrite IH.
Qed.

(** A character of ASCII starts none of the byte sequences that [lower]
    and [(?i)] treat as one character. *)
Lemma ascii_char_narrow (c : ascii) :
  is_ascii_char c = true ->
  Ascii.eqb c "196" = false /\ Ascii.eqb c "226" = false /\
  Ascii.eqb "196" c = false /\ Ascii.eqb "197" c = false /\
  Ascii.eqb "226" c = false.
Proof.
  destruct c as [[] [] [] [] [] [] [] []]; intros H;
    try discriminate H; repeat split; reflexivity.
Qed.

(** On a character of ASCII, [lower] is [lower_ascii]. *)
Lemma lower_cons (c : ascii) (s : string) :
  is_ascii_char c = true ->
  lower (String c s) = String (lower_ascii c) (lower s).
Proof.
  intros Hc. destruct (ascii_char_narrow c Hc) as (H1 & H2 & _).
  destruct s as [|c1 [|c2 s3]]; cbn [lower]; rewrite ?H1, ?H2; reflexivity.
Qed.

Lemma lower_app (a b : string) :
  is_ascii a = true -> lower (a +:+ b) = lower a +:+ lower b.
Proof.
  induction a as [|c a IH]; intros Ha; [reflexivity|].
  cbn [is_ascii] in Ha. apply andb_true_iff in Ha as [Hc Ha].
  rewrite append_cons, !lower_cons, append_cons by exact Hc.
  now rewrite IH.
Qed.

Lemma lower_ascii_ascii (c : ascii) :
  is_ascii_char c = true ->
  is_ascii_char (lower_ascii c) = true /\
  Ascii.eqb (lower_ascii (lower_ascii c)) (lower_ascii c) = true.
Proof.
  destruct c as [[] [] [] [] [] [] [] []]; intros H;
    try discriminate H; split; reflexivity.
Qed.

(** The lower case of an ASCII text is ASCII without upper-case letters. *)
Lemma lowered_lower (s : string) :
  is_ascii s = true -> Terms.lowered (lower s) = true.
Proof.
  induction s as [|c s IH]; intros Hs; [reflexivity|].
  cbn [is_ascii] in Hs. apply andb_true_iff in Hs as [Hc Hs].
  rewrite lower_cons by exact Hc. cbn [Terms.lowered].
  destruct (lower_ascii_ascii c Hc) as [-> ->]. now apply IH.
Qed.

(** ** Classifier *)

Section MaxByKey.
Context {A : Type} (key : A -> Z).

(** The builtin [max] returns the first element whose key is maximal. *)
Lemma py_max_from_split (best : A) (l : list A) :
  exists l1 l2 : list A,
    best :: l = l1 ++ py_max_from key best l :: l2 /\
    Forall (fun x => (key x < key (py_max_from key best l))%Z) l1 /\
    Forall (fun x => (key x <= key (py_max_from key best l))%Z) l2.
Proof.
  revert best; induction l as [|x l IH]; intros best; simpl.
  - exists [], []. repeat split; constructor.
  - destruct (Z.gtb_spec (key x) (key best)) as [Hgt|Hle].
    + destruct (IH x) as (l1 & l2 & Heq & H1 & H2).
      exists (best :: l1), l2. repeat split; [simpl; f_equal; exact Heq | | exact H2].
      constructor; [|exact H1].
      assert (Hx : (key x <= key (py_max_from key x l))%Z).
      { destruct l1 as [|y l1]; simpl in Heq.
        - injection Heq as Hy _. rewrite <- Hy. lia.
        - injection Heq as Hy _. subst y.
          apply Forall_inv in H1. cbv beta in H1. lia. }
      lia.
    + destruct (IH best) as (l1 & l2 & Heq & H1 & H2).
      destruct l1 as [|y l1]; simpl in Heq.
      * injection Heq as Hb Hl. exists [], (x :: l2).
        repeat split.
        -- simpl. f_equal; [exact Hb|]. f_equal. exact Hl.
        -- constructor.
        -- constructor; [rewrite <- Hb; lia | exact H2].
      * injection Heq as Hy Hl. subst y.
        exists (best :: x :: l1), l2. repeat split.
        -- simpl. do 2 f_equal. exact Hl.
        -- pose proof (Forall_inv H1) as Hb. cbv beta in Hb.
           constructor; [exact Hb|]. constructor; [lia|].
           now apply Forall_inv_tail in H1.
        -- exact H2.
Qed.
End MaxByKey.

Lemma filter_split_inv {A : Type} (P : A -> bool) (l l1 l2 : list A) (x : A) :
  List.filter P l = l1 ++ x :: l2 ->
  exists m1 m2 : list A,
    l = m1 ++ x :: m2 /\ List.filter P m1 = l1 /\ List.filter P m2 = l2.
Proof.
  revert l1; induction l as [|a l IH]; intros l1 H; simpl in H.
  - destruct l1; discriminate.
  - destruct (P a) eqn:Ha.
    + destruct l1 as [|b l1]; simpl in H; injection H as Hab Hl.
      * subst a. exists [], l. auto.
      * subst b. destruct (IH _ Hl) as (m1 & m2 & -> & H1 & H2).
        exists (a :: m1), m2. simpl. rewrite Ha, H1. auto.
    + destruct (IH _ H) as (m1 & m2 & -> & H1 & H2).
      exists (a :: m1), m2. simpl. rewrite Ha. auto.
Qed.

Lemma filter_nil_inv {A : Type} (P : A -> bool) (l : list A) :
  List.filter P l = [] -> Forall (fun x => P x = false) l.
Proof.
  induction l as [|a l IH]; simpl; [constructor|].
  destruct (P a) eqn:Ha; [discriminate|]. intros H. constructor; auto.
Qed.

(** The score of a keyword list, with the text already lowered. *)
Lemma score_cons (kw : string) (kws : list string) (t : string) :
  score (kw :: kws) t
  = ((if contains kw t then 1 else 0) + score kws t)%Z.
Proof. unfold score. simpl. destruct (contains kw t); reflexivity. Qed.

Lemma score_nonneg (kws : list string) (t : string) : (0 <= score kws t)%Z.
Proof.
  induction kws as [|kw kws IH]; [unfold score; simpl; lia|].
  rewrite score_cons. destruct (contains kw t); lia.
Qed.

Lemma score_counts (text : string) (kws : list string) :
  Spec.keyword_count text kws (score kws (lower text)).
Proof.
  induction kws as [|kw kws IH]; [constructor|].
  rewrite score_cons. destruct (contains kw (lower text)) eqn:Hc.
  - replace (1 + score kws (lower text))%Z with (score kws (lower text) + 1)%Z
      by lia.
    apply Spec.count_hit; [now apply contains_spec | exact IH].
  - apply Spec.count_miss; [now apply contains_false | exact IH].
Qed.

Lemma keyword_count_functional (text : string) (kws : list string) (n m : Z) :
  Spec.keyword_count text kws n -> Spec.keyword_count text kws m -> n = m.
Proof.
  intros Hn; revert m; induction Hn; intros m Hm; inversion Hm; subst;
    try reflexivity; try contradiction.
  - f_equal. auto.
  - auto.
Qed.

Lemma score_loop (t : string) (cat : list (string * list string))
    (acc : list (string * Z)) :
  fold_left (score_step t) cat acc
  = acc ++ List.filter (fun e => (snd e >? 0)%Z) (map (scored t) cat).
Proof.
  revert acc; induction cat as [|[ty kws] cat IH]; intros acc; simpl.
  - now rewrite app_nil_r.
  - rewrite IH. destruct (score kws t >? 0)%Z; [|reflexivity].
    now rewrite <- app_assoc.
Qed.

Lemma build_scores_filter (t : string) :
  build_scores t
  = List.filter (fun e => (snd e >? 0)%Z) (map (scored t) Classifier.patterns).
Proof. unfold build_scores. now rewrite score_loop. Qed.

Lemma scores_get_first (scores : list (string * Z)) (e : string * Z) :
  In e scores -> NoDup (map fst scores) -> scores_get scores (fst e) = snd e.
Proof.
  unfold scores_get. induction scores as [|a scores IH]; [intros []|].
  intros Hin Hnd. simpl. apply NoDup_cons in Hnd as [Hnotin Hnd'].
  destruct (String.eqb_spec (fst a) (fst e)) as [Heq|Hne].
  - destruct Hin as [->|Hin]; [reflexivity|].
    exfalso. apply Hnotin. rewrite Heq. apply list_elem_of_In.
    now apply in_map.
  - destruct Hin as [->|Hin]; [congruence|]. now apply IH.
Qed.

Lemma filter_keys_NoDup {A B : Type} (P : A * B -> bool) (l : list (A * B)) :
  NoDup (map fst l) -> NoDup (map fst (List.filter P l)).
Proof.
  induction l as [|a l IH]; simpl; [auto|].
  intros Hnd. apply NoDup_cons in Hnd as [Hnotin Hnd].
  destruct (P a); [|auto]. simpl. apply NoDup_cons. split; [|auto].
  intros Hin. apply Hnotin. apply list_elem_of_In in Hin.
  apply list_elem_of_In. apply in_map_iff in Hin as (e & He & Hin).
  apply filter_In in Hin as [Hin _]. rewrite <- He. now apply in_map.
Qed.

Lemma build_scores_keys_NoDup (t : string) : NoDup (map fst (build_scores t)).
Proof.
  rewrite build_scores_filter. apply filter_keys_NoDup.
  rewrite map_map. simpl. apply NoDup_ListNoDup.
  repeat (constructor; [simpl; intuition discriminate|]). constructor.
Qed.

(** Entries of the catalog on one side of the winner compare with it as the
    kept entries on that side do; an entry that was dropped scored 0. *)
Lemma side_scores (t : string) (rel : Z -> Z -> Prop) (top : Z)
    (scores : list (string * Z)) (side : list (string * list string))
    (kept : list string) :
  (forall a, (a <= 0)%Z -> rel a top) ->
  (0 < top)%Z ->
  NoDup (map fst scores) ->
  (forall e, In e (List.filter (fun e => (snd e >? 0)%Z) (map (scored t) side))
             -> In e scores) ->
  map fst (List.filter (fun e => (snd e >? 0)%Z) (map (scored t) side)) = kept ->
  Forall (fun x => rel (scores_get scores x) top) kept ->
  Forall (fun e => rel (score (snd e) t) top) side.
Proof.
  intros Hlow Htop Hnd Hsub Hkept Hall. apply Forall_forall. intros e He.
  cbv beta. apply list_elem_of_In in He.
  destruct (Z.gtb_spec (score (snd e) t) 0) as [Hpos|Hle]; [|now apply Hlow].
  assert (Hin : In (scored t e)
                  (List.filter (fun e => (snd e >? 0)%Z) (map (scored t) side))).
  { apply filter_In. split; [now apply in_map|]. simpl. now apply Z.gtb_lt. }
  rewrite Forall_forall in Hall.
  specialize (Hall (fst (scored t e))).
  rewrite (scores_get_first scores (scored t e)) in Hall by auto.
  apply Hall. apply list_elem_of_In. rewrite <- Hkept. now apply in_map.
Qed.

(** C2: the classifier scores every type of the catalog by the number of
    its keywords that occur in the text when case is ignored, drops the
    types that score 0, answers [unknown] when none is left, and otherwise
    answers the type of highest score, the earliest one of the catalog's
    declared order among those that share the highest score. *)
Theorem identify_document_type_spec (text : string) :
  let t := lower text in
  let r := _identify_document_type text in
  map fst Classifier.patterns
  = [ "articles_of_association"; "board_resolution"; "ubo_declaration";
      "employment_contract"; "incorporation_form" ] /\
  Forall (fun e => Spec.keyword_count text (snd e) (score (snd e) t))
         Classifier.patterns /\
  ((r = "unknown" /\
    Forall (fun e => score (snd e) t = 0%Z) Classifier.patterns)
   \/
   (exists before ty kws after,
      Classifier.patterns = before ++ (ty, kws) :: after /\
      r = ty /\
      (0 < score kws t)%Z /\
      Forall (fun e => (score (snd e) t < score kws t)%Z) before /\
      Forall (fun e => (score (snd e) t <= score kws t)%Z) after)).
Proof.
  intros t r. split; [reflexivity|]. split.
  { apply Forall_forall. intros e _. apply score_counts. }
  subst r. unfold _identify_document_type. fold t.
  pose proof (build_scores_keys_NoDup t) as Hnd.
  pose proof (build_scores_filter t) as Hf.
  pose proof Hf as Hf0.
  set (scores := build_scores t) in *.
  destruct (map fst scores) as [|k ks] eqn:Hk.
  - left. split; [reflexivity|].
    apply map_eq_nil in Hk. rewrite Hk in Hf. symmetry in Hf.
    apply filter_nil_inv in Hf. rewrite Forall_map in Hf.
    eapply Forall_impl; [exact Hf|]. intros e He. simpl in He.
    pose proof (score_nonneg (snd e) t).
    destruct (Z.gtb_spec (score (snd e) t) 0); [discriminate|lia].
  - right. rewrite <- Hk in Hnd.
    destruct (py_max_from_split (scores_get scores) k ks)
      as (l1 & l2 & Heq & H1 & H2).
    set (w := py_max_from (scores_get scores) k ks) in *.
    rewrite <- Hk in Heq.
    apply map_eq_app in Heq as (s1 & s2' & Hs & Hs1 & Hs2).
    apply map_eq_cons in Hs2 as (e & s2 & -> & He & Hs2).
    rewrite Hs in Hf. symmetry in Hf.
    apply filter_split_inv in Hf as (m1 & m2 & Hm & Hm1 & Hm2).
    apply map_eq_app in Hm as (p1 & p2' & Hp & Hp1 & Hp2).
    apply map_eq_cons in Hp2 as (p & p2 & -> & Hpe & Hp2).
    destruct p as [ty kws]. unfold scored in Hpe. simpl in Hpe.
    assert (Hine : In e scores) by (rewrite Hs; apply in_elt).
    assert (Hw : scores_get scores w = score kws t).
    { rewrite <- He. rewrite (scores_get_first scores e Hine Hnd).
      now rewrite <- Hpe. }
    assert (Hpos : (0 < score kws t)%Z).
    { pose proof Hine as Hin. rewrite Hf0 in Hin.
      apply filter_In in Hin as [_ Hin]. rewrite <- Hpe in Hin. simpl in Hin.
      now apply Z.gtb_lt. }
    exists p1, ty, kws, p2. split; [exact Hp|]. split; [now rewrite <- He, <- Hpe|].
    split; [exact Hpos|]. rewrite Hw in H1, H2. split.
    + apply (side_scores t Z.lt (score kws t) scores p1 l1); auto; try lia.
      * intros x Hx. rewrite Hs. apply in_or_app. left.
        rewrite Hp1, Hm1 in Hx. exact Hx.
      * now rewrite Hp1, Hm1.
    + apply (side_scores t Z.le (score kws t) scores p2 l2); auto; try lia.
      * intros x Hx. rewrite Hs. apply in_or_app. right. right.
        rewrite Hp2, Hm2 in Hx. exact Hx.
      * now rewrite Hp2, Hm2.
Qed.

Lemma identify_document_type_spec_witness :
  let text := "Board Resolution: it was RESOLVED THAT the company" in
  _identify_document_type text = "board_resolution" /\
  Spec.keyword_count text
    ["board resolution"; "resolved that"; "directors resolve";
     "board of directors"] 2.
Proof.
  intros text.
  destruct (identify_document_type_spec text) as (_ & Hcount & Hresult).
  cbv zeta in Hcount, Hresult. split.
  - destruct Hresult
      as [[_ Hall]|(before & ty & kws & after & Hp & -> & Hpos & _ & _)].
    + apply Forall_inv_tail, Forall_inv in Hall. vm_compute in Hall.
      discriminate Hall.
    + unfold Classifier.patterns in Hp.
      destruct before as [|b0 [|b1 [|b2 [|b3 [|b4 before]]]]];
        cbn [app] in Hp; injection Hp; intros; subst;
        try reflexivity; try (vm_compute in Hpos; discriminate Hpos).
      destruct before; discriminate.
  - apply Forall_inv_tail, Forall_inv in Hcount. vm_compute in Hcount.
    exact Hcount.
Defined.

(** The classifier on sample texts: two keywords of one type; a tie between
    two types, settled by the catalog's order; no keyword at all. *)
Example identify_board_resolution :
  _identify_document_type "Board Resolution: it was RESOLVED THAT the company"
  = "board_resolution".
Proof. vm_compute. reflexivity. Qed.

Example identify_tie_takes_earliest :
  _identify_document_type "the employee asked the board of directors"
  = "board_resolution" /\
  _identify_document_type "share capital approved by board resolution"
  = "articles_of_association".
Proof. split; vm_compute; reflexivity. Qed.

Example identify_unknown :
  _identify_document_type "Minutes of the annual picnic" = "unknown".
Proof. vm_compute. reflexivity. Qed.

(** ** Red-flag scanner *)

Lemma scan_patterns_app (t flag_type : string) (config : rule)
    (acc : list red_flag) :
  scan_patterns t flag_type config acc
  = acc ++ Spec.rule_flags t (flag_type, config).
Proof.
  unfold scan_patterns, Spec.rule_flags. simpl.
  generalize (Validator.patterns config) as ps.
  intros ps; revert acc; induction ps as [|p ps IH]; intros acc; simpl.
  - now rewrite app_nil_r.
  - rewrite IH. destruct (PyRe.search p t); [|reflexivity].
    simpl. now rewrite <- app_assoc.
Qed.

Lemma scan_rules_flat_map (t : string) (table : list (string * rule)) :
  scan_rules t table = flat_map (Spec.rule_flags t) table.
Proof.
  unfold scan_rules.
  enough (H : forall acc,
             fold_left
               (fun acc entry => scan_patterns t (fst entry) (snd entry) acc)
               table acc
             = acc ++ flat_map (Spec.rule_flags t) table) by apply (H []).
  induction table as [|[ty cfg] table IH]; intros acc; simpl.
  - now rewrite app_nil_r.
  - rewrite IH, scan_patterns_app. now rewrite <- app_assoc.
Qed.

Lemma scan_expected (text : string) : scan text = Spec.expected_flags text.
Proof.
  unfold scan, Spec.expected_flags. rewrite scan_rules_flat_map.
  destruct (lacks_adgm_reference (lower text)); [reflexivity|].
  now rewrite app_nil_r.
Qed.

(** The scanner on sample texts. *)
Example scan_dubai_court :
  scan "Disputes are heard by the Dubai Court."
  = [jurisdiction_flag; adgm_reference_flag] /\
  scan "Under ADGM rules, disputes are heard by the Dubai Court."
  = [jurisdiction_flag].
Proof. split; vm_compute; reflexivity. Qed.

Example scan_lookahead_stays_on_the_line :
  scan "abu dhabi court of the abu dhabi global market" = [] /\
  scan ("an abu dhabi court" +:+ String PyRe.newline "of the abu dhabi global market")
  = [jurisdiction_flag].
Proof. split; vm_compute; reflexivity. Qed.

(** Characters outside ASCII: the Kelvin sign is lowered to [k], so the
    regulator's name is found; the dotless [i] is a case of [i] under
    [(?i)], so the table's rule finds its "governing law". *)
Example scan_wide_characters :
  scan "Courts of the Abu Dhabi Global MarKet" = [] /\
  scan "ADGM.  Governıng law: to be agreed." = [governing_law_flag] /\
  lower "İ K" = "i̇ k".
Proof. repeat split; vm_compute; reflexivity. Qed.

(** Where a flag of the table comes from. *)
Lemma table_flag_origin (t : string) (table : list (string * rule))
    (f : red_flag) :
  In f (flat_map (Spec.rule_flags t) table) ->
  exists (entry : string * rule) (p : PyRe.pattern),
    In entry table /\ In p (Validator.patterns (snd entry)) /\
    PyRe.search p t = true /\ f = rule_flag (fst entry) (snd entry).
Proof.
  intros H. apply in_flat_map in H as (entry & Hentry & Hf).
  unfold Spec.rule_flags in Hf. apply in_map_iff in Hf as (p & Hp & Hin).
  apply filter_In in Hin as [Hin Hs]. exists entry, p. auto.
Qed.

Lemma lacks_adgm_reference_spec (text : string) :
  lacks_adgm_reference (lower text) = true
  <-> ~ occurs_ci "adgm" text /\ ~ occurs_ci "abu dhabi global market" text.
Proof.
  unfold lacks_adgm_reference, occurs_ci.
  rewrite andb_true_iff, !negb_true_iff, !contains_false. reflexivity.
Qed.

(** C3 (as amended): the flag of the standing check, of category
    [missing_adgm_reference] and severity [high], is emitted if and only if
    neither [adgm] nor [abu dhabi global market] occurs in the text when
    case is ignored.  The only other flag of that category is the flag of
    the table's rule of the same name, also of severity [high], emitted if
    and only if that rule's [governing law] pattern matches the lower-cased
    text. *)
Theorem adgm_reference_flag_iff (doc : doc_info) :
  let text := default "" (text_content doc) in
  let flags := red_flags (validate_document doc) in
  (In adgm_reference_flag flags
   <-> ~ occurs_ci "adgm" text /\ ~ occurs_ci "abu dhabi global market" text)
  /\ rf_type adgm_reference_flag = "missing_adgm_reference"
  /\ rf_severity adgm_reference_flag = "high"
  /\ (In governing_law_flag flags
      <-> PyRe.search governing_law_pattern (lower text) = true)
  /\ In ("missing_adgm_reference",
         Rule [governing_law_pattern] "high"
              "Missing ADGM governing law reference") red_flag_patterns
  /\ (forall f, In f flags -> rf_type f = "missing_adgm_reference" ->
        rf_severity f = "high" /\
        (f = adgm_reference_flag \/
         (f = governing_law_flag /\
          PyRe.search governing_law_pattern (lower text) = true))).
Proof.
  intros text flags. subst flags. simpl. fold text.
  rewrite scan_expected. unfold Spec.expected_flags.
  rewrite <- lacks_adgm_reference_spec.
  split; [|split; [reflexivity|split; [reflexivity|split; [|split]]]].
  - split.
    + intros H. apply in_app_or in H as [H|H].
      * apply table_flag_origin in H as (entry & p & _ & _ & _ & H).
        discriminate H.
      * destruct (lacks_adgm_reference (lower text)); [reflexivity|].
        destruct H.
    + intros ->. apply in_or_app. right. now left.
  - split.
    + intros H. apply in_app_or in H as [H|H].
      * apply table_flag_origin in H as (entry & p & Hentry & Hp & Hs & Hf).
        simpl in Hentry.
        destruct Hentry as [<-|[<-|[<-|[]]]]; try discriminate Hf.
        simpl in Hp. destruct Hp as [<-|[]]. exact Hs.
      * destruct (lacks_adgm_reference (lower text)); [|destruct H].
        destruct H as [H|[]]. discriminate H.
    + intros Hs. apply in_or_app. left. apply in_flat_map.
      exists ("missing_adgm_reference",
              Rule [governing_law_pattern] "high"
                   "Missing ADGM governing law reference").
      split; [simpl; tauto|].
      unfold Spec.rule_flags. apply in_map_iff.
      exists governing_law_pattern. split; [reflexivity|].
      apply filter_In. split; [now left | exact Hs].
  - simpl. tauto.
  - intros f H Hty. apply in_app_or in H as [H|H].
    + apply table_flag_origin in H as (entry & p & Hentry & Hp & Hs & ->).
      simpl in Hentry.
      destruct Hentry as [<-|[<-|[<-|[]]]]; try discriminate Hty.
      split; [reflexivity|]. right. split; [reflexivity|].
      simpl in Hp. destruct Hp as [<-|[]]. exact Hs.
    + destruct (lacks_adgm_reference (lower text)); [|destruct H].
      destruct H as [<-|[]]. split; [reflexivity|]. now left.
Qed.

Lemma adgm_reference_flag_iff_witness :
  let named := DocInfo (Some "lease.docx")
                 (Some "Seat: ABU DHABI GLOBAL MARKET.") None in
  let silent := DocInfo (Some "loan.docx")
                  (Some "Governıng Law: the laws of England.") None in
  ~ In adgm_reference_flag (red_flags (validate_document named)) /\
  In adgm_reference_flag (red_flags (validate_document silent)) /\
  In governing_law_flag (red_flags (validate_document silent)).
Proof.
  intros named silent.
  destruct (adgm_reference_flag_iff named) as (Hnamed & _).
  destruct (adgm_reference_flag_iff silent) as (Hsilent & _ & _ & Hrule & _).
  cbv zeta in Hnamed, Hsilent, Hrule. split; [|split].
  - intros H. apply Hnamed in H as [_ H]. apply H.
    apply contains_spec. vm_compute. reflexivity.
  - apply Hsilent. split; apply contains_false; vm_compute; reflexivity.
  - apply Hrule. vm_compute. reflexivity.
Defined.

(** C3 (as stated) fails: a text that names ADGM and then a governing law
    with no ADGM after it on the line gets a flag of category
    [missing_adgm_reference] from the table's rule of that name. *)
Lemma missing_adgm_reference_despite_adgm :
  let text := "This agreement is made in ADGM. The governing law shall be agreed later." in
  let doc := DocInfo (Some "agreement.docx") (Some text) (Some "unknown") in
  red_flags (validate_document doc) = [governing_law_flag] /\
  rf_type governing_law_flag = "missing_adgm_reference" /\
  occurs_ci "adgm" text /\
  ~ ((exists f, In f (red_flags (validate_document doc)) /\
                rf_type f = "missing_adgm_reference")
     <-> ~ occurs_ci "adgm" text /\
         ~ occurs_ci "abu dhabi global market" text).
Proof.
  intros text doc.
  assert (Hocc : occurs_ci "adgm" text)
    by (apply contains_spec; vm_compute; reflexivity).
  assert (Hflags : red_flags (validate_document doc) = [governing_law_flag])
    by (vm_compute; reflexivity).
  repeat split; auto.
  intros [H _]. rewrite Hflags in H.
  destruct H as [H _]; [|contradiction].
  exists governing_law_flag. split; [now left | reflexivity].
Qed.

(** C5: the red flags come out in evaluation order: the rules in the
    catalog's declared order, within a rule its patterns in declared order,
    one flag per matching pattern with no de-duplication, and the standing
    regulator-reference flag, when emitted, last. *)
Theorem red_flags_in_evaluation_order (doc : doc_info) :
  let text := default "" (text_content doc) in
  let t := lower text in
  red_flags (validate_document doc)
  = flat_map
      (fun entry =>
         map (fun _ => rule_flag (fst entry) (snd entry))
             (List.filter (fun p => PyRe.search p t)
                          (Validator.patterns (snd entry))))
      red_flag_patterns
    ++ (if lacks_adgm_reference t then [adgm_reference_flag] else [])
  /\ map fst red_flag_patterns
     = ["jurisdiction_issues"; "missing_adgm_reference";
        "incomplete_signatures"]
  /\ red_flags (validate_document
       (DocInfo None (Some "Disputes go to the Dubai Court under Federal Law.") None))
     = [jurisdiction_flag; jurisdiction_flag; adgm_reference_flag].
Proof.
  intros text t. split; [|split; [reflexivity | vm_compute; reflexivity]].
  simpl. fold text. rewrite scan_expected. reflexivity.
Qed.

(** C6: the status of a validation is [requires_attention] exactly when its
    red-flag sequence is not empty, and [compliant] otherwise. *)
Theorem overall_status_iff_red_flags (doc : doc_info) :
  let v := validate_document doc in
  (v_overall_status v = "requires_attention" <-> red_flags v <> [])
  /\ (v_overall_status v = "compliant" <-> red_flags v = []).
Proof.
  intros v. subst v. simpl.
  destruct (scan (default "" (text_content doc))) as [|f fs]; simpl.
  - split; split; congruence.
  - split; split; congruence.
Qed.

(** ** Completeness and status *)

Lemma select_process_signal (obs : gset string) :
  existsb (fun dtype => existsb (String.eqb dtype) signal_types) (elements obs)
  = has_signal obs.
Proof.
  apply Bool.eq_iff_eq_true. unfold has_signal.
  rewrite existsb_exists, !orb_true_iff, !bool_decide_eq_true. split.
  - intros (x & Hin & Hx). apply list_elem_of_In, elem_of_elements in Hin.
    simpl in Hx. rewrite !orb_true_iff in Hx.
    destruct Hx as [Hx|[Hx|[Hx|Hx]]]; try discriminate;
      apply String.eqb_eq in Hx; subst x; auto.
  - intros [[H|H]|H]; eexists;
      (split; [apply list_elem_of_In, elem_of_elements; exact H | reflexivity]).
Qed.

Lemma select_process_cases (obs : gset string) :
  select_process obs
  = if has_signal obs
    then ("company_incorporation", "Company Incorporation", incorporation_docs)
    else ("general_review", "General Document Review", []).
Proof. unfold select_process. now rewrite select_process_signal. Qed.

(** The report splits on the selected process. *)
Lemma report_cases (documents : list doc_info) (validations : list validation) :
  let obs := observed_types documents in
  let r := generate_compliance_report documents validations in
  let c := completeness r in
  overall_status r
  = determine_status (completion_percentage c) (count_high validations)
      (missing_documents c) /\
  ((has_signal obs = true /\
    snd (select_process obs) = incorporation_docs /\
    process_type r = "company_incorporation" /\
    required_documents c = 5%Z /\
    present_documents c
    = List.filter (fun d => bool_decide (d ∈ obs)) incorporation_docs /\
    missing_documents c
    = List.filter (fun d => negb (bool_decide (d ∈ obs))) incorporation_docs /\
    completion_percentage c = pct5 (length (present_documents c)))
   \/
   (has_signal obs = false /\
    snd (select_process obs) = [] /\
    process_type r = "general_review" /\
    required_documents c = 0%Z /\
    present_documents c = elements obs /\
    missing_documents c = [] /\
    completion_percentage c = 100%float)).
Proof.
  intros obs r c. subst c r. unfold generate_compliance_report. fold obs.
  rewrite select_process_cases. destruct (has_signal obs).
  - split; [reflexivity|]. left. repeat split; reflexivity.
  - split; [reflexivity|]. right. repeat split; reflexivity.
Qed.

Lemma observed_types_spec (documents : list doc_info) (x : string) :
  x ∈ observed_types documents
  <-> x <> "unknown" /\
      exists doc, In doc documents /\ default "unknown" (document_type doc) = x.
Proof.
  unfold observed_types.
  rewrite elem_of_difference, elem_of_list_to_set, list_elem_of_In, in_map_iff,
    elem_of_singleton.
  split.
  - intros [(doc & Hx & Hin) Hne]. eauto.
  - intros [Hne (doc & Hin & Hx)]. eauto.
Qed.

Lemma observed_types_app (documents : list doc_info) (doc : doc_info) :
  observed_types (documents ++ [doc])
  = observed_types documents
    ∪ ({[ default "unknown" (document_type doc) ]} ∖ {["unknown"]}).
Proof.
  unfold observed_types. rewrite map_app, list_to_set_app_L. simpl.
  apply set_eq. intros x.
  rewrite !elem_of_union, !elem_of_difference, !elem_of_union, elem_of_empty.
  tauto.
Qed.

Lemma has_signal_mono (obs obs' : gset string) :
  (forall x, x ∈ obs -> x ∈ obs') ->
  has_signal obs = true -> has_signal obs' = true.
Proof.
  unfold has_signal. rewrite !orb_true_iff, !bool_decide_eq_true.
  intros Hsub [[H|H]|H]; auto.
Qed.

(** Counting with two filters over the same list. *)
Lemma filter_length_le {A : Type} (f g : A -> bool) (l : list A) :
  (forall x, In x l -> f x = true -> g x = true) ->
  (length (List.filter f l) <= length (List.filter g l))%nat.
Proof.
  induction l as [|a l IH]; intros H; simpl; [lia|].
  assert (IH' := IH (fun x Hx => H x (or_intror Hx))).
  destruct (f a) eqn:Hf.
  - rewrite (H a (or_introl eq_refl) Hf). simpl. lia.
  - destruct (g a); simpl; lia.
Qed.

Lemma filter_length_lt {A : Type} (f g : A -> bool) (l : list A) (x : A) :
  (forall x, In x l -> f x = true -> g x = true) ->
  In x l -> f x = false -> g x = true ->
  (length (List.filter f l) < length (List.filter g l))%nat.
Proof.
  induction l as [|a l IH]; intros H Hin Hf Hg; [destruct Hin|].
  assert (Hle := filter_length_le f g l (fun y Hy => H y (or_intror Hy))).
  simpl. destruct Hin as [->|Hin].
  - rewrite Hf, Hg. simpl. lia.
  - assert (IH' := IH (fun y Hy => H y (or_intror Hy)) Hin Hf Hg).
    destruct (f a) eqn:Hfa.
    + rewrite (H a (or_introl eq_refl) Hfa). simpl. lia.
    + destruct (g a); simpl; lia.
Qed.

Lemma filter_length_bound {A : Type} (f : A -> bool) (l : list A) :
  (length (List.filter f l) <= length l)%nat.
Proof.
  induction l as [|a l IH]; simpl; [lia|]. destruct (f a); simpl; lia.
Qed.

(** The six values of the percentage, and their order. *)
Lemma pct5_le (k k' : nat) :
  (k <= k')%nat -> (k' <= 5)%nat ->
  PrimFloat.leb (pct5 k) (pct5 k') = true.
Proof.
  intros Hk Hk'.
  destruct k as [|[|[|[|[|[|k]]]]]]; try lia;
    destruct k' as [|[|[|[|[|[|k']]]]]]; try lia; vm_compute; reflexivity.
Qed.

Lemma pct5_lt (k k' : nat) :
  (k < k')%nat -> (k' <= 5)%nat ->
  PrimFloat.ltb (pct5 k) (pct5 k') = true.
Proof.
  intros Hk Hk'.
  destruct k as [|[|[|[|[|[|k]]]]]]; try lia;
    destruct k' as [|[|[|[|[|[|k']]]]]]; try lia; vm_compute; reflexivity.
Qed.

Lemma pct5_exact (k : nat) :
  (k <= 5)%nat ->
  is_exactly (pct5 k) (100 * inject_Z (Z.of_nat k) / inject_Z 5).
Proof.
  intros Hk. unfold is_exactly.
  destruct k as [|[|[|[|[|[|k]]]]]]; try lia;
    (eexists; split; [vm_compute; reflexivity | vm_compute; reflexivity]).
Qed.

Lemma filter_in_order (f : string -> bool) (R : list string) :
  in_order_of (List.filter f R) R.
Proof.
  unfold in_order_of. induction R as [|x R IH]; intros i j a b Hij Ha Hb.
  - destruct i; discriminate.
  - simpl in Ha, Hb. destruct (f x).
    + destruct j as [|j]; [lia|]. simpl in Hb. destruct i as [|i].
      * simpl in Ha. injection Ha as <-.
        apply list_elem_of_lookup_2, list_elem_of_In, filter_In in Hb as [Hb _].
        apply list_elem_of_In, list_elem_of_lookup_1 in Hb as [k Hk].
        exists 0%nat, (S k). repeat split; [lia | exact Hk].
      * simpl in Ha.
        destruct (IH i j a b ltac:(lia) Ha Hb) as (i' & j' & Hlt & Hi & Hj).
        exists (S i'), (S j'). repeat split; [lia | exact Hi | exact Hj].
    + destruct (IH i j a b Hij Ha Hb) as (i' & j' & Hlt & Hi & Hj).
      exists (S i'), (S j'). repeat split; [lia | exact Hi | exact Hj].
Qed.

Lemma incorporation_docs_known (t : string) :
  In t incorporation_docs -> t <> "unknown".
Proof. simpl. intros [<-|[<-|[<-|[<-|[<-|[]]]]]]; discriminate. Qed.

(** The classifier answers [unknown] or a key of its catalog. *)
Lemma identify_in_catalog (text : string) :
  _identify_document_type text = "unknown"
  \/ In (_identify_document_type text) (map fst Classifier.patterns).
Proof.
  unfold _identify_document_type.
  set (scores := build_scores (lower text)).
  destruct (map fst scores) as [|k ks] eqn:Hk; [now left|]. right.
  destruct (py_max_from_split (scores_get scores) k ks) as (l1 & l2 & Heq & _).
  assert (Hin : In (py_max_from (scores_get scores) k ks) (map fst scores))
    by (rewrite Hk, Heq; apply in_elt).
  revert Hin. generalize (py_max_from (scores_get scores) k ks) as w.
  intros w Hin. subst scores. rewrite build_scores_filter in Hin.
  apply in_map_iff in Hin as (e & He & Hin).
  apply filter_In in Hin as [Hin _].
  apply in_map_iff in Hin as (p & Hp & Hin).
  rewrite <- He, <- Hp. unfold scored. cbn [fst]. now apply in_map.
Qed.

Lemma determine_status_missing (c : float) (h : Z) (missing : list string) :
  missing <> [] -> determine_status c h missing <> "ready_for_submission".
Proof.
  intros Hm. unfold determine_status.
  destruct (PrimFloat.ltb c 60); [discriminate|].
  destruct (h >? 2)%Z; [discriminate|].
  destruct missing; [contradiction|]. simpl. rewrite orb_true_r. discriminate.
Qed.

(** C1: the status is one of the four statuses, chosen by the first rule
    that applies: completion below 60 gives [incomplete] whatever the other
    two counts are; otherwise more than two high-severity flags give
    [major_issues]; otherwise a high-severity flag or a missing document
    gives [requires_attention]; otherwise [ready_for_submission]. *)
Theorem status_first_match (completion_pct : float) (high_issues : Z)
    (missing_docs : list string) :
  let status := determine_status completion_pct high_issues missing_docs in
  let below := PrimFloat.ltb completion_pct 60%float in
  let missing_count := Z.of_nat (length missing_docs) in
  In status statuses /\
  (below = true -> status = "incomplete") /\
  (below = false -> (high_issues > 2)%Z -> status = "major_issues") /\
  (below = false -> (high_issues <= 2)%Z ->
     (high_issues > 0)%Z \/ (missing_count > 0)%Z ->
     status = "requires_attention") /\
  (below = false -> (high_issues <= 0)%Z -> missing_count = 0%Z ->
     status = "ready_for_submission").
Proof.
  intros status below missing_count. subst status below missing_count.
  unfold determine_status.
  destruct (PrimFloat.ltb completion_pct 60).
  { simpl. repeat split; auto; discriminate. }
  destruct (Z.gtb_spec high_issues 2) as [H2|H2].
  { simpl. repeat split; auto; try discriminate; lia. }
  destruct (Z.gtb_spec high_issues 0) as [H0|H0]; simpl.
  { repeat split; auto; try discriminate; lia. }
  destruct missing_docs as [|d ds]; simpl.
  - repeat split; auto 6; try discriminate; lia.
  - repeat split; auto; try discriminate; lia.
Qed.

Lemma status_first_match_witness :
  determine_status 40%float 3 [] = "incomplete" /\
  determine_status 80%float 3 [] = "major_issues" /\
  determine_status 80%float 0 ["register_members_directors"]
  = "requires_attention" /\
  determine_status 100%float 0 [] = "ready_for_submission".
Proof.
  split; [|split; [|split]].
  - apply (status_first_match 40%float 3 []). reflexivity.
  - apply (status_first_match 80%float 3 []); [reflexivity | lia].
  - apply (status_first_match 80%float 0 ["register_members_directors"]);
      [reflexivity | lia | right; simpl; lia].
  - apply (status_first_match 100%float 0 []); [reflexivity | lia | reflexivity].
Defined.

(** C4: with a non-empty requirement list [R], the present documents are the
    members of [R] that were observed, the missing ones are the members of
    [R] that were not, and the completion percentage is exactly
    100 * |present| / |R|; with an empty [R] the present documents are the
    observed types, none is missing and the percentage is 100.0.  For the
    observed types articles_of_association and board_resolution the
    company-incorporation profile (5 required types) gives 40.0 and misses
    incorporation_form, ubo_declaration and register_members_directors. *)
Theorem completeness_math (documents : list doc_info)
    (validations : list validation) :
  let observed := observed_types documents in
  let R := snd (select_process observed) in
  let c := completeness (generate_compliance_report documents validations) in
  (R <> [] ->
     (forall d, In d (present_documents c) <-> In d R /\ d ∈ observed) /\
     (forall d, In d (missing_documents c) <-> In d R /\ d ∉ observed) /\
     is_exactly (completion_percentage c)
       (100 * inject_Z (len (present_documents c)) / inject_Z (len R)))
  /\ (R = [] ->
        (forall d, In d (present_documents c) <-> d ∈ observed) /\
        missing_documents c = [] /\
        completion_percentage c = 100%float)
  /\ (observed = {[ "articles_of_association"; "board_resolution" ]} ->
        R = incorporation_docs /\
        required_documents c = 5%Z /\
        completion_percentage c = 40%float /\
        missing_documents c
        = [ "incorporation_form"; "ubo_declaration";
            "register_members_directors" ]).
Proof.
  intros observed R c.
  destruct (report_cases documents validations) as [_ Hcases].
  fold observed in Hcases. fold c in Hcases. fold R in Hcases.
  destruct Hcases as [(Hsig & HR & _ & Hreq & Hp & Hm & Hc)
                     |(Hsig & HR & _ & Hreq & Hp & Hm & Hc)].
  - split; [|split].
    + intros _. rewrite HR, Hc, Hp. repeat split.
      * apply filter_In in H as [H _]; exact H.
      * apply filter_In in H as [_ H]. now apply bool_decide_eq_true in H.
      * intros [H1 H2]. apply filter_In. split; [exact H1|].
        now apply bool_decide_eq_true.
      * rewrite Hm in H. apply filter_In in H as [H _]; exact H.
      * rewrite Hm in H. apply filter_In in H as [_ H].
        apply negb_true_iff, bool_decide_eq_false in H. exact H.
      * intros [H1 H2]. rewrite Hm. apply filter_In. split; [exact H1|].
        now apply negb_true_iff, bool_decide_eq_false.
      * unfold len. apply pct5_exact. apply filter_length_bound.
    + rewrite HR. discriminate.
    + intros Hobs. split; [exact HR|]. split; [exact Hreq|].
      rewrite Hc, Hm, Hp, Hobs. split; vm_compute; reflexivity.
  - split; [|split].
    + intros HR'. contradiction.
    + intros _. repeat split; try assumption.
      * rewrite Hp. intros H. now apply list_elem_of_In, elem_of_elements in H.
      * rewrite Hp. intros H. now apply list_elem_of_In, elem_of_elements.
    + intros Hobs. rewrite Hobs in Hsig. vm_compute in Hsig. discriminate.
Qed.

Lemma completeness_math_witness :
  let documents :=
    [ parse_document "articles.docx" "Articles of Association of the company";
      parse_document "resolution.docx" "Board Resolution: it is resolved that" ] in
  let c := completeness
             (generate_compliance_report documents
                (map validate_document documents)) in
  completion_percentage c = 40%float /\
  missing_documents c
  = ["incorporation_form"; "ubo_declaration"; "register_members_directors"].
Proof.
  intros documents c.
  destruct (completeness_math documents (map validate_document documents))
    as (_ & _ & H).
  destruct H as (_ & _ & Hc & Hm); [vm_compute; reflexivity|].
  split; [exact Hc | exact Hm].
Defined.

(** C8: the empty batch, with the empty list of validations, gives the
    general-review report: no required document, no uploaded document,
    completion 100.0, no red flag and the status [ready_for_submission]. *)
Theorem empty_batch_report :
  let r := generate_compliance_report [] [] in
  process_type r = "general_review" /\
  process_name r = "General Document Review" /\
  required_documents (completeness r) = 0%Z /\
  documents_uploaded (completeness r) = 0%Z /\
  present_documents (completeness r) = [] /\
  missing_documents (completeness r) = [] /\
  completion_percentage (completeness r) = 100%float /\
  total_red_flags (issues_summary r) = 0%Z /\
  high_severity (issues_summary r) = 0%Z /\
  overall_status r = "ready_for_submission".
Proof. vm_compute. repeat split; reflexivity. Qed.

(** C9: the missing documents of a report are the required documents that
    were not observed, in the order in which the requirement list declares
    them; the message shows the first three of that sequence. *)
Theorem missing_in_declared_order (documents : list doc_info)
    (validations : list validation) :
  let observed := observed_types documents in
  let R := snd (select_process observed) in
  let r := generate_compliance_report documents validations in
  let missing := missing_documents (completeness r) in
  missing = List.filter (fun d => negb (bool_decide (d ∈ observed))) R /\
  in_order_of missing R /\
  sublist missing R /\
  shown_missing r
  = take 3 (List.filter (fun d => negb (bool_decide (d ∈ observed))) R) /\
  (R <> [] -> R = incorporation_docs).
Proof.
  intros observed R r missing.
  assert (Hm : missing
               = List.filter (fun d => negb (bool_decide (d ∈ observed))) R).
  { destruct (report_cases documents validations) as [_ Hcases].
    fold observed in Hcases. fold r in Hcases. fold R in Hcases.
    fold missing in Hcases.
    destruct Hcases as [(_ & HR & _ & _ & _ & Hm & _)
                       |(_ & HR & _ & _ & _ & Hm & _)]; rewrite HR, Hm;
      reflexivity. }
  split; [exact Hm|]. split; [rewrite Hm; apply filter_in_order|].
  split; [|split].
  - rewrite Hm. generalize R as l. intros l.
    induction l as [|x l IH]; simpl; [constructor|].
    destruct (negb (bool_decide (x ∈ observed))); now constructor.
  - unfold shown_missing. fold r. fold missing. now rewrite Hm.
  - intros HR. subst R. rewrite select_process_cases in *.
    destruct (has_signal observed); [reflexivity | contradiction].
Qed.

Lemma missing_in_declared_order_witness :
  let documents :=
    [ parse_document "ubo.docx" "UBO Declaration of the ultimate beneficial owner" ] in
  let r := generate_compliance_report documents (map validate_document documents) in
  snd (select_process (observed_types documents)) = incorporation_docs /\
  missing_documents (completeness r)
  = [ "articles_of_association"; "board_resolution"; "incorporation_form";
      "register_members_directors" ] /\
  shown_missing r
  = [ "articles_of_association"; "board_resolution"; "incorporation_form" ].
Proof.
  intros documents r. subst r.
  destruct (missing_in_declared_order documents (map validate_document documents))
    as (Hm & _ & _ & Hs & HR).
  split; [apply HR; vm_compute; discriminate|].
  split; [rewrite Hm | rewrite Hs]; vm_compute; reflexivity.
Defined.

(** The completeness block as a function of the observed types. *)
Lemma completeness_by_observed (documents : list doc_info)
    (validations : list validation) :
  let obs := observed_types documents in
  let r := generate_compliance_report documents validations in
  let c := completeness r in
  process_type r
  = (if has_signal obs then "company_incorporation" else "general_review") /\
  present_documents c
  = (if has_signal obs
     then List.filter (fun d => bool_decide (d ∈ obs)) incorporation_docs
     else elements obs) /\
  missing_documents c
  = (if has_signal obs
     then List.filter (fun d => negb (bool_decide (d ∈ obs))) incorporation_docs
     else []) /\
  completion_percentage c
  = (if has_signal obs
     then pct5 (length (List.filter (fun d => bool_decide (d ∈ obs))
                          incorporation_docs))
     else 100%float).
Proof.
  intros obs r c.
  destruct (report_cases documents validations) as [_ Hcases].
  fold obs in Hcases. fold r in Hcases. fold c in Hcases.
  destruct Hcases as [(-> & _ & Ht & _ & Hp & Hm & Hc)
                     |(-> & _ & Ht & _ & Hp & Hm & Hc)].
  - rewrite Hc, Hp. auto.
  - auto.
Qed.

Lemma present_bound (obs : gset string) :
  (length (List.filter (fun d => bool_decide (d ∈ obs)) incorporation_docs)
   <= 5)%nat.
Proof. apply (filter_length_bound _ incorporation_docs). Qed.

(** C7 (as amended): adding a document whose type is missing makes the
    missing list strictly shorter and the completion percentage strictly
    greater; adding a document whose type is already present leaves the
    percentage unchanged; and the percentage does not decrease under any
    added document that leaves the selected process profile the same (as
    every added document does once the company-incorporation profile is
    selected). *)
Theorem completion_under_added_document (documents : list doc_info)
    (doc : doc_info) (validations validations' : list validation) :
  let t := default "unknown" (document_type doc) in
  let before := generate_compliance_report documents validations in
  let after := generate_compliance_report (documents ++ [doc]) validations' in
  let cb := completeness before in
  let ca := completeness after in
  (In t (missing_documents cb) ->
     (length (missing_documents ca) < length (missing_documents cb))%nat /\
     PrimFloat.ltb (completion_percentage cb) (completion_percentage ca) = true)
  /\ (In t (present_documents cb) ->
        completion_percentage ca = completion_percentage cb)
  /\ (process_type after = process_type before ->
        PrimFloat.leb (completion_percentage cb) (completion_percentage ca)
        = true)
  /\ (process_type before = "company_incorporation" ->
        process_type after = "company_incorporation").
Proof.
  intros t before after cb ca.
  destruct (completeness_by_observed documents validations)
    as (Htb & Hpb & Hmb & Hcb).
  destruct (completeness_by_observed (documents ++ [doc]) validations')
    as (Hta & _ & Hma & Hca).
  fold before in Htb, Hpb, Hmb, Hcb. fold cb in Hpb, Hmb, Hcb.
  fold after in Hta, Hma, Hca. fold ca in Hma, Hca.
  rewrite observed_types_app in Hta, Hma, Hca. fold t in Hta, Hma, Hca.
  set (obs := observed_types documents) in *.
  set (obs' := obs ∪ ({[t]} ∖ {["unknown"]})) in *.
  assert (Hsub : forall x, x ∈ obs -> x ∈ obs')
    by (intros x Hx; apply elem_of_union; now left).
  assert (Hsig : has_signal obs = true -> has_signal obs' = true)
    by (apply has_signal_mono; exact Hsub).
  rewrite Hmb, Hma, Hcb, Hca, Hpb, Htb, Hta. clear Hmb Hma Hcb Hca Hpb Htb Hta.
  split; [|split; [|split]].
  - destruct (has_signal obs); [|intros []]. rewrite Hsig by reflexivity.
    intros Ht. apply filter_In in Ht as [Hin Hnot].
    apply negb_true_iff, bool_decide_eq_false in Hnot.
    assert (Ht' : t ∈ obs').
    { apply elem_of_union. right. apply elem_of_difference.
      split; [now apply elem_of_singleton|].
      rewrite elem_of_singleton. now apply incorporation_docs_known. }
    split.
    + apply (filter_length_lt _ _ _ t); auto.
      * intros x _. rewrite !negb_true_iff, !bool_decide_eq_false. auto.
      * now apply negb_false_iff, bool_decide_eq_true.
      * now apply negb_true_iff, bool_decide_eq_false.
    + apply pct5_lt; [|apply present_bound].
      apply (filter_length_lt _ _ _ t); auto.
      * intros x _. rewrite !bool_decide_eq_true. auto.
      * now apply bool_decide_eq_false.
      * now apply bool_decide_eq_true.
  - intros Ht.
    assert (Hobs : t ∈ obs).
    { destruct (has_signal obs).
      - apply filter_In in Ht as [_ Ht]. now apply bool_decide_eq_true in Ht.
      - now apply list_elem_of_In, elem_of_elements in Ht. }
    assert (Heq : obs' = obs).
    { apply set_eq. intros x. subst obs'.
      rewrite elem_of_union, elem_of_difference, !elem_of_singleton.
      split; [intros [H|[-> _]]; assumption | auto]. }
    now rewrite Heq.
  - destruct (has_signal obs).
    + rewrite Hsig by reflexivity. intros _.
      apply pct5_le; [|apply present_bound].
      apply filter_length_le. intros x _. rewrite !bool_decide_eq_true. auto.
    + destruct (has_signal obs'); [discriminate|]. intros _.
      vm_compute. reflexivity.
  - destruct (has_signal obs); [|discriminate]. intros _.
    now rewrite Hsig.
Qed.

Lemma completion_under_added_document_witness :
  let d1 := parse_document "articles.docx" "Articles of Association" in
  let d2 := parse_document "resolution.docx" "Board Resolution" in
  let before := generate_compliance_report [d1] [] in
  let after := generate_compliance_report ([d1] ++ [d2]) [] in
  let again := generate_compliance_report ([d1] ++ [d1]) [] in
  PrimFloat.ltb (completion_percentage (completeness before))
                (completion_percentage (completeness after)) = true /\
  completion_percentage (completeness again)
  = completion_percentage (completeness before) /\
  PrimFloat.leb (completion_percentage (completeness before))
                (completion_percentage (completeness after)) = true.
Proof.
  intros d1 d2 before after again. subst before after again.
  split; [|split].
  - apply (completion_under_added_document [d1] d2 [] []).
    vm_compute. tauto.
  - apply (completion_under_added_document [d1] d1 [] []).
    vm_compute. tauto.
  - apply (completion_under_added_document [d1] d2 [] []).
    vm_compute. reflexivity.
Defined.

(** C7 (as stated) fails in its last part: the percentage is not
    non-decreasing under every added document.  The empty batch is at 100.0
    by the general-review fallback; its first company document selects the
    company-incorporation profile, and the percentage falls to 20.0. *)
Lemma completion_drops_when_profile_is_selected :
  let doc := parse_document "articles.docx" "Articles of Association" in
  let before :=
    completion_percentage (completeness (generate_compliance_report [] [])) in
  let after :=
    completion_percentage
      (completeness
         (generate_compliance_report ([] ++ [doc]) [validate_document doc])) in
  document_type doc = Some "articles_of_association" /\
  before = 100%float /\ after = 20%float /\
  PrimFloat.leb before after = false /\
  ~ (forall documents doc' validations validations',
       PrimFloat.leb
         (completion_percentage
            (completeness (generate_compliance_report documents validations)))
         (completion_percentage
            (completeness
               (generate_compliance_report (documents ++ [doc']) validations')))
       = true).
Proof.
  intros doc before after. subst before after.
  split; [vm_compute; reflexivity|].
  split; [vm_compute; reflexivity|].
  split; [vm_compute; reflexivity|].
  split; [vm_compute; reflexivity|].
  intros H. specialize (H [] doc [] [validate_document doc]).
  vm_compute in H. discriminate H.
Qed.

(** C10: when every document type comes from the classifier and the
    company-incorporation process is selected, register_members_directors
    is missing, the completion percentage is at most 80.0, and the status
    is not [ready_for_submission]. *)
Theorem register_always_missing (documents : list doc_info)
    (validations : list validation) :
  Forall (fun doc => exists text,
            document_type doc = Some (_identify_document_type text))
         documents ->
  let r := generate_compliance_report documents validations in
  process_type r = "company_incorporation" ->
  In "register_members_directors" (missing_documents (completeness r)) /\
  PrimFloat.leb (completion_percentage (completeness r)) 80%float = true /\
  overall_status r <> "ready_for_submission" /\
  ~ In "register_members_directors" (map fst Classifier.patterns).
Proof.
  intros Hdocs r Hproc.
  assert (Hreg : "register_members_directors" ∉ observed_types documents).
  { intros H. apply observed_types_spec in H as [_ (doc & Hin & Hty)].
    rewrite Forall_forall in Hdocs.
    destruct (Hdocs doc (proj2 (list_elem_of_In _ _) Hin)) as [text Htext].
    rewrite Htext in Hty. simpl in Hty.
    destruct (identify_in_catalog text) as [H|H]; rewrite Hty in H.
    - discriminate H.
    - simpl in H. intuition discriminate. }
  destruct (report_cases documents validations) as [Hst _].
  destruct (completeness_by_observed documents validations)
    as (Ht & _ & Hm & Hc).
  fold r in Hst, Ht, Hm, Hc. rewrite Ht in Hproc.
  destruct (has_signal (observed_types documents)); [|discriminate].
  assert (Hin : In "register_members_directors"
                  (missing_documents (completeness r))).
  { rewrite Hm. apply filter_In. split; [simpl; tauto|].
    now apply negb_true_iff, bool_decide_eq_false. }
  split; [exact Hin|]. split; [|split].
  - rewrite Hc.
    replace 80%float with (pct5 4) by (vm_compute; reflexivity).
    apply pct5_le; [|lia].
    enough (length (List.filter
                      (fun d => bool_decide (d ∈ observed_types documents))
                      incorporation_docs)
            < length (List.filter (fun _ => true) incorporation_docs))%nat
      by (simpl in *; lia).
    apply (filter_length_lt _ _ _ "register_members_directors"); auto.
    + simpl; tauto.
    + now apply bool_decide_eq_false.
  - rewrite Hst. apply determine_status_missing.
    intros Hnil. rewrite Hnil in Hin. destruct Hin.
  - simpl. intuition discriminate.
Qed.

Lemma register_always_missing_witness :
  let documents :=
    [ parse_document "articles.docx" "Articles of Association: share capital";
      parse_document "resolution.docx" "Board Resolution of the board of directors";
      parse_document "ubo.docx" "UBO Declaration: beneficial ownership above 25%";
      parse_document "form.docx" "Application for registration (incorporation)" ] in
  let r := generate_compliance_report documents (map validate_document documents) in
  In "register_members_directors" (missing_documents (completeness r)) /\
  PrimFloat.leb (completion_percentage (completeness r)) 80%float = true /\
  overall_status r <> "ready_for_submission".
Proof.
  intros documents r.
  destruct (register_always_missing documents (map validate_document documents))
    as (H1 & H2 & H3 & _).
  - subst documents. repeat constructor; eexists; reflexivity.
  - vm_compute. reflexivity.
  - auto.
Defined.

(** * Further properties of the code *)

(** ** Text helpers *)

Lemma chars_nil (s : string) : PyText.chars s = [] -> s = "".
Proof.
  destruct s as [|c s]; [reflexivity|]. cbn [PyText.chars].
  destruct (PyText.chars s) as [|g gs]; [discriminate|].
  destruct (negb (is_ascii_char c) && PyText.starts_with_continuation s);
    discriminate.
Qed.

(** No character is the empty text. *)
Lemma chars_nonempty (s : string) :
  Forall (fun g => PyText.is_empty g = false) (PyText.chars s).
Proof.
  induction s as [|c s IH]; [constructor|]. cbn [PyText.chars].
  destruct (PyText.chars s) as [|g gs]; [repeat constructor|].
  destruct (negb (is_ascii_char c) && PyText.starts_with_continuation s).
  - constructor; [reflexivity|]. now apply Forall_inv_tail in IH.
  - constructor; [reflexivity | exact IH].
Qed.

(** A byte of ASCII is a character of its own. *)
Lemma chars_cons_ascii (c : ascii) (s : string) :
  is_ascii_char c = true ->
  PyText.chars (String c s) = String c "" :: PyText.chars s.
Proof.
  intros Hc. cbn [PyText.chars]. rewrite Hc. cbn [negb andb].
  destruct (PyText.chars s); reflexivity.
Qed.

Lemma ascii_not_continuation (c : ascii) :
  is_ascii_char c = true -> PyText.is_continuation c = false.
Proof.
  destruct c as [[] [] [] [] [] [] [] []]; intros H;
    try discriminate H; reflexivity.
Qed.

(** The characters of a text cut before a byte of ASCII. *)
Lemma chars_app_ascii (a b : string) (c : ascii) :
  is_ascii_char c = true ->
  PyText.chars (a +:+ String c b)
  = PyText.chars a ++ String c "" :: PyText.chars b.
Proof.
  intros Hc. induction a as [|x a IH].
  - rewrite append_nil_l. now apply chars_cons_ascii.
  - rewrite append_cons. cbn [PyText.chars]. rewrite IH.
    destruct a as [|y a].
    + cbn [PyText.chars app]. rewrite append_nil_l.
      cbn [PyText.starts_with_continuation].
      rewrite (ascii_not_continuation c Hc), andb_false_r. reflexivity.
    + rewrite append_cons. cbn [PyText.starts_with_continuation].
      destruct (PyText.chars (String y a)) as [|g gs] eqn:Hg.
      * apply chars_nil in Hg. discriminate Hg.
      * cbn [app].
        destruct (negb (is_ascii_char x) && PyText.is_continuation y);
          reflexivity.
Qed.

Lemma lstrip_chars_nil (l : list string) :
  Validator.is_nonempty (PyText.lstrip_chars l)
  = negb (forallb PyText.is_space_char l).
Proof.
  induction l as [|g l IH]; [reflexivity|]. cbn [PyText.lstrip_chars forallb].
  destruct (PyText.is_space_char g); [exact IH | reflexivity].
Qed.

Lemma forallb_lstrip_chars (l : list string) :
  forallb PyText.is_space_char (PyText.lstrip_chars l)
  = forallb PyText.is_space_char l.
Proof.
  induction l as [|g l IH]; [reflexivity|]. cbn [PyText.lstrip_chars].
  destruct (PyText.is_space_char g) eqn:Hg; [|reflexivity].
  cbn [forallb]. now rewrite Hg.
Qed.

Lemma forallb_rev {A : Type} (f : A -> bool) (l : list A) :
  forallb f (rev l) = forallb f l.
Proof.
  induction l as [|x l IH]; [reflexivity|].
  cbn [rev]. rewrite forallb_app, IH. cbn [forallb].
  rewrite andb_true_r. apply andb_comm.
Qed.

Lemma join_chars_empty (l : list string) :
  Forall (fun g => PyText.is_empty g = false) l ->
  PyText.is_empty (PyText.join_chars l) = negb (Validator.is_nonempty l).
Proof.
  intros Hl. destruct Hl as [|g l Hg _]; [reflexivity|].
  cbn [PyText.join_chars fold_right Validator.is_nonempty negb].
  destruct g; [discriminate Hg | reflexivity].
Qed.

Lemma lstrip_chars_nonempty (l : list string) :
  Forall (fun g => PyText.is_empty g = false) l ->
  Forall (fun g => PyText.is_empty g = false) (PyText.lstrip_chars l).
Proof.
  induction 1 as [|g l Hg Hl IH]; [constructor|]. cbn [PyText.lstrip_chars].
  destruct (PyText.is_space_char g); [exact IH | now constructor].
Qed.

(** [s.strip()] is empty exactly when [s] is all white space. *)
Lemma lstrip_all_space (s : string) :
  PyText.is_empty (PyText.strip s) = Terms.all_space s.
Proof.
  unfold PyText.strip, Terms.all_space.
  pose proof (chars_nonempty s) as Hne.
  set (l := PyText.chars s) in *.
  assert (Hrev : forall k : list string,
             Forall (fun g => PyText.is_empty g = false) k ->
             Forall (fun g => PyText.is_empty g = false) (rev k)).
  { intros k Hk. apply Forall_forall. intros g Hg.
    apply list_elem_of_In, in_rev in Hg.
    rewrite Forall_forall in Hk. apply Hk. now apply list_elem_of_In. }
  rewrite join_chars_empty
    by (apply Hrev, lstrip_chars_nonempty, Hrev, lstrip_chars_nonempty, Hne).
  assert (Hnil : forall k : list string,
             Validator.is_nonempty (rev k) = Validator.is_nonempty k).
  { intros [|x k]; [reflexivity|]. cbn [rev].
    destruct (rev k); reflexivity. }
  rewrite Hnil, lstrip_chars_nil, negb_involutive, forallb_rev.
  apply forallb_lstrip_chars.
Qed.

Lemma split_go_nil (l : list string) (cur : string) :
  Forall (fun g => PyText.is_empty g = false) l ->
  PyText.split_go l cur = [] <->
  forallb PyText.is_space_char l = true /\ cur = "".
Proof.
  intros Hl. revert cur; induction Hl as [|g l Hg _ IH]; intros cur;
    cbn [PyText.split_go forallb].
  - destruct cur; simpl; split; try tauto; try discriminate.
    intros [_ H]; discriminate.
  - destruct (PyText.is_space_char g); cbn [andb].
    + destruct cur; cbn [PyText.is_empty].
      * rewrite IH. tauto.
      * split; [discriminate | intros [_ H]; discriminate].
    + rewrite IH. split; [|intros [H _]; discriminate].
      intros [_ H]. destruct cur; [|discriminate].
      rewrite append_nil_l in H. subst g. discriminate Hg.
Qed.

(** Splitting across a white-space character. *)
Lemma split_go_space (l1 l2 : list string) (g cur : string) :
  PyText.is_space_char g = true ->
  PyText.split_go (l1 ++ g :: l2) cur
  = PyText.split_go l1 cur ++ PyText.split_go l2 "".
Proof.
  intros Hg. revert cur; induction l1 as [|x l1 IH]; intros cur;
    cbn [app PyText.split_go].
  - rewrite Hg. destruct (PyText.is_empty cur); reflexivity.
  - destruct (PyText.is_space_char x).
    + destruct (PyText.is_empty cur); cbn [app]; now rewrite IH.
    + apply IH.
Qed.

Lemma split_join (l : list string) :
  PyText.split (PyText.join PyText.newline_string l)
  = concat (map PyText.split l).
Proof.
  induction l as [|x l IH]; [reflexivity|].
  destruct l as [|y l].
  - simpl. now rewrite app_nil_r.
  - change (PyText.join PyText.newline_string (x :: y :: l))
      with (x +:+ String PyRe.newline
                    (PyText.join PyText.newline_string (y :: l))).
    unfold PyText.split at 1.
    rewrite chars_app_ascii by reflexivity.
    rewrite split_go_space by reflexivity.
    fold (PyText.split x).
    fold (PyText.split (PyText.join PyText.newline_string (y :: l))).
    rewrite IH. reflexivity.
Qed.

Lemma len_concat {A : Type} (ls : list (list A)) :
  len (concat ls) = Terms.sum_Z (map len ls).
Proof.
  unfold len. induction ls as [|l ls IH]; [reflexivity|].
  simpl. rewrite length_app, Nat2Z.inj_add, IH. reflexivity.
Qed.

Lemma sum_Z_at_least_length {A : Type} (f : A -> Z) (l : list A) :
  Forall (fun x => (1 <= f x)%Z) l -> (len l <= Terms.sum_Z (map f l))%Z.
Proof.
  unfold len. induction 1 as [|x l Hx _ IH]; simpl; [lia|].
  rewrite Nat2Z.inj_succ in *. simpl in IH. lia.
Qed.

Lemma kept_paragraph_has_word (text : string) :
  PyText.is_empty (PyText.strip text) = false ->
  (1 <= len (PyText.split text))%Z.
Proof.
  rewrite lstrip_all_space. intros Hs. unfold len.
  destruct (PyText.split text) as [|w ws] eqn:Hsplit.
  - apply split_go_nil in Hsplit as [Hall _]; [|apply chars_nonempty].
    unfold Terms.all_space in Hs. congruence.
  - simpl. lia.
Qed.

(** X1: the statistics of a parsed document.  The paragraph count is the
    number of paragraphs that are not blank; the word count is the sum of
    the word counts of those paragraphs, the newline that joins them never
    gluing two words; so there are at least as many words as paragraphs,
    and no word exactly when no paragraph was kept. *)
Theorem parse_document_counts (file_path : string) (doc : Parser.docx) :
  exists parsed : Parser.parsed_document,
    Parser.parse_document file_path (Some doc) = Some parsed /\
    Parser.paragraph_count parsed
    = len (List.filter (fun t => negb (Terms.all_space t)) (Parser.paragraphs doc)) /\
    (Parser.paragraph_count parsed <= len (Parser.paragraphs doc))%Z /\
    Parser.word_count parsed
    = Terms.sum_Z (map (fun t => len (PyText.split t)) (Parser.full_text doc)) /\
    (Parser.paragraph_count parsed <= Parser.word_count parsed)%Z /\
    (Parser.word_count parsed = 0%Z <-> Parser.paragraph_count parsed = 0%Z).
Proof.
  eexists. split; [reflexivity|]. simpl.
  assert (Hft : Parser.full_text doc
                = List.filter (fun t => negb (Terms.all_space t))
                    (Parser.paragraphs doc)).
  { unfold Parser.full_text. apply List.filter_ext. intros t.
    now rewrite lstrip_all_space. }
  assert (Hwords : len (PyText.split
                          (PyText.join PyText.newline_string (Parser.full_text doc)))
                   = Terms.sum_Z (map (fun t => len (PyText.split t))
                                      (Parser.full_text doc))).
  { rewrite split_join, len_concat, map_map. reflexivity. }
  assert (Hle : (len (Parser.full_text doc)
                 <= Terms.sum_Z (map (fun t => len (PyText.split t))
                                     (Parser.full_text doc)))%Z).
  { apply sum_Z_at_least_length. apply Forall_forall. intros t Ht.
    apply list_elem_of_In, filter_In in Ht as [_ Ht].
    apply kept_paragraph_has_word. now apply negb_true_iff in Ht. }
  split; [now rewrite Hft|]. split.
  { unfold len. apply inj_le. apply filter_length_bound. }
  split; [exact Hwords|]. rewrite Hwords. split; [exact Hle|].
  split.
  - intros H0. unfold len in *. lia.
  - unfold len. intros H0.
    destruct (Parser.full_text doc); [reflexivity | discriminate].
Qed.

Lemma parse_document_counts_witness :
  let doc :=
    Parser.Docx
      [ "BOARD RESOLUTION"; "   "; "It was resolved that"; " 　"; "" ] 2 in
  exists parsed : Parser.parsed_document,
    Parser.parse_document "uploads/resolution.docx" (Some doc) = Some parsed /\
    Parser.paragraph_count parsed = 2%Z /\
    Parser.word_count parsed = 6%Z.
Proof.
  intros doc.
  destruct (parse_document_counts "uploads/resolution.docx" doc)
    as (parsed & Hp & Hpar & _ & Hwords & _).
  exists parsed. split; [exact Hp|]. split.
  - rewrite Hpar. vm_compute. reflexivity.
  - rewrite Hwords. vm_compute. reflexivity.
Defined.

(** X2: a document with no paragraph, or only blank ones, has the empty
    text: it parses to type [unknown] with no word, and its validation
    carries the regulator-reference flag alone. *)
Theorem blank_document (file_path : string) (doc : Parser.docx) :
  Forall (fun t => Terms.all_space t = true) (Parser.paragraphs doc) ->
  exists parsed : Parser.parsed_document,
    Parser.parse_document file_path (Some doc) = Some parsed /\
    text_content (Parser.info parsed) = Some "" /\
    document_type (Parser.info parsed) = Some "unknown" /\
    Parser.word_count parsed = 0%Z /\
    Parser.paragraph_count parsed = 0%Z /\
    red_flags (validate_document (Parser.info parsed)) = [adgm_reference_flag] /\
    v_overall_status (validate_document (Parser.info parsed))
    = "requires_attention".
Proof.
  intros Hblank. eexists. split; [reflexivity|].
  assert (Hft : Parser.full_text doc = []).
  { unfold Parser.full_text. induction Hblank as [|t l Ht _ IH]; [reflexivity|].
    cbn [List.filter]. rewrite lstrip_all_space, Ht. exact IH. }
  unfold Parser.parse_document, Parser.info, Parser.word_count,
    Parser.paragraph_count. rewrite Hft.
  repeat split; vm_compute; reflexivity.
Qed.

Lemma blank_document_witness :
  exists parsed : Parser.parsed_document,
    Parser.parse_document "uploads/empty.docx"
      (Some (Parser.Docx [""; "   "; "   "] 0))
    = Some parsed /\
    document_type (Parser.info parsed) = Some "unknown" /\
    red_flags (validate_document (Parser.info parsed)) = [adgm_reference_flag].
Proof.
  destruct (blank_document "uploads/empty.docx"
              (Parser.Docx [""; "   "; "   "] 0))
    as (parsed & Hp & _ & Hty & _ & _ & Hflags & _).
  - repeat constructor.
  - exists parsed. auto.
Defined.

(** ** The batch loop of [process_documents] *)

Lemma process_file_loop (files : list Agent.upload)
    (docs : list Parser.parsed_document) (vals : list validation) :
  fold_left Agent.process_file files (docs, vals)
  = (docs ++ Terms.parsed_files files,
     vals ++ map Terms.validation_of (Terms.parsed_files files)).
Proof.
  revert docs vals; induction files as [|f files IH]; intros docs vals.
  - simpl. now rewrite !app_nil_r.
  - simpl. unfold Agent.process_file at 2. unfold Terms.parsed_files. simpl.
    destruct (Parser.parse_document (Agent.name f) (Agent.content f)) as [p|].
    + simpl. rewrite IH. unfold Terms.parsed_files.
      now rewrite <- !app_assoc.
    + apply IH.
Qed.

Lemma parsed_files_length (files : list Agent.upload) :
  (length (Terms.parsed_files files) <= length files)%nat.
Proof.
  unfold Terms.parsed_files, omap.
  induction files as [|f files IH]; simpl; [lia|].
  destruct (Parser.parse_document (Agent.name f) (Agent.content f)); simpl; lia.
Qed.

(** The result of [process_documents] on a batch that has files. *)
Lemma process_documents_inr (files : list Agent.upload)
    (results : Agent.analysis_results) :
  Agent.process_documents files = inr results ->
  results
  = {| Agent.documents_processed := len (Terms.parsed_files files);
       Agent.compliance_report :=
         generate_compliance_report
           (map Parser.info (Terms.parsed_files files))
           (map Terms.validation_of (Terms.parsed_files files));
       Agent.document_analyses :=
         map Terms.validation_of (Terms.parsed_files files) |}.
Proof.
  destruct files as [|f files]; [discriminate|].
  unfold Agent.process_documents.
  rewrite (process_file_loop (f :: files) [] []). simpl app.
  intros H. injection H as <-. reflexivity.
Qed.

(** X3: a batch with no file gets the message and no report.  Otherwise the
    files that cannot be parsed are skipped without stopping the batch, the
    others keep their upload order, the analysis at each index is the
    validation of the document at that index, and the report counts the
    parsed documents only. *)
Theorem process_documents_batch (files : list Agent.upload) :
  let parsed := Terms.parsed_files files in
  let analyses := map Terms.validation_of parsed in
  match Agent.process_documents files with
  | inl message => files = [] /\ message = Agent.no_files_message
  | inr results =>
      files <> [] /\
      Agent.document_analyses results = analyses /\
      Agent.compliance_report results
      = generate_compliance_report (map Parser.info parsed) analyses /\
      Agent.documents_processed results = len parsed /\
      documents_uploaded (completeness (Agent.compliance_report results))
      = len parsed /\
      (len parsed <= len files)%Z /\
      length analyses = length parsed
  end.
Proof.
  intros parsed analyses. destruct files as [|f files]; [split; reflexivity|].
  unfold Agent.process_documents.
  rewrite (process_file_loop (f :: files) [] []). simpl app.
  fold parsed. fold analyses. cbn [Agent.document_analyses
    Agent.compliance_report Agent.documents_processed].
  split; [discriminate|]. split; [reflexivity|]. split; [reflexivity|].
  split; [reflexivity|]. split.
  { unfold generate_compliance_report.
    destruct (select_process _) as [[pt pn] R].
    destruct (check_completeness _ _) as [[pr mi] c]. simpl.
    unfold len. now rewrite length_map. }
  split; [unfold len; apply inj_le; apply parsed_files_length|].
  subst analyses. apply length_map.
Qed.

Lemma sum_of_ones {A : Type} (l : list A) :
  fold_right Z.add 0%Z (map (fun _ => 1%Z) l) = Z.of_nat (length l).
Proof.
  induction l as [|x l IH]; [reflexivity|].
  simpl fold_right. rewrite IH. simpl length. lia.
Qed.

Lemma count_high_length (validations : list validation) :
  count_high validations
  = Z.of_nat (length (List.filter (fun rf => String.eqb (rf_severity rf) "high")
                        (concat (map red_flags validations)))).
Proof. unfold count_high. apply sum_of_ones. Qed.

Lemma count_high_zero (validations : list validation) :
  count_high validations = 0%Z <->
  forall v f, In v validations -> In f (red_flags v) -> rf_severity f <> "high".
Proof.
  rewrite count_high_length. split.
  - intros H v f Hv Hf Hhigh.
    assert (Hin : In f (List.filter (fun rf => String.eqb (rf_severity rf) "high")
                          (concat (map red_flags validations)))).
    { apply filter_In. split; [|now apply String.eqb_eq].
      apply in_concat. exists (red_flags v). split; [now apply in_map | exact Hf]. }
    destruct (List.filter _ _); [destruct Hin | discriminate].
  - intros H.
    destruct (List.filter _ _) as [|f fs] eqn:Hfilter; [reflexivity|]. exfalso.
    assert (Hin : In f (f :: fs)) by now left. rewrite <- Hfilter in Hin.
    apply filter_In in Hin as [Hin Hhigh]. apply String.eqb_eq in Hhigh.
    apply in_concat in Hin as (fl & Hfl & Hf).
    apply in_map_iff in Hfl as (v & <- & Hv). exact (H v f Hv Hf Hhigh).
Qed.

Lemma parsed_files_classified (files : list Agent.upload)
    (p : Parser.parsed_document) :
  In p (Terms.parsed_files files) ->
  exists text,
    Parser.info p
    = Classifier.parse_document (PyText.basename (Parser.file_path p)) text.
Proof.
  unfold Terms.parsed_files. intros Hin.
  apply list_elem_of_In, list_elem_of_omap in Hin as (f & _ & Hp).
  destruct (Agent.content f) as [d|]; [|discriminate].
  injection Hp as <-. simpl. eauto.
Qed.

Lemma classified_never_register (documents : list doc_info) :
  Forall (fun doc => exists text,
            document_type doc = Some (_identify_document_type text))
         documents ->
  "register_members_directors" ∉ observed_types documents.
Proof.
  intros Hdocs H. apply observed_types_spec in H as [_ (doc & Hin & Hty)].
  rewrite Forall_forall in Hdocs.
  destruct (Hdocs doc (proj2 (list_elem_of_In _ _) Hin)) as [text Htext].
  rewrite Htext in Hty. simpl in Hty.
  destruct (identify_in_catalog text) as [H|H]; rewrite Hty in H.
  - discriminate H.
  - simpl in H. intuition discriminate.
Qed.

Lemma has_signal_false (documents : list doc_info) :
  has_signal (observed_types documents) = false <->
  forall doc, In doc documents ->
    ~ In (default "unknown" (document_type doc)) signal_types.
Proof.
  unfold has_signal. rewrite !orb_false_iff, !bool_decide_eq_false.
  rewrite !observed_types_spec. split.
  - intros [[H1 H2] H3] doc Hdoc Hin. simpl in Hin.
    destruct Hin as [Hin|[Hin|[Hin|[]]]].
    + apply H1. split; [discriminate|]. eauto.
    + apply H2. split; [discriminate|]. eauto.
    + apply H3. split; [discriminate|]. eauto.
  - intros H. repeat split; intros [_ (doc & Hdoc & Hty)];
      apply (H doc Hdoc); rewrite Hty; simpl; tauto.
Qed.

Lemma count_high_nonneg (validations : list validation) :
  (0 <= count_high validations)%Z.
Proof. rewrite count_high_length. lia. Qed.

(** When is a report [ready_for_submission]? *)
Lemma ready_iff (documents : list doc_info) (validations : list validation) :
  Forall (fun doc => exists text,
            document_type doc = Some (_identify_document_type text))
         documents ->
  let r := generate_compliance_report documents validations in
  overall_status r = "ready_for_submission" <->
  has_signal (observed_types documents) = false /\
  count_high validations = 0%Z.
Proof.
  intros Hdocs r.
  pose proof (classified_never_register documents Hdocs) as Hreg.
  pose proof (count_high_nonneg validations) as Hnn.
  destruct (report_cases documents validations) as [Hst _].
  destruct (completeness_by_observed documents validations)
    as (_ & _ & Hm & Hc).
  fold r in Hst, Hm, Hc. rewrite Hst, Hm, Hc.
  destruct (has_signal (observed_types documents)).
  - split; [|intros [H _]; discriminate]. intros H. exfalso.
    revert H. apply determine_status_missing.
    intros Hnil.
    assert (Hin : In "register_members_directors"
                    (List.filter
                       (fun d => negb (bool_decide (d ∈ observed_types documents)))
                       incorporation_docs)).
    { apply filter_In. split; [simpl; tauto|].
      now apply negb_true_iff, bool_decide_eq_false. }
    rewrite Hnil in Hin. destruct Hin.
  - unfold determine_status.
    replace (PrimFloat.ltb 100 60) with false by (vm_compute; reflexivity).
    destruct (Z.gtb_spec (count_high validations) 2) as [H2|H2].
    { split; [discriminate | intros [_ H]; lia]. }
    destruct (Z.gtb_spec (count_high validations) 0) as [H0|H0]; simpl.
    { split; [discriminate | intros [_ H]; lia]. }
    split; [intros _; split; [reflexivity | lia] | reflexivity].
Qed.

(** X4: in a processed batch the report is [ready_for_submission] exactly
    when no document is of a company-incorporation signal type and no
    analysis holds a high-severity flag; every document of such a batch
    then names ADGM or Abu Dhabi Global Market. *)
Theorem ready_for_submission_batch (files : list Agent.upload)
    (results : Agent.analysis_results) :
  Agent.process_documents files = inr results ->
  let r := Agent.compliance_report results in
  let parsed := Terms.parsed_files files in
  (overall_status r = "ready_for_submission" <->
   (forall p, In p parsed ->
      ~ In (default "unknown" (document_type (Parser.info p))) signal_types) /\
   (forall p f, In p parsed -> In f (red_flags (Terms.validation_of p)) ->
      rf_severity f <> "high")) /\
  (overall_status r = "ready_for_submission" ->
   process_type r = "general_review" /\
   high_severity (issues_summary r) = 0%Z /\
   forall p, In p parsed ->
     let text := default "" (text_content (Parser.info p)) in
     occurs_ci "adgm" text \/ occurs_ci "abu dhabi global market" text).
Proof.
  intros Hres r parsed.
  apply process_documents_inr in Hres. fold parsed in Hres.
  assert (Hrep : Agent.compliance_report results
                 = generate_compliance_report (map Parser.info parsed)
                     (map Terms.validation_of parsed))
    by (rewrite Hres; reflexivity).
  assert (Hclass : Forall (fun doc => exists text,
                     document_type doc = Some (_identify_document_type text))
                     (map Parser.info parsed)).
  { apply Forall_forall. intros d Hd.
    apply list_elem_of_In, in_map_iff in Hd as (p & <- & Hp).
    destruct (parsed_files_classified files p Hp) as [text ->].
    exists text. reflexivity. }
  pose proof (ready_iff (map Parser.info parsed)
                (map Terms.validation_of parsed) Hclass) as Hready.
  cbv zeta in Hready. rewrite <- Hrep in Hready. fold r in Hready.
  assert (Hsig : has_signal (observed_types (map Parser.info parsed)) = false <->
                 forall p, In p parsed ->
                   ~ In (default "unknown" (document_type (Parser.info p)))
                        signal_types).
  { rewrite has_signal_false. split.
    - intros H p Hp. apply H. now apply in_map.
    - intros H d Hd. apply in_map_iff in Hd as (p & <- & Hp). now apply H. }
  assert (Hhigh : count_high (map Terms.validation_of parsed) = 0%Z <->
                  forall p f, In p parsed ->
                    In f (red_flags (Terms.validation_of p)) ->
                    rf_severity f <> "high").
  { rewrite count_high_zero. split.
    - intros H p f Hp. apply H. now apply in_map.
    - intros H v f Hv. apply in_map_iff in Hv as (p & <- & Hp). now apply H. }
  assert (Hmain : overall_status r = "ready_for_submission" <->
                  (forall p, In p parsed ->
                     ~ In (default "unknown" (document_type (Parser.info p)))
                          signal_types) /\
                  (forall p f, In p parsed ->
                     In f (red_flags (Terms.validation_of p)) ->
                     rf_severity f <> "high"))
    by (rewrite Hready, Hsig, Hhigh; reflexivity).
  split; [exact Hmain|]. intros Hst.
  destruct (proj1 Hready Hst) as [Hs Hh].
  destruct (proj1 Hmain Hst) as [_ Hflags].
  destruct (completeness_by_observed (map Parser.info parsed)
              (map Terms.validation_of parsed)) as (Ht & _).
  rewrite <- Hrep in Ht. fold r in Ht. rewrite Hs in Ht.
  split; [exact Ht|]. split.
  { subst r. rewrite Hrep. unfold generate_compliance_report.
    destruct (select_process _) as [[pt pn] R].
    destruct (check_completeness _ _) as [[pr mi] c]. exact Hh. }
  intros p Hp text.
  destruct (lacks_adgm_reference (lower text)) eqn:Hlack.
  - exfalso. apply (Hflags p adgm_reference_flag Hp); [|reflexivity].
    unfold Terms.validation_of, validate_document. simpl. fold text.
    unfold scan. rewrite Hlack. apply in_or_app. right. now left.
  - unfold lacks_adgm_reference in Hlack. apply andb_false_iff in Hlack.
    rewrite !negb_false_iff, !contains_spec in Hlack. exact Hlack.
Qed.

Lemma ready_for_submission_batch_witness :
  let files :=
    [ Agent.Upload "uploads/contract.docx"
        (Some (Parser.Docx
                 [ "Employment Contract"; "";
                   "The employee is paid a salary under ADGM regulations." ] 0));
      Agent.Upload "uploads/broken.docx" None ] in
  exists results,
    Agent.process_documents files = inr results /\
    Agent.documents_processed results = 1%Z /\
    overall_status (Agent.compliance_report results) = "ready_for_submission" /\
    process_type (Agent.compliance_report results) = "general_review".
Proof.
  intros files. eexists. split; [reflexivity|].
  split; [vm_compute; reflexivity|].
  assert (Hst : overall_status
                  (Agent.compliance_report
                     {| Agent.documents_processed :=
                          len (Terms.parsed_files files);
                        Agent.compliance_report :=
                          generate_compliance_report
                            (map Parser.info (Terms.parsed_files files))
                            (map Terms.validation_of (Terms.parsed_files files));
                        Agent.document_analyses :=
                          map Terms.validation_of (Terms.parsed_files files) |})
                = "ready_for_submission") by (vm_compute; reflexivity).
  split; [exact Hst|].
  apply (ready_for_submission_batch files _ eq_refl). exact Hst.
Defined.

(** ** What a scan can emit *)

Lemma scan_flags_possible (text : string) (f : red_flag) :
  In f (scan text) -> In f Terms.possible_flags.
Proof.
  rewrite scan_expected. unfold Spec.expected_flags. intros H.
  apply in_app_or in H as [H|H].
  - apply table_flag_origin in H as (entry & p & Hentry & _ & _ & ->).
    simpl in Hentry. destruct Hentry as [<-|[<-|[<-|[]]]]; simpl; tauto.
  - destruct (lacks_adgm_reference (lower text)); [|destruct H].
    destruct H as [<-|[]]. simpl; tauto.
Qed.

Lemma count_category_app (c : string) (l1 l2 : list red_flag) :
  Terms.count_category c (l1 ++ l2)
  = (Terms.count_category c l1 + Terms.count_category c l2)%nat.
Proof. unfold Terms.count_category. now rewrite List.filter_app, length_app. Qed.

Lemma count_category_rule (c : string) (t : string) (entry : string * rule) :
  Terms.count_category c (Spec.rule_flags t entry)
  = if String.eqb (fst entry) c
    then length (List.filter (fun p => PyRe.search p t)
                   (Validator.patterns (snd entry)))
    else 0%nat.
Proof.
  unfold Terms.count_category, Spec.rule_flags.
  generalize (List.filter (fun p => PyRe.search p t)
                (Validator.patterns (snd entry))) as ps.
  intros ps. induction ps as [|p ps IH]; simpl.
  - now destruct (String.eqb (fst entry) c).
  - destruct (String.eqb (fst entry) c); simpl; [now rewrite IH | exact IH].
Qed.

(** The number of flags of each category, by matching patterns. *)
Lemma scan_categories (text : string) :
  let t := lower text in
  let hits (k : nat) :=
    length (List.filter (fun p => PyRe.search p t)
              (Validator.patterns
                 (snd (nth k red_flag_patterns ("", Rule [] "" ""))))) in
  let standing := if lacks_adgm_reference t then 1%nat else 0%nat in
  Terms.count_category "jurisdiction_issues" (scan text) = hits 0%nat /\
  Terms.count_category "missing_adgm_reference" (scan text)
  = (hits 1 + standing)%nat /\
  Terms.count_category "incomplete_signatures" (scan text) = hits 2%nat /\
  length (scan text) = (hits 0 + hits 1 + hits 2 + standing)%nat /\
  (hits 0 <= 5)%nat /\ (hits 1 <= 1)%nat /\ (hits 2 <= 4)%nat.
Proof.
  intros t hits standing. rewrite scan_expected. unfold Spec.expected_flags.
  fold t. subst hits. cbn [flat_map red_flag_patterns nth].
  rewrite !count_category_app, !count_category_rule, !length_app.
  unfold Spec.rule_flags. rewrite !length_map. cbn [fst].
  set (h0 := length (List.filter _ (Validator.patterns
                                      (snd ("jurisdiction_issues", _))))).
  set (h1 := length (List.filter _ (Validator.patterns
                                      (snd ("missing_adgm_reference", _))))).
  set (h2 := length (List.filter _ (Validator.patterns
                                      (snd ("incomplete_signatures", _))))).
  assert (H0 : (h0 <= 5)%nat)
    by (etransitivity; [apply filter_length_bound | cbn; lia]).
  assert (H1 : (h1 <= 1)%nat)
    by (etransitivity; [apply filter_length_bound | cbn; lia]).
  assert (H2 : (h2 <= 4)%nat)
    by (etransitivity; [apply filter_length_bound | cbn; lia]).
  clearbody h0 h1 h2. subst standing.
  destruct (lacks_adgm_reference t); vm_compute Terms.count_category;
    cbn [String.eqb Ascii.eqb Bool.eqb length]; lia.
Qed.

Lemma scan_limits (text : string) :
  (length (scan text) <= 11)%nat /\
  (length (List.filter (fun f => String.eqb (rf_severity f) "high") (scan text))
   <= 7)%nat.
Proof.
  destruct (scan_categories text) as (Hj & Hm & Hs & Hlen & H0 & H1 & H2).
  cbv zeta in *.
  assert (Hst : ((if lacks_adgm_reference (lower text) then 1 else 0) <= 1)%nat)
    by (destruct (lacks_adgm_reference (lower text)); lia).
  split; [lia|].
  assert (Hhigh : forall l : list red_flag,
             (forall f, In f l -> In f Terms.possible_flags) ->
             (length (List.filter (fun f => String.eqb (rf_severity f) "high") l)
              + Terms.count_category "incomplete_signatures" l
              = length l)%nat).
  { unfold Terms.count_category. induction l as [|f l IH]; intros Hl; [reflexivity|].
    assert (IH' := IH (fun g Hg => Hl g (or_intror Hg))).
    destruct (Hl f (or_introl eq_refl)) as [<-|[<-|[<-|[<-|[]]]]];
      simpl in *; lia. }
  specialize (Hhigh (scan text) (fun f => scan_flags_possible text f)). lia.
Qed.

(** X5: what one validation can hold.  Every flag is one of four fixed
    flags; there are at most five [jurisdiction_issues] flags, two
    [missing_adgm_reference] flags and four [incomplete_signatures] flags,
    hence at most eleven flags, of which at most seven are of high
    severity. *)
Theorem red_flags_bounded (doc : doc_info) :
  let flags := red_flags (validate_document doc) in
  (forall f, In f flags -> In f Terms.possible_flags) /\
  (Terms.count_category "jurisdiction_issues" flags <= 5)%nat /\
  (Terms.count_category "missing_adgm_reference" flags <= 2)%nat /\
  (Terms.count_category "incomplete_signatures" flags <= 4)%nat /\
  length flags
  = (Terms.count_category "jurisdiction_issues" flags
     + Terms.count_category "missing_adgm_reference" flags
     + Terms.count_category "incomplete_signatures" flags)%nat /\
  (length flags <= 11)%nat /\
  (length (List.filter (fun f => String.eqb (rf_severity f) "high") flags)
   <= 7)%nat.
Proof.
  intros flags. subst flags. simpl.
  set (text := default "" (text_content doc)).
  destruct (scan_categories text) as (Hj & Hm & Hs & Hlen & H0 & H1 & H2).
  cbv zeta in *.
  split; [intros f; apply scan_flags_possible|].
  assert (Hst : ((if lacks_adgm_reference (lower text) then 1 else 0) <= 1)%nat)
    by (destruct (lacks_adgm_reference (lower text)); lia).
  repeat split; try lia. apply scan_limits.
Qed.

Lemma count_red_flags_len (validations : list validation) :
  count_red_flags validations = len (concat (map red_flags validations)).
Proof.
  unfold count_red_flags. rewrite len_concat, map_map. reflexivity.
Qed.

(** X6: in every report the high-severity count is between 0 and the total
    number of red flags, and the total is the number of flags of all the
    validations together. *)
Theorem issue_counts_ordered (documents : list doc_info)
    (validations : list validation) :
  let issues := issues_summary (generate_compliance_report documents validations) in
  total_red_flags issues = len (concat (map red_flags validations)) /\
  (0 <= high_severity issues <= total_red_flags issues)%Z.
Proof.
  intros issues. subst issues. unfold generate_compliance_report.
  destruct (select_process _) as [[pt pn] R].
  destruct (check_completeness _ _) as [[pr mi] c]. simpl.
  rewrite count_red_flags_len, count_high_length. split; [reflexivity|].
  unfold len. split; [lia|]. apply inj_le. apply filter_length_bound.
Qed.

Lemma count_high_cons (v : validation) (validations : list validation) :
  count_high (v :: validations)
  = (Z.of_nat (length (List.filter (fun f => String.eqb (rf_severity f) "high")
                         (red_flags v)))
     + count_high validations)%Z.
Proof.
  rewrite !count_high_length. simpl. rewrite List.filter_app, length_app. lia.
Qed.

Lemma count_red_flags_cons (v : validation) (validations : list validation) :
  count_red_flags (v :: validations)
  = (len (red_flags v) + count_red_flags validations)%Z.
Proof. reflexivity. Qed.

(** X7: a processed batch of [n] parsed documents reports at most [11 n] red
    flags and at most [7 n] of high severity. *)
Theorem batch_issue_bounds (files : list Agent.upload)
    (results : Agent.analysis_results) :
  Agent.process_documents files = inr results ->
  let issues := issues_summary (Agent.compliance_report results) in
  let n := Agent.documents_processed results in
  (total_red_flags issues <= 11 * n)%Z /\ (high_severity issues <= 7 * n)%Z.
Proof.
  intros Hres issues n.
  apply process_documents_inr in Hres.
  subst issues n. rewrite Hres.
  cbn [Agent.compliance_report Agent.documents_processed].
  unfold generate_compliance_report.
  destruct (select_process _) as [[pt pn] R].
  destruct (check_completeness _ _) as [[pr mi] c]. simpl.
  generalize (Terms.parsed_files files) as parsed. intros parsed.
  induction parsed as [|p parsed IH]; [vm_compute; split; discriminate|].
  simpl map. rewrite count_high_cons, count_red_flags_cons.
  destruct (scan_limits (default "" (text_content (Parser.info p))))
    as (H11 & H7).
  destruct IH as [IH1 IH2]. unfold len in *. simpl length.
  rewrite Nat2Z.inj_succ. split; lia.
Qed.

(** ** The values of a report *)

Lemma determine_status_incomplete (c : float) (h : Z) (missing : list string) :
  determine_status c h missing = "incomplete" <-> PrimFloat.ltb c 60 = true.
Proof.
  unfold determine_status. destruct (PrimFloat.ltb c 60); [tauto|].
  split; [|discriminate].
  destruct (h >? 2)%Z; [discriminate|].
  destruct ((h >? 0)%Z || is_nonempty missing); discriminate.
Qed.

(** X8: the completion percentage of a report is 20, 40, 60, 80 or 100,
    never 0: the company-incorporation profile is selected only when one of
    its required types was observed.  The status is [incomplete] exactly
    when that profile is selected with at most two required types
    present. *)
Theorem completion_values (documents : list doc_info)
    (validations : list validation) :
  let r := generate_compliance_report documents validations in
  let c := completeness r in
  In (completion_percentage c) Terms.percentages /\
  (process_type r = "company_incorporation" ->
     (1 <= length (present_documents c) <= 5)%nat /\
     (length (present_documents c) + length (missing_documents c) = 5)%nat) /\
  (overall_status r = "incomplete" <->
     process_type r = "company_incorporation" /\
     (length (present_documents c) <= 2)%nat).
Proof.
  intros r c.
  destruct (report_cases documents validations) as [Hst _].
  destruct (completeness_by_observed documents validations)
    as (Ht & Hp & Hm & Hc).
  fold r in Hst, Ht, Hp, Hm, Hc. fold c in Hst, Hp, Hm, Hc.
  rewrite Hst, determine_status_incomplete, Hc, Hp, Hm, Ht.
  clear Hst Hc Hp Hm Ht. unfold has_signal.
  set (obs := observed_types documents).
  cbn [List.filter incorporation_docs].
  destruct (bool_decide ("articles_of_association" ∈ obs));
    destruct (bool_decide ("board_resolution" ∈ obs));
    destruct (bool_decide ("incorporation_form" ∈ obs));
    destruct (bool_decide ("ubo_declaration" ∈ obs));
    destruct (bool_decide ("register_members_directors" ∈ obs));
    cbn [orb negb length];
    (split; [vm_compute; auto 8|]);
    (split; [intros H; try discriminate H; lia|]);
    (split; [intros H;
             first [ vm_compute in H; discriminate H
                   | split; [reflexivity | lia] ]
            | intros [H1 H2];
              first [ discriminate H1 | lia | vm_compute; reflexivity ]]).
Qed.

Lemma completion_values_witness :
  let documents :=
    [ Classifier.parse_document "resolution.docx" "Board Resolution";
      Classifier.parse_document "contract.docx" "Employment contract" ] in
  let r := generate_compliance_report documents (map validate_document documents) in
  (length (present_documents (completeness r)) <= 2)%nat /\
  overall_status r = "incomplete".
Proof.
  intros documents r.
  destruct (completion_values documents (map validate_document documents))
    as (_ & Hp & Hs).
  assert (H2 : (length (present_documents (completeness r)) <= 2)%nat)
    by (vm_compute; lia).
  split; [exact H2|]. apply Hs. split; [vm_compute; reflexivity | exact H2].
Defined.

Lemma observed_types_perm (documents documents' : list doc_info) :
  Permutation documents documents' ->
  observed_types documents = observed_types documents'.
Proof.
  intros Hperm. apply set_eq. intros x. rewrite !observed_types_spec.
  split; intros [Hne (doc & Hin & Hty)]; split; auto; exists doc; split; auto.
  - now apply (Permutation_in _ Hperm).
  - now apply (Permutation_in _ (Permutation_sym Hperm)).
Qed.

Lemma counts_perm (validations validations' : list validation) :
  Permutation validations validations' ->
  count_red_flags validations = count_red_flags validations' /\
  count_high validations = count_high validations'.
Proof.
  induction 1 as [|v l l' _ IH|v w l|l l' l'' _ IH1 _ IH2].
  - split; reflexivity.
  - rewrite !count_high_cons, !count_red_flags_cons. destruct IH. split; lia.
  - rewrite !count_high_cons, !count_red_flags_cons. split; lia.
  - destruct IH1, IH2. split; congruence.
Qed.

(** X9: the report does not depend on the order in which the documents and
    their validations are listed: every field is the same, except that the
    present documents of a general review, which the source lists from a
    set, are the same up to their order. *)
Theorem report_order_independent (documents documents' : list doc_info)
    (validations validations' : list validation) :
  Permutation documents documents' ->
  Permutation validations validations' ->
  let r := generate_compliance_report documents validations in
  let r' := generate_compliance_report documents' validations' in
  process_type r = process_type r' /\
  process_name r = process_name r' /\
  overall_status r = overall_status r' /\
  documents_uploaded (completeness r) = documents_uploaded (completeness r') /\
  required_documents (completeness r) = required_documents (completeness r') /\
  Permutation (present_documents (completeness r))
              (present_documents (completeness r')) /\
  (process_type r = "company_incorporation" ->
   present_documents (completeness r) = present_documents (completeness r')) /\
  missing_documents (completeness r) = missing_documents (completeness r') /\
  completion_percentage (completeness r)
  = completion_percentage (completeness r') /\
  issues_summary r = issues_summary r' /\
  recommendations r = recommendations r'.
Proof.
  intros Hd Hv r r'.
  assert (Heq : r = r').
  { subst r r'. unfold generate_compliance_report.
    rewrite (observed_types_perm _ _ Hd).
    destruct (counts_perm _ _ Hv) as [-> ->].
    unfold len. rewrite (Permutation_length Hd). reflexivity. }
  rewrite Heq. repeat split; reflexivity.
Qed.

Lemma report_order_independent_witness :
  let d1 := Classifier.parse_document "contract.docx" "Employment Contract" in
  let d2 := Classifier.parse_document "form.docx" "Application for Registration" in
  let r := generate_compliance_report [d1; d2]
             [validate_document d1; validate_document d2] in
  let r' := generate_compliance_report [d2; d1]
              [validate_document d2; validate_document d1] in
  process_type r = "general_review" /\
  overall_status r = overall_status r' /\
  issues_summary r = issues_summary r' /\
  Permutation (present_documents (completeness r))
              (present_documents (completeness r')).
Proof.
  intros d1 d2 r r'.
  destruct (report_order_independent [d1; d2] [d2; d1]
              [validate_document d1; validate_document d2]
              [validate_document d2; validate_document d1]
              (perm_swap _ _ _) (perm_swap _ _ _))
    as (_ & _ & Hst & _ & _ & Hpresent & _ & _ & _ & Hissues & _).
  split; [vm_compute; reflexivity|]. auto.
Defined.

(** ** The meaning of the red-flag patterns *)

Lemma lit_match_false (s t r : string) :
  PyRe.lit_match false s t = Some r <-> t = s +:+ r.
Proof.
  revert t; induction s as [|a s IH]; intros t; simpl.
  - split; [now intros [= ->] | now intros ->].
  - destruct t as [|b t]; [split; discriminate|].
    unfold PyRe.chr_eq. destruct (Ascii.eqb_spec a b) as [->|Hne].
    + rewrite IH. split; [now intros -> | now intros [= ->]].
    + split; [discriminate | intros [= H _]; congruence].
Qed.

Lemma lit_match_startswith (s t : string) :
  match PyRe.lit_match false s t with Some _ => true | None => false end
  = startswith s t.
Proof.
  revert t; induction s as [|a s IH]; intros t; simpl; [reflexivity|].
  destruct t as [|b t]; [reflexivity|]. unfold PyRe.chr_eq.
  destruct (Ascii.eqb a b); [apply IH | reflexivity].
Qed.

Lemma startswith_first_line (s t : string) :
  Terms.one_line s = true ->
  startswith s t = startswith s (Terms.first_line t).
Proof.
  revert t; induction s as [|a s IH]; intros t Hs; [reflexivity|].
  simpl in Hs. apply andb_true_iff in Hs as [Ha Hs].
  apply negb_true_iff in Ha.
  destruct t as [|b t]; [reflexivity|]. simpl.
  destruct (Ascii.eqb_spec b PyRe.newline) as [->|Hb].
  - now rewrite Ha.
  - simpl. destruct (Ascii.eqb a b); [now apply IH | reflexivity].
Qed.

(** [.*] then a literal: the literal occurs on the first line. *)
Lemma star_dot_contains (s t : string) :
  Terms.one_line s = true ->
  PyRe.star_match (PyRe.atom_ok false PyRe.Dot) (startswith s) t
  = contains s (Terms.first_line t).
Proof.
  intros Hs. induction t as [|c t IH].
  - simpl. destruct s; reflexivity.
  - cbn [PyRe.star_match PyRe.atom_ok Terms.first_line].
    destruct (Ascii.eqb_spec c PyRe.newline) as [->|Hc].
    + cbn [negb andb orb].
      rewrite (startswith_first_line s _ Hs). simpl.
      destruct (startswith s ""); reflexivity.
    + cbn [negb andb]. rewrite IH.
      cbn [contains]. rewrite (startswith_first_line s (String c t) Hs).
      cbn [Terms.first_line].
      destruct (Ascii.eqb_spec c PyRe.newline); [contradiction|].
      apply orb_comm.
Qed.

Lemma star_match_ext (ok : ascii -> bool) (k k' : string -> bool) (t : string) :
  (forall r, k r = k' r) -> PyRe.star_match ok k t = PyRe.star_match ok k' t.
Proof.
  intros H. induction t as [|c t IH]; simpl; [apply H|].
  now rewrite IH, H.
Qed.

Lemma any_then_first_line (s t : string) :
  Terms.one_line s = true ->
  PyRe.match_at false (any_then s) t (fun _ => true)
  = contains s (Terms.first_line t).
Proof.
  intros Hs. unfold any_then. cbn [PyRe.match_at].
  rewrite <- (star_dot_contains s t Hs). apply star_match_ext.
  intros r. apply lit_match_startswith.
Qed.

Lemma search_from_spec (ic : bool) (R : PyRe.regex) (t : string) :
  PyRe.search_from ic R t = true <->
  exists pre suf : string,
    t = pre +:+ suf /\ PyRe.match_at ic R suf (fun _ => true) = true.
Proof.
  induction t as [|c t IH]; simpl; rewrite orb_true_iff.
  - split.
    + intros [H|H]; [|discriminate]. exists "", "". auto.
    + intros (pre & suf & Heq & H). left.
      destruct pre; [|discriminate]. rewrite append_nil_l in Heq. now subst suf.
  - rewrite IH. split.
    + intros [H|(pre & suf & -> & H)].
      * exists "", (String c t). auto.
      * exists (String c pre), suf. auto.
    + intros (pre & suf & Heq & H). destruct pre as [|x pre].
      * rewrite append_nil_l in Heq. subst suf. now left.
      * rewrite append_cons in Heq. injection Heq as -> ->. right. eauto.
Qed.

(** A pattern that starts with a literal: the literal occurs, and the rest
    of the pattern matches what follows it. *)
Lemma search_literal_then (s : string) (R : PyRe.regex) (t : string) :
  PyRe.search_from false (PyRe.Seq (PyRe.Lit s) R) t = true <->
  exists pre rest : string,
    t = pre +:+ s +:+ rest /\
    PyRe.match_at false R rest (fun _ => true) = true.
Proof.
  rewrite search_from_spec. split.
  - intros (pre & suf & -> & H). cbn [PyRe.match_at] in H.
    destruct (PyRe.lit_match false s suf) as [rest|] eqn:Hl; [|discriminate].
    apply lit_match_false in Hl as ->. eauto.
  - intros (pre & rest & -> & H). exists pre, (s +:+ rest). split; [reflexivity|].
    cbn [PyRe.match_at].
    now rewrite (proj2 (lit_match_false s (s +:+ rest) rest) eq_refl).
Qed.

Lemma search_literal (s t : string) :
  PyRe.search_from false (PyRe.Lit s) t = contains s t.
Proof.
  induction t as [|c t IH]; cbn [PyRe.search_from PyRe.match_at contains].
  - f_equal. apply lit_match_startswith.
  - rewrite IH. f_equal. apply (lit_match_startswith s (String c t)).
Qed.

Lemma lowered_cons (c : ascii) (s : string) :
  Terms.lowered (String c s) = true <->
  is_ascii_char c = true /\ lower_ascii c = c /\ Terms.lowered s = true.
Proof.
  cbn [Terms.lowered]. rewrite !andb_true_iff, Ascii.eqb_eq. tauto.
Qed.

Lemma chr_eq_lowered (a b : ascii) :
  lower_ascii a = a -> lower_ascii b = b ->
  PyRe.chr_eq true a b = PyRe.chr_eq false a b.
Proof. intros Ha Hb. unfold PyRe.chr_eq. now rewrite Ha, Hb. Qed.

(** No character outside ASCII is at the front of a text that starts with
    a character of ASCII. *)
Lemma wide_rest_ascii (a b : ascii) (t : string) :
  is_ascii_char b = true -> PyRe.wide_rest a (String b t) = None.
Proof.
  intros Hb. destruct (ascii_char_narrow b Hb) as (_ & _ & H1 & H2 & H3).
  unfold PyRe.wide_rest, PyRe.wide_forms.
  destruct (Ascii.eqb (lower_ascii a) "i");
    [cbn [fold_right PyRe.strip_prefix]; now rewrite H1|].
  destruct (Ascii.eqb (lower_ascii a) "s");
    [cbn [fold_right PyRe.strip_prefix]; now rewrite H2|].
  destruct (Ascii.eqb (lower_ascii a) "k");
    [cbn [fold_right PyRe.strip_prefix]; now rewrite H3|].
  reflexivity.
Qed.

Lemma lit_match_lowered (s t : string) :
  Terms.lowered s = true -> Terms.lowered t = true ->
  PyRe.lit_match true s t = PyRe.lit_match false s t /\
  forall r, PyRe.lit_match false s t = Some r -> Terms.lowered r = true.
Proof.
  revert t; induction s as [|a s IH]; intros t Hs Ht; cbn [PyRe.lit_match].
  - split; [reflexivity | now intros r [= <-]].
  - destruct t as [|b t]; [split; [reflexivity | discriminate]|].
    apply lowered_cons in Hs as (_ & Ha & Hs).
    apply lowered_cons in Ht as (Hb' & Hb & Ht).
    rewrite (chr_eq_lowered a b Ha Hb).
    destruct (PyRe.chr_eq false a b); [now apply IH|].
    rewrite (wide_rest_ascii a b t Hb').
    split; [reflexivity | discriminate].
Qed.

Lemma star_match_lowered (a : PyRe.atom) (k k' : string -> bool) (t : string) :
  Lowered.atom_lowered a -> Terms.lowered t = true ->
  (forall r, Terms.lowered r = true -> k r = k' r) ->
  PyRe.star_match (PyRe.atom_ok true a) k t
  = PyRe.star_match (PyRe.atom_ok false a) k' t.
Proof.
  intros Ha Ht Hk. induction t as [|c t IH]; cbn [PyRe.star_match];
    [now apply Hk|].
  pose proof Ht as Ht'. apply lowered_cons in Ht' as (_ & Hc & Ht').
  rewrite (IH Ht'), (Hk _ Ht). f_equal. f_equal.
  destruct a as [x|]; [|reflexivity]. cbn [PyRe.atom_ok].
  now apply chr_eq_lowered.
Qed.

(** On ASCII text without upper-case letters a lower-case pattern matches
    the same with and without the [(?i)] flag. *)
Lemma match_at_lowered (R : PyRe.regex) :
  Lowered.regex_lowered R ->
  forall (t : string) (k k' : string -> bool),
    Terms.lowered t = true ->
    (forall r, Terms.lowered r = true -> k r = k' r) ->
    PyRe.match_at true R t k = PyRe.match_at false R t k'.
Proof.
  induction R as [s|a|a|R1 IH1 R2 IH2|R IH]; intros HR t k k' Ht Hk;
    cbn [PyRe.match_at].
  - destruct (lit_match_lowered s t HR Ht) as [-> Hr].
    destruct (PyRe.lit_match false s t) as [r|]; [|reflexivity].
    apply Hk. now apply Hr.
  - now apply star_match_lowered.
  - destruct t as [|c t]; [reflexivity|].
    apply lowered_cons in Ht as (_ & Hc & Ht).
    rewrite (star_match_lowered a k k' t HR Ht Hk). f_equal.
    destruct a as [x|]; [|reflexivity]. cbn [PyRe.atom_ok].
    now apply chr_eq_lowered.
  - destruct HR as [HR1 HR2].
    apply IH1; [exact HR1 | exact Ht | intros r Hr; now apply IH2].
  - rewrite (IH HR t (fun _ => true) (fun _ => true) Ht) by reflexivity.
    now rewrite (Hk _ Ht).
Qed.

Lemma search_from_lowered (R : PyRe.regex) (t : string) :
  Lowered.regex_lowered R -> Terms.lowered t = true ->
  PyRe.search_from true R t = PyRe.search_from false R t.
Proof.
  intros HR. induction t as [|c t IH]; intros Ht; cbn [PyRe.search_from].
  - now rewrite (match_at_lowered R HR "" (fun _ => true) (fun _ => true)).
  - pose proof Ht as Ht'. apply lowered_cons in Ht' as (_ & _ & Ht').
    rewrite (IH Ht').
    now rewrite (match_at_lowered R HR _ (fun _ => true) (fun _ => true) Ht).
Qed.

Lemma neg_lookahead_line (s rest : string) :
  Terms.one_line s = true ->
  PyRe.match_at false (PyRe.NegLookahead (any_then s)) rest (fun _ => true)
  = negb (contains s (Terms.first_line rest)).
Proof.
  intros Hs. cbn [PyRe.match_at]. rewrite (any_then_first_line s rest Hs).
  apply andb_true_r.
Qed.

(** [_+] before [.*] adds nothing: one underscore, then the literal further
    on the line. *)
Lemma plus_then_any (c : ascii) (s t : string) :
  Terms.one_line s = true -> Ascii.eqb c PyRe.newline = false ->
  PyRe.star_match (PyRe.atom_ok false (PyRe.Chr c))
    (fun t' => PyRe.match_at false (any_then s) t' (fun _ => true)) t
  = contains s (Terms.first_line t).
Proof.
  intros Hs Hc.
  rewrite (star_match_ext _ _ (fun t' => contains s (Terms.first_line t')))
    by (intros r; now apply any_then_first_line).
  induction t as [|y t IH]; [reflexivity|].
  cbn [PyRe.star_match PyRe.atom_ok]. rewrite IH. unfold PyRe.chr_eq.
  destruct (Ascii.eqb_spec c y) as [<-|Hy]; [|reflexivity].
  cbn [andb Terms.first_line]. rewrite Hc. cbn [contains].
  destruct (contains s (Terms.first_line t));
    destruct (startswith s (String c (Terms.first_line t))); reflexivity.
Qed.

Lemma search_plus_then_any (c : ascii) (s t : string) :
  Terms.one_line s = true -> Ascii.eqb c PyRe.newline = false ->
  PyRe.search_from false (PyRe.Seq (PyRe.Plus (PyRe.Chr c)) (any_then s)) t = true
  <-> Terms.occurs_before (String c "") t (occurs s).
Proof.
  intros Hs Hc. rewrite search_from_spec. unfold Terms.occurs_before. split.
  - intros (pre & suf & -> & H). cbn [PyRe.match_at] in H.
    destruct suf as [|x suf]; [discriminate|].
    apply andb_true_iff in H as [Hx H].
    cbn [PyRe.atom_ok] in Hx. unfold PyRe.chr_eq in Hx.
    apply Ascii.eqb_eq in Hx as <-.
    rewrite (plus_then_any c s suf Hs Hc) in H. apply contains_spec in H.
    exists pre, suf. split; [reflexivity | exact H].
  - intros (pre & rest & -> & H). apply contains_spec in H.
    exists pre, (String c rest). split; [reflexivity|].
    cbn [PyRe.match_at PyRe.atom_ok]. unfold PyRe.chr_eq.
    rewrite Ascii.eqb_refl. cbn [andb].
    now rewrite (plus_then_any c s rest Hs Hc).
Qed.

Lemma first_line_prefix (r : string) :
  exists tail : string, r = Terms.first_line r +:+ tail.
Proof.
  induction r as [|c r [tail IH]]; [now exists ""|]. cbn [Terms.first_line].
  destruct (Ascii.eqb c PyRe.newline).
  - now exists (String c r).
  - exists tail. rewrite append_cons. now rewrite <- IH.
Qed.

Lemma occurs_in_context (s pre marker rest : string) :
  occurs s (Terms.first_line rest) -> occurs s (pre +:+ marker +:+ rest).
Proof.
  intros (a & b & Hab). destruct (first_line_prefix rest) as [tail Htail].
  exists (pre +:+ marker +:+ a), (b +:+ tail).
  rewrite Htail at 1. rewrite Hab. now rewrite !append_assoc.
Qed.

(** The flag of a rule of the table is emitted exactly when one of the
    rule's patterns matches. *)
Lemma rule_flag_iff (text : string) (entry : string * rule) :
  In entry red_flag_patterns ->
  In (rule_flag (fst entry) (snd entry)) (scan text) <->
  exists p, In p (Validator.patterns (snd entry)) /\
            PyRe.search p (lower text) = true.
Proof.
  intros Hentry. rewrite scan_expected. unfold Spec.expected_flags. split.
  - intros H. apply in_app_or in H as [H|H].
    + apply table_flag_origin in H as (entry' & p & Hentry' & Hp & Hs & Heq).
      assert (entry' = entry).
      { simpl in Hentry, Hentry'.
        destruct Hentry as [<-|[<-|[<-|[]]]];
          destruct Hentry' as [<-|[<-|[<-|[]]]];
          try reflexivity; discriminate Heq. }
      subst entry'. eauto.
    + destruct (lacks_adgm_reference (lower text)); [|destruct H].
      destruct H as [H|[]]. simpl in Hentry.
      destruct Hentry as [<-|[<-|[<-|[]]]]; discriminate H.
  - intros (p & Hp & Hs). apply in_or_app. left.
    apply in_flat_map. exists entry. split; [exact Hentry|].
    unfold Spec.rule_flags. apply in_map_iff. exists p. split; [reflexivity|].
    apply filter_In. auto.
Qed.

Lemma governing_law_search (text : string) :
  is_ascii text = true ->
  PyRe.search governing_law_pattern (lower text) = true <->
  Terms.occurs_before "governing law" (lower text)
    (fun line => ~ occurs "adgm" line /\
                 ~ occurs "abu dhabi global market" line).
Proof.
  intros Hascii.
  unfold PyRe.search. cbn [PyRe.ignorecase PyRe.body governing_law_pattern].
  rewrite search_from_lowered;
    [|repeat split; reflexivity | now apply lowered_lower].
  rewrite search_literal_then. unfold Terms.occurs_before.
  split; intros (pre & rest & Heq & H); exists pre, rest; (split; [exact Heq|]).
  - cbn [PyRe.match_at] in H. rewrite !any_then_first_line in H by reflexivity.
    rewrite andb_true_r, andb_true_iff, !negb_true_iff, !contains_false in H.
    exact H.
  - cbn [PyRe.match_at]. rewrite !any_then_first_line by reflexivity.
    rewrite andb_true_r, andb_true_iff, !negb_true_iff, !contains_false.
    exact H.
Qed.

(** X10: the [jurisdiction_issues] flag is emitted exactly when the text,
    case ignored, names a UAE federal court, a Dubai court, federal law or
    emirates law, or names an Abu Dhabi court with no "global market" after
    it on the same line. *)
Theorem jurisdiction_rule_meaning (text : string) :
  In jurisdiction_flag (scan text) <->
  occurs_ci "uae federal court" text \/
  occurs_ci "dubai court" text \/
  Terms.occurs_before "abu dhabi court" (lower text)
    (fun line => ~ occurs "global market" line) \/
  occurs_ci "federal law" text \/
  occurs_ci "emirates law" text.
Proof.
  change jurisdiction_flag
    with (rule_flag (fst (nth 0 red_flag_patterns ("", Rule [] "" "")))
                    (snd (nth 0 red_flag_patterns ("", Rule [] "" "")))).
  rewrite rule_flag_iff by (simpl; tauto).
  cbn [nth red_flag_patterns snd Validator.patterns].
  unfold occurs_ci. rewrite <- !contains_spec.
  rewrite <- !search_literal.
  assert (H3 : PyRe.search_from false
                 (PyRe.Seq (PyRe.Lit "abu dhabi court")
                    (PyRe.NegLookahead (any_then "global market")))
                 (lower text) = true
               <-> Terms.occurs_before "abu dhabi court" (lower text)
                     (fun line => ~ occurs "global market" line)).
  { rewrite search_literal_then. unfold Terms.occurs_before.
    split; intros (pre & rest & Heq & H); exists pre, rest;
      (split; [exact Heq|]).
    - rewrite neg_lookahead_line in H by reflexivity.
      now apply negb_true_iff, contains_false in H.
    - rewrite neg_lookahead_line by reflexivity.
      now apply negb_true_iff, contains_false. }
  rewrite <- H3. split.
  - intros (p & Hp & Hs). simpl in Hp.
    destruct Hp as [<-|[<-|[<-|[<-|[<-|[]]]]]]; auto 6.
  - intros [H|[H|[H|[H|H]]]]; eexists (PyRe.Pattern _ false _);
      (split; [|exact H]); simpl; eauto 7.
Qed.

Lemma jurisdiction_rule_meaning_witness :
  In jurisdiction_flag (scan "Any dispute goes to the DUBAI COURT.") /\
  In jurisdiction_flag (scan "Emirates Law applies.").
Proof.
  split; apply jurisdiction_rule_meaning.
  - right. left. apply contains_spec. vm_compute. reflexivity.
  - right. right. right. right. apply contains_spec. vm_compute. reflexivity.
Defined.

(** X11: for an ASCII text, the table's [missing_adgm_reference] flag is
    emitted exactly when the text, case ignored, has a "governing law" with
    neither "adgm" nor "abu dhabi global market" after it on the same line.
    On such a text the [(?i)] flag of the pattern changes nothing, the text
    being lower-cased beforehand. *)
Theorem governing_law_rule_meaning (text : string) :
  is_ascii text = true ->
  (In governing_law_flag (scan text) <->
   Terms.occurs_before "governing law" (lower text)
     (fun line => ~ occurs "adgm" line /\
                  ~ occurs "abu dhabi global market" line)) /\
  PyRe.search governing_law_pattern (lower text)
  = PyRe.search_from false (PyRe.body governing_law_pattern) (lower text).
Proof.
  intros Hascii. split.
  - change governing_law_flag
      with (rule_flag (fst (nth 1 red_flag_patterns ("", Rule [] "" "")))
                      (snd (nth 1 red_flag_patterns ("", Rule [] "" "")))).
    rewrite rule_flag_iff by (simpl; tauto).
    rewrite <- (governing_law_search text Hascii).
    cbn [nth red_flag_patterns snd Validator.patterns]. split.
    + intros (p & [<-|[]] & Hs). exact Hs.
    + intros Hs. eexists. split; [now left | exact Hs].
  - unfold PyRe.search. cbn [PyRe.ignorecase governing_law_pattern].
    apply search_from_lowered; [repeat split; reflexivity|].
    now apply lowered_lower.
Qed.

Lemma governing_law_rule_meaning_witness :
  let text :=
    "GOVERNING LAW: the laws of England." +:+ PyText.newline_string
    +:+ "Seat: ADGM, Abu Dhabi." in
  is_ascii text = true /\ In governing_law_flag (scan text).
Proof.
  intros text.
  assert (Ha : is_ascii text = true) by (vm_compute; reflexivity).
  split; [exact Ha|].
  destruct (governing_law_rule_meaning text Ha) as [Hiff _]. apply Hiff.
  exists "", (": the laws of england." +:+ PyText.newline_string
              +:+ "seat: adgm, abu dhabi.").
  split; [vm_compute; reflexivity|].
  split; apply contains_false; vm_compute; reflexivity.
Defined.

(** X12: the [incomplete_signatures] flag is emitted exactly when the text,
    case ignored, has "[signature]" or "sign here", or a "signature" with
    "blank" after it on the same line, or an underscore with "signature"
    after it on the same line. *)
Theorem signature_rule_meaning (text : string) :
  In Terms.signature_flag (scan text) <->
  Terms.occurs_before "signature" (lower text) (occurs "blank") \/
  occurs_ci "[signature]" text \/
  occurs_ci "sign here" text \/
  Terms.occurs_before "_" (lower text) (occurs "signature").
Proof.
  change Terms.signature_flag
    with (rule_flag (fst (nth 2 red_flag_patterns ("", Rule [] "" "")))
                    (snd (nth 2 red_flag_patterns ("", Rule [] "" "")))).
  rewrite rule_flag_iff by (simpl; tauto).
  cbn [nth red_flag_patterns snd Validator.patterns].
  unfold occurs_ci. rewrite <- !contains_spec. rewrite <- !search_literal.
  rewrite <- (search_plus_then_any "_" "signature" (lower text))
    by reflexivity.
  assert (H1 : PyRe.search_from false
                 (PyRe.Seq (PyRe.Lit "signature") (any_then "blank"))
                 (lower text) = true
               <-> Terms.occurs_before "signature" (lower text) (occurs "blank")).
  { rewrite search_literal_then. unfold Terms.occurs_before.
    split; intros (pre & rest & Heq & H); exists pre, rest;
      (split; [exact Heq|]).
    - rewrite any_then_first_line in H by reflexivity.
      now apply contains_spec.
    - rewrite any_then_first_line by reflexivity. now apply contains_spec. }
  rewrite <- H1. split.
  - intros (p & Hp & Hs). simpl in Hp.
    destruct Hp as [<-|[<-|[<-|[<-|[]]]]]; auto 6.
  - intros [H|[H|[H|H]]]; eexists (PyRe.Pattern _ false _);
      (split; [|exact H]); simpl; eauto 7.
Qed.

Lemma signature_rule_meaning_witness :
  In Terms.signature_flag (scan "SIGN HERE: ") /\
  In Terms.signature_flag (scan "Signature of the director: BLANK").
Proof.
  split; apply signature_rule_meaning.
  - right. right. left. apply contains_spec. vm_compute. reflexivity.
  - left. exists "", " of the director: blank".
    split; [vm_compute; reflexivity|].
    apply contains_spec. vm_compute. reflexivity.
Defined.

(** X13: an ASCII text that names neither ADGM nor Abu Dhabi Global Market
    gets the category [missing_adgm_reference] once from the standing check,
    and a second time, from the table's rule, exactly when it has a
    "governing law": such a document counts for two high-severity issues. *)
Theorem governing_law_counted_twice (text : string) :
  is_ascii text = true ->
  ~ occurs_ci "adgm" text ->
  ~ occurs_ci "abu dhabi global market" text ->
  In adgm_reference_flag (scan text) /\
  (occurs_ci "governing law" text ->
     In governing_law_flag (scan text) /\
     Terms.count_category "missing_adgm_reference" (scan text) = 2%nat) /\
  (~ occurs_ci "governing law" text ->
     ~ In governing_law_flag (scan text) /\
     Terms.count_category "missing_adgm_reference" (scan text) = 1%nat).
Proof.
  intros Hascii Hadgm Hfull.
  assert (Hlack : lacks_adgm_reference (lower text) = true)
    by (apply lacks_adgm_reference_spec; auto).
  assert (Hsearch : PyRe.search governing_law_pattern (lower text) = true
                    <-> occurs_ci "governing law" text).
  { rewrite (governing_law_search text Hascii).
    unfold occurs_ci, Terms.occurs_before. split.
    - intros (pre & rest & Heq & _). exists pre, rest. exact Heq.
    - intros (pre & rest & Heq). exists pre, rest. split; [exact Heq|].
      split; intros H; [apply Hadgm | apply Hfull]; unfold occurs_ci;
        rewrite Heq; now apply occurs_in_context. }
  assert (Hflag : In governing_law_flag (scan text)
                  <-> PyRe.search governing_law_pattern (lower text) = true).
  { change governing_law_flag
      with (rule_flag (fst (nth 1 red_flag_patterns ("", Rule [] "" "")))
                      (snd (nth 1 red_flag_patterns ("", Rule [] "" "")))).
    rewrite rule_flag_iff by (simpl; tauto).
    cbn [nth red_flag_patterns snd Validator.patterns]. split.
    - intros (p & [<-|[]] & Hs). exact Hs.
    - intros Hs. eexists. split; [now left | exact Hs]. }
  destruct (scan_categories text) as (_ & Hcount & _). cbv zeta in Hcount.
  rewrite Hlack in Hcount.
  cbn [nth red_flag_patterns snd Validator.patterns List.filter] in Hcount.
  fold governing_law_pattern in Hcount.
  split.
  { rewrite scan_expected. unfold Spec.expected_flags. rewrite Hlack.
    apply in_or_app. right. now left. }
  split.
  - intros Hgl. apply Hsearch in Hgl. split; [now apply Hflag|].
    rewrite Hgl in Hcount. exact Hcount.
  - intros Hgl. rewrite <- Hsearch in Hgl. split; [now rewrite Hflag|].
    destruct (PyRe.search governing_law_pattern (lower text));
      [now contradiction Hgl | exact Hcount].
Qed.

Lemma governing_law_counted_twice_witness :
  let text := "GOVERNING LAW: the laws of England apply." in
  is_ascii text = true /\
  In adgm_reference_flag (scan text) /\
  In governing_law_flag (scan text) /\
  Terms.count_category "missing_adgm_reference" (scan text) = 2%nat.
Proof.
  intros text.
  assert (H0 : is_ascii text = true) by (vm_compute; reflexivity).
  assert (H1 : ~ occurs_ci "adgm" text)
    by (apply contains_false; vm_compute; reflexivity).
  assert (H2 : ~ occurs_ci "abu dhabi global market" text)
    by (apply contains_false; vm_compute; reflexivity).
  assert (H3 : occurs_ci "governing law" text)
    by (apply contains_spec; vm_compute; reflexivity).
  destruct (governing_law_counted_twice text H0 H1 H2) as (Ha & Hg & _).
  destruct (Hg H3) as [Hf Hc]. auto.
Defined.

(** ** The status message *)

Lemma display_char (c : ascii) (previous_is_cased : bool) :
  (PyText.is_lower c || Ascii.eqb c "_") = true ->
  let spaced := if Ascii.eqb c "_" then " "%char else c in
  let shown :=
    if PyText.is_upper spaced || PyText.is_lower spaced
    then (if previous_is_cased then lower_ascii spaced
          else PyText.upper_ascii spaced)
    else spaced in
  (if Ascii.eqb (lower_ascii shown) " " then "_"%char else lower_ascii shown) = c
  /\ (PyText.is_upper spaced || PyText.is_lower spaced) = PyText.is_lower c
  /\ is_ascii_char shown = true.
Proof.
  destruct c as [[] [] [] [] [] [] [] []]; destruct previous_is_cased;
    intros H; try discriminate H; repeat split; reflexivity.
Qed.

Lemma display_name_inverse (s : string) (previous_is_cased : bool) :
  Terms.is_identifier s = true ->
  PyText.replace_char " " "_"
    (lower (PyText.title_go previous_is_cased (PyText.replace_char "_" " " s)))
  = s.
Proof.
  revert previous_is_cased. induction s as [|c s IH]; intros b Hs; [reflexivity|].
  cbn [Terms.is_identifier] in Hs. apply andb_true_iff in Hs as [Hc Hs].
  destruct (display_char c b Hc) as (Hshown & Hcased & Hascii).
  cbv zeta in Hshown, Hcased, Hascii.
  cbn [PyText.replace_char PyText.title_go].
  destruct (PyText.is_upper (if Ascii.eqb c "_" then " "%char else c)
            || PyText.is_lower (if Ascii.eqb c "_" then " "%char else c));
    rewrite lower_cons by exact Hascii;
    cbn [PyText.replace_char]; rewrite Hshown, IH by exact Hs;
    reflexivity.
Qed.

(** X14: the name shown for a missing document keeps all the information
    of its identifier: for an identifier of lower-case letters and
    underscores, lower-casing the shown name and putting the underscores
    back gives the identifier again, so two such identifiers with the same
    shown name are the same. *)
Theorem display_name_faithful (doc doc' : string) :
  Terms.is_identifier doc = true ->
  Terms.is_identifier doc' = true ->
  PyText.replace_char " " "_" (lower (Agent.display_name doc)) = doc /\
  (Agent.display_name doc = Agent.display_name doc' -> doc = doc').
Proof.
  intros Hd Hd'. unfold Agent.display_name, PyText.title.
  split; [now apply display_name_inverse|].
  intros Heq. rewrite <- (display_name_inverse doc false Hd).
  rewrite <- (display_name_inverse doc' false Hd'). now rewrite Heq.
Qed.

Lemma display_name_faithful_witness :
  Agent.display_name "register_members_directors" = "Register Members Directors"
  /\ PyText.replace_char " " "_"
       (lower (Agent.display_name "register_members_directors"))
     = "register_members_directors".
Proof.
  split; [vm_compute; reflexivity|].
  apply (display_name_faithful "register_members_directors" "ubo_declaration");
    reflexivity.
Defined.

Lemma determine_status_known (c : float) (h : Z) (missing : list string) :
  In (determine_status c h missing) statuses.
Proof.
  unfold determine_status, statuses.
  destruct (PrimFloat.ltb c 60); [simpl; tauto|].
  destruct (h >? 2)%Z; [simpl; tauto|].
  destruct ((h >? 0)%Z || is_nonempty missing); simpl; tauto.
Qed.

(** X15: the icon of the status message.  The status of a report always has
    an icon of its own in the table, so the fallback of the lookup is never
    used for it, and two reports with the same icon have the same status. *)
Theorem status_icon_of_report (documents documents' : list doc_info)
    (validations validations' : list validation) :
  let r := generate_compliance_report documents validations in
  let r' := generate_compliance_report documents' validations' in
  In (overall_status r, Agent.status_icon (overall_status r)) Agent.status_icons /\
  Agent.status_icon (overall_status r) <> Agent.status_icon "completed" /\
  (Agent.status_icon (overall_status r) = Agent.status_icon (overall_status r') ->
   overall_status r = overall_status r').
Proof.
  intros r r'.
  destruct (report_cases documents validations) as [Hst _].
  destruct (report_cases documents' validations') as [Hst' _].
  fold r in Hst. fold r' in Hst'. rewrite Hst, Hst'.
  pose proof (determine_status_known
                (completion_percentage (completeness r))
                (count_high validations)
                (missing_documents (completeness r))) as H.
  pose proof (determine_status_known
                (completion_percentage (completeness r'))
                (count_high validations')
                (missing_documents (completeness r'))) as H'.
  simpl in H, H'.
  destruct H as [<-|[<-|[<-|[<-|[]]]]];
    (split; [vm_compute; tauto|]); (split; [vm_compute; discriminate|]);
    destruct H' as [<-|[<-|[<-|[<-|[]]]]];
    intros Heq; try reflexivity; vm_compute in Heq; discriminate Heq.
Qed.

(** ** Question answering *)

Lemma response_parts_cases (query : string) :
  let ql := lower query in
  let part (b : bool) (p : string) : list string := if b then [p] else [] in
  SimpleRAG.response_parts query
  = part (SimpleRAG.any_in ["incorporation"] ql)
         (SimpleRAG.topic_section "incorporation" SimpleRAG.knowledge_incorporation)
    ++ part (SimpleRAG.any_in ["jurisdiction"] ql)
         (SimpleRAG.topic_section "jurisdiction" SimpleRAG.knowledge_jurisdiction)
    ++ part (SimpleRAG.any_in ["ubo"] ql)
         (SimpleRAG.topic_section "ubo" SimpleRAG.knowledge_ubo)
    ++ part (SimpleRAG.any_in ["employment"] ql)
         (SimpleRAG.topic_section "employment" SimpleRAG.knowledge_employment)
    ++ part (SimpleRAG.any_in SimpleRAG.incorporation_words ql)
         SimpleRAG.knowledge_incorporation
    ++ part (SimpleRAG.any_in SimpleRAG.jurisdiction_words ql)
         SimpleRAG.knowledge_jurisdiction
    ++ part (SimpleRAG.any_in SimpleRAG.ubo_words ql) SimpleRAG.knowledge_ubo
    ++ part (SimpleRAG.any_in SimpleRAG.employment_words ql)
         SimpleRAG.knowledge_employment.
Proof.
  intros ql part. subst part. unfold SimpleRAG.response_parts. fold ql.
  unfold SimpleRAG.topic_parts, SimpleRAG.keyword_check.
  cbn [fold_left SimpleRAG.knowledge fst snd].
  change (PyText.split "incorporation") with ["incorporation"].
  change (PyText.split "jurisdiction") with ["jurisdiction"].
  change (PyText.split "ubo") with ["ubo"].
  change (PyText.split "employment") with ["employment"].
  generalize (SimpleRAG.any_in ["incorporation"] ql) as b1.
  generalize (SimpleRAG.any_in ["jurisdiction"] ql) as b2.
  generalize (SimpleRAG.any_in ["ubo"] ql) as b3.
  generalize (SimpleRAG.any_in ["employment"] ql) as b4.
  generalize (SimpleRAG.any_in SimpleRAG.incorporation_words ql) as t1.
  generalize (SimpleRAG.any_in SimpleRAG.jurisdiction_words ql) as t2.
  generalize (SimpleRAG.any_in SimpleRAG.ubo_words ql) as t3.
  generalize (SimpleRAG.any_in SimpleRAG.employment_words ql) as t4.
  intros [] [] [] [] [] [] [] []; vm_compute; reflexivity.
Qed.

Lemma any_in_spec (words : list string) (query : string) :
  SimpleRAG.any_in words (lower query) = true <->
  exists word, In word words /\ occurs_ci word query.
Proof.
  unfold SimpleRAG.any_in, occurs_ci. rewrite existsb_exists.
  split; intros (w & Hw & H); exists w; (split; [exact Hw|]);
    now apply contains_spec.
Qed.

Lemma any_in_false (words : list string) (query : string) :
  SimpleRAG.any_in words (lower query) = false <->
  Forall (fun word => ~ occurs_ci word query) words.
Proof.
  rewrite Forall_forall. split.
  - intros H w Hw Hocc. apply list_elem_of_In in Hw.
    assert (Ht : SimpleRAG.any_in words (lower query) = true)
      by (apply any_in_spec; eauto).
    congruence.
  - intros H. destruct (SimpleRAG.any_in words (lower query)) eqn:Ht;
      [|reflexivity].
    apply any_in_spec in Ht as (w & Hw & Hocc).
    exfalso. exact (H w (proj2 (list_elem_of_In _ _) Hw) Hocc).
Qed.

Lemma response_starts_differently (parts : list string) (query : string) :
  "Based on ADGM regulations:" +:+ SimpleRAG.nl +:+ SimpleRAG.nl
  +:+ PyText.join SimpleRAG.nl parts +:+ SimpleRAG.note
  <> SimpleRAG.default_response query.
Proof.
  unfold SimpleRAG.default_response, SimpleRAG.default_prefix.
  rewrite !append_cons. discriminate.
Qed.

(** X16: the simplified system answers with its fallback text, which quotes
    the question, exactly when the question, case ignored, contains none of
    the twelve trigger words. *)
Theorem simple_fallback_iff (query context : string) :
  SimpleRAG.generate_response query context = SimpleRAG.default_response query
  <-> Forall (fun word => ~ occurs_ci word query) SimpleRAG.trigger_words.
Proof.
  unfold SimpleRAG.trigger_words. rewrite !Forall_app, <- !any_in_false.
  unfold SimpleRAG.generate_response.
  pose proof (response_parts_cases query) as Hparts. cbv zeta in Hparts.
  assert (Hsub : forall w rest,
             SimpleRAG.any_in (w :: rest) (lower query) = false ->
             SimpleRAG.any_in [w] (lower query) = false).
  { intros w rest H. unfold SimpleRAG.any_in in *. simpl in *.
    apply orb_false_iff in H as [-> _]. reflexivity. }
  split.
  - intros H.
    destruct (SimpleRAG.response_parts query) as [|p parts] eqn:Hp.
    + symmetry in Hparts.
      destruct (SimpleRAG.any_in SimpleRAG.incorporation_words (lower query));
        [destruct (SimpleRAG.any_in ["incorporation"] (lower query));
         destruct (SimpleRAG.any_in ["jurisdiction"] (lower query));
         destruct (SimpleRAG.any_in ["ubo"] (lower query));
         destruct (SimpleRAG.any_in ["employment"] (lower query));
         discriminate Hparts|].
      destruct (SimpleRAG.any_in SimpleRAG.jurisdiction_words (lower query));
        [destruct (SimpleRAG.any_in ["incorporation"] (lower query));
         destruct (SimpleRAG.any_in ["jurisdiction"] (lower query));
         destruct (SimpleRAG.any_in ["ubo"] (lower query));
         destruct (SimpleRAG.any_in ["employment"] (lower query));
         discriminate Hparts|].
      destruct (SimpleRAG.any_in SimpleRAG.ubo_words (lower query));
        [destruct (SimpleRAG.any_in ["incorporation"] (lower query));
         destruct (SimpleRAG.any_in ["jurisdiction"] (lower query));
         destruct (SimpleRAG.any_in ["ubo"] (lower query));
         destruct (SimpleRAG.any_in ["employment"] (lower query));
         discriminate Hparts|].
      destruct (SimpleRAG.any_in SimpleRAG.employment_words (lower query));
        [destruct (SimpleRAG.any_in ["incorporation"] (lower query));
         destruct (SimpleRAG.any_in ["jurisdiction"] (lower query));
         destruct (SimpleRAG.any_in ["ubo"] (lower query));
         destruct (SimpleRAG.any_in ["employment"] (lower query));
         discriminate Hparts|].
      auto.
    + exfalso. revert H. cbn [is_nonempty]. apply response_starts_differently.
  - intros (H1 & H2 & H3 & H4).
    rewrite (Hsub _ _ H1), (Hsub _ _ H2), (Hsub _ _ H3), (Hsub _ _ H4),
      H1, H2, H3, H4 in Hparts.
    simpl in Hparts. rewrite Hparts. reflexivity.
Qed.

Lemma simple_fallback_iff_witness :
  SimpleRAG.generate_response "Which COURT hears a dispute?" ""
  <> SimpleRAG.default_response "Which COURT hears a dispute?" /\
  SimpleRAG.generate_response "Where is the office?" ""
  = SimpleRAG.default_response "Where is the office?".
Proof.
  split.
  - intros H. apply simple_fallback_iff in H.
    rewrite Forall_forall in H.
    apply (H "court").
    + apply list_elem_of_In. cbn [SimpleRAG.trigger_words
        SimpleRAG.incorporation_words SimpleRAG.jurisdiction_words app In].
      tauto.
    + apply contains_spec. vm_compute. reflexivity.
  - apply simple_fallback_iff.
    repeat (constructor; [apply contains_false; vm_compute; reflexivity|]).
    constructor.
Defined.

(** X17: the guard of the four keyword checks never holds a text back: it
    looks for the topic's key among the parts, which are texts.  So the
    knowledge of a topic is in the answer whenever one of the topic's trigger
    words occurs, and it is there twice, once under its heading and once
    bare, when the topic's own name occurs. *)
Theorem simple_knowledge_repeated (query : string) :
  let parts := SimpleRAG.response_parts query in
  (forall key words,
     In (key, words)
        [ ("incorporation", SimpleRAG.incorporation_words);
          ("jurisdiction", SimpleRAG.jurisdiction_words);
          ("ubo", SimpleRAG.ubo_words);
          ("employment", SimpleRAG.employment_words) ] ->
     (exists word, In word words /\ occurs_ci word query) ->
     In (SimpleRAG.knowledge_get key) parts) /\
  (forall topic content,
     In (topic, content) SimpleRAG.knowledge ->
     occurs_ci topic query ->
     In (SimpleRAG.topic_section topic content) parts /\ In content parts /\
     SimpleRAG.topic_section topic content <> content) /\
  (length parts <= 8)%nat.
Proof.
  intros parts. subst parts. rewrite response_parts_cases. cbv zeta.
  assert (Hone : forall w, occurs_ci w query ->
                   SimpleRAG.any_in [w] (lower query) = true)
    by (intros w H; apply any_in_spec; exists w; split; [now left | exact H]).
  assert (Hfirst : forall w rest, occurs_ci w query ->
                     SimpleRAG.any_in (w :: rest) (lower query) = true)
    by (intros w rest H; apply any_in_spec; exists w; split; [now left | exact H]).
  split; [|split].
  - intros key words Hkey Hword. apply any_in_spec in Hword.
    simpl in Hkey.
    destruct Hkey as [[= <- <-]|[[= <- <-]|[[= <- <-]|[[= <- <-]|[]]]]];
      rewrite Hword; rewrite !in_app_iff; simpl; tauto.
  - intros topic content Hin Hocc. simpl in Hin.
    destruct Hin as [[= <- <-]|[[= <- <-]|[[= <- <-]|[[= <- <-]|[]]]]];
      rewrite (Hone _ Hocc);
      [ unfold SimpleRAG.incorporation_words
      | unfold SimpleRAG.jurisdiction_words
      | unfold SimpleRAG.ubo_words
      | unfold SimpleRAG.employment_words ];
      rewrite (Hfirst _ _ Hocc); rewrite !in_app_iff;
      (split; [simpl; tauto|]); (split; [simpl; tauto|]);
      vm_compute; discriminate.
  - rewrite !length_app.
    repeat match goal with
           | |- context [if ?b then _ else _] => destruct b
           end; simpl; lia.
Qed.

Lemma simple_knowledge_repeated_witness :
  let parts := SimpleRAG.response_parts "What does a UBO declaration need?" in
  In (SimpleRAG.topic_section "ubo" SimpleRAG.knowledge_ubo) parts /\
  In SimpleRAG.knowledge_ubo parts.
Proof.
  intros parts.
  destruct (simple_knowledge_repeated "What does a UBO declaration need?")
    as (_ & H & _).
  destruct (H "ubo" SimpleRAG.knowledge_ubo) as (H1 & H2 & _).
  - simpl. tauto.
  - apply contains_spec. vm_compute. reflexivity.
  - split; assumption.
Defined.

(** X18: [answer_question] returns its request for a question exactly when
    the question is empty or all white space; any other question gets the
    answer of the system. *)
Theorem answer_question_blank (question context : string) :
  (SimpleRAG.answer_question question context = SimpleRAG.empty_question_message
   <-> Terms.all_space question = true) /\
  (Terms.all_space question = false ->
   SimpleRAG.answer_question question context
   = SimpleRAG.generate_response question context).
Proof.
  unfold SimpleRAG.answer_question. rewrite lstrip_all_space.
  destruct (Terms.all_space question).
  { split; [tauto | discriminate]. }
  split; [|reflexivity].
  split; [|discriminate]. intros H. exfalso. revert H.
  unfold SimpleRAG.generate_response.
  destruct (is_nonempty (SimpleRAG.response_parts question)).
  - rewrite !append_cons. discriminate.
  - unfold SimpleRAG.default_response, SimpleRAG.default_prefix.
    rewrite !append_cons. discriminate.
Qed.

Lemma answer_question_blank_witness :
  let blank := String "009" (String " " (String "010" "  ")) in
  SimpleRAG.answer_question blank "" = SimpleRAG.empty_question_message /\
  SimpleRAG.answer_question " ? " "" = SimpleRAG.generate_response " ? " "".
Proof.
  intros blank. split.
  - apply (answer_question_blank blank ""). vm_compute. reflexivity.
  - apply (answer_question_blank " ? " ""). vm_compute. reflexivity.
Defined.

Lemma add_entries_head (entries : list RAG.entry) (c : ascii) (r : string) :
  exists r' : string, fold_left RAG.add_entry entries (String c r) = String c r'.
Proof.
  revert r; induction entries as [|e entries IH]; intros r; [now exists r|].
  cbn [fold_left]. unfold RAG.add_entry at 2. rewrite !append_cons. apply IH.
Qed.

Lemma filter_nil_iff {A : Type} (f : A -> bool) (l : list A) :
  List.filter f l = [] <-> forall x, In x l -> f x = false.
Proof.
  split.
  - intros H x Hx. destruct (f x) eqn:Hf; [|reflexivity].
    assert (Hin : In x (List.filter f l)) by (apply filter_In; auto).
    rewrite H in Hin. destruct Hin.
  - intros H. induction l as [|a l IH]; [reflexivity|]. simpl.
    rewrite (H a (or_introl eq_refl)). apply IH. intros x Hx. apply H. now right.
Qed.

(** X19: for an ASCII question, the knowledge-base system answers with its
    default text exactly when no word of the lower-cased question that has
    more than three characters occurs in the lower-cased title or content
    of an entry.  A question whose words all have at most three characters
    therefore always gets the default text. *)
Theorem rag_default_iff (query context : string) :
  is_ascii query = true ->
  (RAG.generate_response query context = RAG._default_response query
   <-> forall word e,
         In word (PyText.split (lower query)) ->
         (3 < PyText.char_count word)%nat ->
         In e RAG.knowledge_base ->
         ~ occurs word (lower (RAG.content e)) /\
         ~ occurs word (lower (RAG.title e))) /\
  (Forall (fun word => (PyText.char_count word <= 3)%nat) (PyText.split (lower query)) ->
   RAG.generate_response query context = RAG._default_response query).
Proof.
  intros _.
  assert (Hiff : RAG.generate_response query context = RAG._default_response query
                 <-> RAG.relevant_entries query = []).
  { unfold RAG.generate_response.
    destruct (RAG.relevant_entries query) as [|e es]; [tauto|].
    cbn [Validator.is_nonempty negb]. split; [|discriminate].
    intros H. exfalso. revert H.
    destruct (add_entries_head (take 2 (e :: es)) "B"
                ("ased on ADGM regulations, here's what you need to know:"
                 +:+ RAG.nl +:+ RAG.nl)) as [r' Hr'].
    change (String "B"
              ("ased on ADGM regulations, here's what you need to know:"
               +:+ RAG.nl +:+ RAG.nl))
      with ("Based on ADGM regulations, here's what you need to know:"
            +:+ RAG.nl +:+ RAG.nl) in Hr'.
    rewrite Hr'. unfold RAG._default_response, RAG.default_prefix.
    rewrite !append_cons. discriminate. }
  assert (Hrel : RAG.relevant_entries query = []
                 <-> forall word e,
                       In word (PyText.split (lower query)) ->
                       (3 < PyText.char_count word)%nat ->
                       In e RAG.knowledge_base ->
                       ~ occurs word (lower (RAG.content e)) /\
                       ~ occurs word (lower (RAG.title e))).
  { unfold RAG.relevant_entries. rewrite filter_nil_iff. split.
    - intros H word e Hword Hlen He. specialize (H e He).
      unfold RAG.is_relevant in H.
      rewrite <- !contains_false, <- orb_false_iff.
      destruct (contains word (lower (RAG.content e))
                || contains word (lower (RAG.title e))) eqn:Hc; [|reflexivity].
      rewrite <- H. symmetry. apply existsb_exists. exists word.
      split; [|exact Hc]. unfold RAG.keywords. apply filter_In.
      split; [exact Hword|]. now apply Nat.ltb_lt.
    - intros H e He. unfold RAG.is_relevant.
      destruct (existsb _ _) eqn:Hex; [|reflexivity].
      apply existsb_exists in Hex as (word & Hword & Hc).
      unfold RAG.keywords in Hword. apply filter_In in Hword as [Hword Hlen].
      apply Nat.ltb_lt in Hlen.
      destruct (H word e Hword Hlen He) as [H1 H2].
      apply contains_false in H1, H2. rewrite H1, H2 in Hc. discriminate. }
  split; [now rewrite Hiff, Hrel|].
  intros Hshort. apply Hiff, Hrel. intros word e Hword Hlen _.
  rewrite Forall_forall in Hshort.
  specialize (Hshort word (proj2 (list_elem_of_In _ _) Hword)). lia.
Qed.

Lemma rag_default_iff_witness :
  is_ascii "UBO ?" = true /\
  RAG.generate_response "UBO ?" "" = RAG._default_response "UBO ?" /\
  is_ascii "Who is a BENEFICIAL owner?" = true /\
  RAG.generate_response "Who is a BENEFICIAL owner?" ""
  <> RAG._default_response "Who is a BENEFICIAL owner?".
Proof.
  assert (H1 : is_ascii "UBO ?" = true) by reflexivity.
  assert (H2 : is_ascii "Who is a BENEFICIAL owner?" = true) by reflexivity.
  split; [exact H1|]. split; [|split; [exact H2|]].
  - apply (rag_default_iff "UBO ?" "" H1). vm_compute. repeat constructor.
  - intros H.
    destruct (rag_default_iff "Who is a BENEFICIAL owner?" "" H2) as [Hiff _].
    destruct (proj1 Hiff H "beneficial"
                (RAG.Entry "adgm_003" "UBO Declaration Requirements"
                   RAG.content_adgm_003 "ubo")) as [Hcontent _].
    + vm_compute. tauto.
    + vm_compute. lia.
    + cbn [RAG.knowledge_base In]. tauto.
    + apply Hcontent. apply contains_spec. vm_compute. reflexivity.
Defined.

(** X20: [get_relevant_knowledge] has keywords for four document types only:
    it returns entries for those four, and nothing for any other type, the
    classifier's [incorporation_form] and [unknown] included. *)
Theorem relevant_knowledge_types (document_type : string) :
  (RAG.get_relevant_knowledge document_type = []
   <-> ~ In document_type (map fst RAG.type_keywords)) /\
  (forall e, In e (RAG.get_relevant_knowledge document_type) ->
             In e RAG.knowledge_base) /\
  RAG.get_relevant_knowledge "incorporation_form" = [] /\
  RAG.get_relevant_knowledge "unknown" = [].
Proof.
  split; [|split; [|split; vm_compute; reflexivity]].
  - unfold RAG.get_relevant_knowledge, RAG.type_keywords_get.
    cbn [List.find RAG.type_keywords fst snd map].
    destruct (String.eqb_spec "articles_of_association" document_type) as [<-|H1].
    { split; [vm_compute; discriminate|]. intros H. exfalso. apply H.
      cbn [In]. tauto. }
    destruct (String.eqb_spec "board_resolution" document_type) as [<-|H2].
    { split; [vm_compute; discriminate|]. intros H. exfalso. apply H.
      cbn [In]. tauto. }
    destruct (String.eqb_spec "ubo_declaration" document_type) as [<-|H3].
    { split; [vm_compute; discriminate|]. intros H. exfalso. apply H.
      cbn [In]. tauto. }
    destruct (String.eqb_spec "employment_contract" document_type) as [<-|H4].
    { split; [vm_compute; discriminate|]. intros H. exfalso. apply H.
      cbn [In]. tauto. }
    split; [simpl; tauto | intros _; vm_compute; reflexivity].
  - intros e He. unfold RAG.get_relevant_knowledge in He.
    now apply filter_In in He as [He _].
Qed.

(** ** More on the classifier and the report *)

Lemma occurs_ci_context (kw pre text post : string) :
  is_ascii pre = true -> is_ascii text = true ->
  occurs_ci kw text -> occurs_ci kw (pre +:+ text +:+ post).
Proof.
  unfold occurs_ci. intros Hpre Htext (a & b & H).
  rewrite (lower_app pre _ Hpre), (lower_app text _ Htext), H.
  exists (lower pre +:+ a), (b +:+ lower post). now rewrite !append_assoc.
Qed.

Lemma score_positive_iff (kws : list string) (text : string) :
  (0 < score kws (lower text))%Z <-> exists kw, In kw kws /\ occurs_ci kw text.
Proof.
  induction kws as [|kw kws IH].
  - unfold score. simpl. split; [lia | intros (kw & [] & _)].
  - rewrite score_cons. pose proof (score_nonneg kws (lower text)) as Hnn.
    destruct (contains kw (lower text)) eqn:Hc.
    + split; [|lia]. intros _. exists kw. split; [now left|].
      now apply contains_spec.
    + rewrite Z.add_0_l, IH. split.
      * intros (k & Hk & Hocc). exists k. split; [now right | exact Hocc].
      * intros (k & [<-|Hk] & Hocc); [|eauto].
        apply contains_spec in Hocc. unfold occurs_ci in *. congruence.
Qed.

Lemma identify_unknown_iff (text : string) :
  _identify_document_type text = "unknown" <->
  forall e kw, In e Classifier.patterns -> In kw (snd e) -> ~ occurs_ci kw text.
Proof.
  unfold _identify_document_type.
  pose proof (build_scores_filter (lower text)) as Hf.
  set (scores := build_scores (lower text)) in *.
  assert (Hnil : scores = [] <->
                 forall e kw, In e Classifier.patterns -> In kw (snd e) ->
                              ~ occurs_ci kw text).
  { rewrite Hf, filter_nil_iff. split.
    - intros H e kw He Hkw Hocc.
      specialize (H (scored (lower text) e) (in_map _ _ _ He)).
      unfold scored in H. cbn [snd] in H.
      assert (0 < score (snd e) (lower text))%Z
        by (apply score_positive_iff; eauto).
      destruct (Z.gtb_spec (score (snd e) (lower text)) 0); [discriminate|lia].
    - intros H x Hx. apply in_map_iff in Hx as (e & <- & He).
      unfold scored. cbn [snd].
      destruct (Z.gtb_spec (score (snd e) (lower text)) 0) as [Hpos|]; [|reflexivity].
      apply score_positive_iff in Hpos as (kw & Hkw & Hocc).
      exfalso. exact (H e kw He Hkw Hocc). }
  rewrite <- Hnil.
  destruct (map fst scores) as [|k ks] eqn:Hk.
  - apply map_eq_nil in Hk. tauto.
  - split; [|intros ->; discriminate]. intros Hu. exfalso.
    destruct (py_max_from_split (scores_get scores) k ks) as (l1 & l2 & Heq & _).
    rewrite Hu in Heq.
    assert (Hin : In "unknown" (map fst scores))
      by (rewrite Hk, Heq; apply in_elt).
    rewrite Hf in Hin. apply in_map_iff in Hin as (e & He & Hin).
    apply filter_In in Hin as [Hin _].
    apply in_map_iff in Hin as (p & Hp & Hin).
    rewrite <- Hp in He. unfold scored in He. cbn [fst] in He.
    simpl in Hin.
    destruct Hin as [<-|[<-|[<-|[<-|[<-|[]]]]]]; discriminate He.
Qed.

(** X21: a text is classified [unknown] exactly when, case ignored, it
    contains no keyword of the catalog; so an ASCII text with a known type
    keeps a known type, possibly another one, when ASCII text is added
    before it and any text after it. *)
Theorem known_type_stable (pre text post : string) :
  is_ascii pre = true ->
  is_ascii text = true ->
  (_identify_document_type text = "unknown" <->
   forall e kw, In e Classifier.patterns -> In kw (snd e) -> ~ occurs_ci kw text)
  /\ (_identify_document_type text <> "unknown" ->
      _identify_document_type (pre +:+ text +:+ post) <> "unknown").
Proof.
  intros Hpre Htext. split; [apply identify_unknown_iff|].
  intros Hknown Hun. apply Hknown. apply identify_unknown_iff.
  intros e kw He Hkw Hocc.
  apply (proj1 (identify_unknown_iff _) Hun e kw He Hkw).
  now apply occurs_ci_context.
Qed.

Lemma known_type_stable_witness :
  is_ascii "SCHEDULE 1. " = true /\
  is_ascii "BOARD RESOLUTION" = true /\
  _identify_document_type "BOARD RESOLUTION" <> "unknown" /\
  _identify_document_type
    ("SCHEDULE 1. " +:+ "BOARD RESOLUTION" +:+ " (SIGNED IN MÜNCHEN)")
  <> "unknown".
Proof.
  assert (H1 : is_ascii "SCHEDULE 1. " = true) by reflexivity.
  assert (H2 : is_ascii "BOARD RESOLUTION" = true) by reflexivity.
  assert (H3 : _identify_document_type "BOARD RESOLUTION" <> "unknown")
    by (vm_compute; discriminate).
  split; [exact H1|]. split; [exact H2|]. split; [exact H3|].
  apply (known_type_stable "SCHEDULE 1. " "BOARD RESOLUTION"
           " (SIGNED IN MÜNCHEN)" H1 H2).
  exact H3.
Defined.

(** X22: a document of type [unknown], or with no type, is left out of the
    completeness check: adding it to a batch changes the number of
    documents uploaded and nothing else of the report, the order in which a
    general review lists its present documents apart. *)
Theorem unknown_document_ignored (documents : list doc_info) (doc : doc_info)
    (validations : list validation) :
  default "unknown" (document_type doc) = "unknown" ->
  let before := generate_compliance_report documents validations in
  let after := generate_compliance_report (documents ++ [doc]) validations in
  process_type after = process_type before /\
  overall_status after = overall_status before /\
  Permutation (present_documents (completeness after))
              (present_documents (completeness before)) /\
  (process_type before = "company_incorporation" ->
   present_documents (completeness after)
   = present_documents (completeness before)) /\
  missing_documents (completeness after) = missing_documents (completeness before) /\
  completion_percentage (completeness after)
  = completion_percentage (completeness before) /\
  required_documents (completeness after)
  = required_documents (completeness before) /\
  documents_uploaded (completeness after)
  = (documents_uploaded (completeness before) + 1)%Z /\
  issues_summary after = issues_summary before.
Proof.
  intros Hty before after. subst before after.
  unfold generate_compliance_report.
  assert (Hobs : observed_types (documents ++ [doc]) = observed_types documents).
  { rewrite observed_types_app, Hty. apply set_eq. intros x.
    rewrite elem_of_union, elem_of_difference, !elem_of_singleton. tauto. }
  rewrite Hobs.
  destruct (select_process _) as [[pt pn] R].
  destruct (check_completeness _ _) as [[pr mi] c]. simpl.
  repeat (split; [reflexivity|]).
  split; [|reflexivity]. unfold len. rewrite length_app. simpl. lia.
Qed.

Lemma unknown_document_ignored_witness :
  let d1 := Classifier.parse_document "articles.docx" "Articles of Association" in
  let d2 := Classifier.parse_document "notes.docx" "Minutes of the picnic" in
  completion_percentage
    (completeness (generate_compliance_report ([d1] ++ [d2]) []))
  = completion_percentage (completeness (generate_compliance_report [d1] [])).
Proof.
  intros d1 d2.
  apply (unknown_document_ignored [d1] d2 []). vm_compute. reflexivity.
Defined.

(** X23: the company-incorporation profile is selected exactly when some
    document is of type articles_of_association, board_resolution or
    ubo_declaration; an incorporation form alone does not select it.
    Without such a document the report is a general review with nothing
    required, nothing missing and completion 100.0. *)
Theorem process_selection (documents : list doc_info)
    (validations : list validation) :
  let r := generate_compliance_report documents validations in
  (process_type r = "company_incorporation" <->
   exists doc, In doc documents /\
               In (default "unknown" (document_type doc)) signal_types) /\
  (process_type r <> "company_incorporation" ->
   process_type r = "general_review" /\
   required_documents (completeness r) = 0%Z /\
   missing_documents (completeness r) = [] /\
   completion_percentage (completeness r) = 100%float) /\
  ~ In "incorporation_form" signal_types.
Proof.
  intros r.
  destruct (report_cases documents validations) as [_ Hcases]. fold r in Hcases.
  pose proof (has_signal_false documents) as Hfalse.
  split; [|split; [|simpl; intuition discriminate]].
  - destruct Hcases as [(Hsig & _ & Ht & _)|(Hsig & _ & Ht & _)]; rewrite Ht.
    + split; [intros _|reflexivity].
      unfold has_signal in Hsig.
      rewrite !orb_true_iff, !bool_decide_eq_true, !observed_types_spec in Hsig.
      destruct Hsig as [[[_ (doc & Hdoc & Hty)]|[_ (doc & Hdoc & Hty)]]
                       |[_ (doc & Hdoc & Hty)]];
        exists doc; (split; [exact Hdoc|]); rewrite Hty; simpl; tauto.
    + split; [discriminate|]. intros (doc & Hdoc & Hin). exfalso.
      exact (proj1 Hfalse Hsig doc Hdoc Hin).
  - destruct Hcases as [(_ & _ & Ht & _)|(_ & _ & Ht & Hreq & _ & Hm & Hc)].
    + intros H. contradiction.
    + intros _. auto.
Qed.

Lemma batch_issue_bounds_witness :
  let files :=
    [ Agent.Upload "uploads/lease.docx"
        (Some (Parser.Docx
                 [ "Governing law: the Dubai Court applies federal law.";
                   "Sign here: ____ (signature)" ] 1)) ] in
  exists results,
    Agent.process_documents files = inr results /\
    (total_red_flags (issues_summary (Agent.compliance_report results))
     <= 11 * Agent.documents_processed results)%Z /\
    (high_severity (issues_summary (Agent.compliance_report results))
     <= 7 * Agent.documents_processed results)%Z.
Proof.
  intros files. eexists. split; [reflexivity|].
  apply (batch_issue_bounds files _ eq_refl).
Defined.
